(** * Fund snapshot pipeline: filename metadata, validation, ingestion,
      price reconciliation and performance ranking.

    Shallow embedding of [investmentfund.py] (class [InvestmentFunds]) and of
    its earlier module-level twin [orig_file.py].

    Conventions of the embedding
    - Python [str] values are lists of [ascii]; the model covers ASCII file
      names (for them [\d] and [[0-9]] coincide and [str.lower] only moves
      [A-Z]).
    - A caught or propagating Python exception is an explicit [Raise].
    - [print] output is not modelled; calls of [logging] are, as a list of
      structured log entries.
    - IEEE doubles are exact rationals extended with the two infinities and
      NaN (pandas' null for a float column); rounding is not modelled. *)

From Stdlib Require Import List Bool Arith Lia Ascii String ZArith QArith.
From Stdlib Require Import DecimalString DecimalNat Permutation Sorted.
Import ListNotations.

Close Scope Q_scope.
Local Open Scope nat_scope.
Local Open Scope list_scope.

Set Implicit Arguments.
Set Warnings "-abstract-large-number".

(* ================================================================== *)
(** * Python builtins used by the program *)
(* ================================================================== *)

Module Py.

Definition str := list ascii.

(** String literal. *)
Definition lit (x : string) : str := list_ascii_of_string x.

Definition code (c : ascii) : nat := nat_of_ascii c.

(** ** Character classes *)

Definition in_range (lo hi c : ascii) : bool :=
  (code lo <=? code c) && (code c <=? code hi).

Definition is_char (x c : ascii) : bool := Ascii.eqb x c.

(** [\d] and [[0-9]] on ASCII text. *)
Definition is_digit (c : ascii) : bool := in_range "0" "9" c.

(** [\s] of a [str] pattern on ASCII text: TAB..CR, FS..US and the space. *)
Definition is_space (c : ascii) : bool :=
  in_range "009" "013" c || in_range "028" "031" c || is_char " " c.

(** ** [str.lower] and the [in] operator *)

Definition is_upper (c : ascii) : bool := in_range "A" "Z" c.

Definition lower_char (c : ascii) : ascii :=
  if is_upper c then ascii_of_nat (code c + 32) else c.

Definition lower (x : str) : str := map lower_char x.

Fixpoint startswith (x prefix : str) : bool :=
  match prefix, x with
  | [], _ => true
  | _ :: _, [] => false
  | a :: prefix', b :: x' => Ascii.eqb a b && startswith x' prefix'
  end.

(** [needle in hay]. *)
Fixpoint contains (hay needle : str) : bool :=
  startswith hay needle ||
  match hay with
  | [] => false
  | _ :: hay' => contains hay' needle
  end.

Fixpoint str_eqb (a b : str) : bool :=
  match a, b with
  | [], [] => true
  | x :: a', y :: b' => Ascii.eqb x y && str_eqb a' b'
  | _, _ => false
  end.

(** ** Decimal conversions: [int(text)] and [str(n)] *)

Definition digit_value (c : ascii) : nat := code c - code "0".

(** [int] skips surrounding white space; the callers pass digits with at
    most one leading blank. *)
Fixpoint lstrip (x : str) : str :=
  match x with
  | c :: x' => if is_space c then lstrip x' else x
  | [] => []
  end.

Definition int_of_digits (x : str) : nat :=
  fold_left (fun acc c => 10 * acc + digit_value c) x 0.

Definition int (x : str) : nat := int_of_digits (lstrip x).

Definition str_of_nat (n : nat) : str :=
  list_ascii_of_string (NilZero.string_of_uint (Nat.to_uint n)).

(** ** Exceptions and results *)

Inductive exn : Type :=
| KeyError (key : str)
| ValueError (msg : str)
| AttributeError
| UnboundLocalError (var : str)
| OtherError (msg : str).

Inductive result (A : Type) : Type :=
| Ok (a : A)
| Raise (e : exn).

Arguments Ok {A} a.
Arguments Raise {A} e.

(** ** A backtracking matcher for the regular expressions of the program

    [rmatch r x] lists every way [r] matches a prefix of [x], as
    (matched text, remaining text), in the order in which a backtracking
    matcher tries them: the head is what [re.match] reports. *)

Inductive regex : Type :=
| Cls (p : ascii -> bool)
| Seq (r1 r2 : regex)
| Alt (r1 r2 : regex)
| Rep (p : ascii -> bool) (lo hi : nat).

(** Greedy [p{lo,hi}]: longest run first. *)
Fixpoint rep_matches (p : ascii -> bool) (lo hi : nat) (x : str)
  : list (str * str) :=
  let stop := if lo =? 0 then [([], x)] else [] in
  match hi with
  | 0 => stop
  | S hi' =>
      match x with
      | c :: x' =>
          if p c
          then map (fun mr => (c :: fst mr, snd mr))
                   (rep_matches p (pred lo) hi' x') ++ stop
          else stop
      | [] => stop
      end
  end.

Fixpoint rmatch (r : regex) (x : str) : list (str * str) :=
  match r with
  | Cls p =>
      match x with
      | c :: x' => if p c then [([c], x')] else []
      | [] => []
      end
  | Seq r1 r2 =>
      flat_map (fun mr1 =>
                  map (fun mr2 => (fst mr1 ++ fst mr2, snd mr2))
                      (rmatch r2 (snd mr1)))
               (rmatch r1 x)
  | Alt r1 r2 => rmatch r1 x ++ rmatch r2 x
  | Rep p lo hi => rep_matches p lo hi x
  end.

(** [re.search(r, x).group(0)], [None] when nothing matches. *)
Fixpoint re_search (r : regex) (x : str) : option str :=
  match rmatch r x with
  | (m, _) :: _ => Some m
  | [] =>
      match x with
      | [] => None
      | _ :: x' => re_search r x'
      end
  end.

(** [re.sub(r'[^0-9]', '-', x)]. *)
Definition sub_non_digits (x : str) : str :=
  map (fun c => if is_digit c then c else "-"%char) x.

(** ** [datetime.strptime] for the directives [%d], [%m], [%Y] *)

Record date : Type := mkdate { year : nat; month : nat; day : nat }.

Definition is_leap (y : nat) : bool :=
  (y mod 4 =? 0) && (negb (y mod 100 =? 0) || (y mod 400 =? 0)).

Definition days_in_month (y m : nat) : nat :=
  match m with
  | 2 => if is_leap y then 29 else 28
  | 4 | 6 | 9 | 11 => 30
  | _ => 31
  end.

(** The constructor check of [datetime.date]. *)
Definition valid_date (dt : date) : bool :=
  (1 <=? year dt) && (year dt <=? 9999) &&
  (1 <=? month dt) && (month dt <=? 12) &&
  (1 <=? day dt) && (day dt <=? days_in_month (year dt) (month dt)).

Inductive directive : Type := Dir_d | Dir_m | Dir_Y.

Inductive fmt_item : Type :=
| FDir (d : directive)
| FLit (c : ascii).

Definition format := list fmt_item.

(** The regular expression [_strptime] compiles each directive to. *)
Definition directive_regex (d : directive) : regex :=
  match d with
  | Dir_d =>   (* 3[0-1]|[1-2]\d|0[1-9]|[1-9]| [1-9] *)
      Alt (Seq (Cls (is_char "3")) (Cls (in_range "0" "1")))
     (Alt (Seq (Cls (in_range "1" "2")) (Cls is_digit))
     (Alt (Seq (Cls (is_char "0")) (Cls (in_range "1" "9")))
     (Alt (Cls (in_range "1" "9"))
          (Seq (Cls (is_char " ")) (Cls (in_range "1" "9"))))))
  | Dir_m =>   (* 1[0-2]|0[1-9]|[1-9] *)
      Alt (Seq (Cls (is_char "1")) (Cls (in_range "0" "2")))
     (Alt (Seq (Cls (is_char "0")) (Cls (in_range "1" "9")))
          (Cls (in_range "1" "9")))
  | Dir_Y =>   (* \d\d\d\d *)
      Seq (Cls is_digit) (Seq (Cls is_digit) (Seq (Cls is_digit) (Cls is_digit)))
  end.

(** Captured groups of a format match. *)
Record fields : Type := mkfields
  { f_d : option str; f_m : option str; f_Y : option str }.

Definition no_fields : fields := mkfields None None None.

Definition set_field (d : directive) (v : str) (f : fields) : fields :=
  match d with
  | Dir_d => mkfields (Some v) (f_m f) (f_Y f)
  | Dir_m => mkfields (f_d f) (Some v) (f_Y f)
  | Dir_Y => mkfields (f_d f) (f_m f) (Some v)
  end.

(** All matches of a compiled format on a prefix of [x], in backtracking
    order, with the groups captured. *)
Fixpoint fmt_match (fmt : format) (x : str) (acc : fields)
  : list (fields * str) :=
  match fmt with
  | [] => [(acc, x)]
  | FLit c :: fmt' =>
      match x with
      | c' :: x' => if Ascii.eqb c c' then fmt_match fmt' x' acc else []
      | [] => []
      end
  | FDir d :: fmt' =>
      flat_map (fun mr => fmt_match fmt' (snd mr) (set_field d (fst mr) acc))
               (rmatch (directive_regex d) x)
  end.

Definition field_value (default : nat) (v : option str) : nat :=
  match v with
  | Some t => int t
  | None => default
  end.

(** [datetime.strptime(x, fmt)]; [None] stands for the [ValueError] raised
    when the text does not match, when unconverted data remains after the
    match, or when the fields are no calendar date. *)
Definition strptime (x : str) (fmt : format) : option date :=
  match fmt_match fmt x no_fields with
  | [] => None
  | (f, rest) :: _ =>
      match rest with
      | _ :: _ => None
      | [] =>
          let dt := mkdate (field_value 1900 (f_Y f))
                           (field_value 1 (f_m f))
                           (field_value 1 (f_d f)) in
          if valid_date dt then Some dt else None
      end
  end.

End Py.

(* ================================================================== *)
(** * The pandas operations used by the program *)
(* ================================================================== *)

Module Pd.
Import Py.

(** ** Floating-point cells *)

Inductive float : Type :=
| Fin (q : Q)
| PInf
| NInf
| NaN.

Definition is_nan (x : float) : bool :=
  match x with NaN => true | _ => false end.

Definition q_is_zero (q : Q) : bool := Qeq_bool q 0.
Definition q_is_pos (q : Q) : bool := negb (Qle_bool q 0).

Definition fneg (x : float) : float :=
  match x with
  | Fin q => Fin (Qopp q)
  | PInf => NInf
  | NInf => PInf
  | NaN => NaN
  end.

Definition fadd (x y : float) : float :=
  match x, y with
  | NaN, _ | _, NaN => NaN
  | Fin p, Fin q => Fin (Qplus p q)
  | PInf, NInf | NInf, PInf => NaN
  | PInf, _ | _, PInf => PInf
  | NInf, _ | _, NInf => NInf
  end.

Definition fsub (x y : float) : float := fadd x (fneg y).

(** Division the way numpy does it for a float column: a zero divisor is
    no error; it gives an infinity, or NaN for 0/0.  A zero is taken as
    positive (signed zeros are not modelled). *)
Definition fdiv (x y : float) : float :=
  match x, y with
  | NaN, _ | _, NaN => NaN
  | Fin p, Fin q =>
      if q_is_zero q
      then if q_is_zero p then NaN else if q_is_pos p then PInf else NInf
      else Fin (Qdiv p q)
  | Fin _, _ => Fin 0
  | _, Fin q =>
      let flip := negb (q_is_zero q) && negb (q_is_pos q) in
      if flip then fneg x else x
  | _, _ => NaN
  end.

(** [sum] of a group: nulls are skipped, an empty sum is 0. *)
Definition nansum (xs : list float) : float :=
  fold_left fadd (filter (fun x => negb (is_nan x)) xs) (Fin 0).

(** [x >= y] on non-null values. *)
Definition fge (x y : float) : bool :=
  match x, y with
  | NaN, _ | _, NaN => false
  | PInf, _ => true
  | _, NInf => true
  | Fin p, Fin q => Qle_bool q p
  | _, _ => false
  end.

(** The order of a descending sort, nulls last. *)
Definition fge_sort (x y : float) : bool :=
  match x, y with
  | _, NaN => true
  | NaN, _ => false
  | _, _ => fge x y
  end.

(** ** Timestamps *)

Record Timestamp : Type := mkts
  { ts_year : nat; ts_month : nat; ts_day : nat; ts_time : nat }.

(** [pd.to_datetime] of a report date: midnight of that day. *)
Definition to_datetime (d : date) : Timestamp :=
  mkts (year d) (month d) (day d) 0.

Definition ts_leb (a b : Timestamp) : bool :=
  (ts_year a <? ts_year b) ||
  ((ts_year a =? ts_year b) &&
   ((ts_month a <? ts_month b) ||
    ((ts_month a =? ts_month b) &&
     ((ts_day a <? ts_day b) ||
      ((ts_day a =? ts_day b) && (ts_time a <=? ts_time b)))))).

Definition ts_eqb (a b : Timestamp) : bool := ts_leb a b && ts_leb b a.
Definition ts_ltb (a b : Timestamp) : bool := negb (ts_leb b a).

(** Ascending order of a nullable timestamp column, [NaT] last. *)
Definition nat_last_leb (a b : option Timestamp) : bool :=
  match a, b with
  | _, None => true
  | None, Some _ => false
  | Some x, Some y => ts_leb x y
  end.

(** ** Text order (code point by code point) *)

Fixpoint str_leb (a b : str) : bool :=
  match a, b with
  | [], _ => true
  | _ :: _, [] => false
  | x :: a', y :: b' =>
      (code x <? code y) || ((code x =? code y) && str_leb a' b')
  end.

Definition str_ltb (a b : str) : bool := negb (str_leb b a).

Definition opt_str_eqb (a b : option str) : bool :=
  match a, b with
  | Some x, Some y => str_eqb x y
  | None, None => true
  | _, _ => false
  end.

(** ** [sort_values] *)

Section SortValues.
Variable A : Type.
Variable leb : A -> A -> bool.

Fixpoint insert_sorted (x : A) (l : list A) : list A :=
  match l with
  | [] => [x]
  | y :: l' => if leb x y then x :: l else y :: insert_sorted x l'
  end.

Definition sort_values (l : list A) : list A :=
  fold_right insert_sorted [] l.
End SortValues.

(** ** [drop_duplicates(key)], keeping the first row of each key *)

Section DropDuplicates.
Variables A K : Type.
Variable key : A -> K.
Variable key_eqb : K -> K -> bool.

Fixpoint drop_duplicates_from (seen : list K) (l : list A) : list A :=
  match l with
  | [] => []
  | x :: l' =>
      if existsb (key_eqb (key x)) seen
      then drop_duplicates_from seen l'
      else x :: drop_duplicates_from (key x :: seen) l'
  end.

Definition drop_duplicates (l : list A) : list A :=
  drop_duplicates_from [] l.
End DropDuplicates.

(** ** Frames as read from a CSV file *)

Inductive column : Type :=
| NumCol (vals : list float)
| ObjCol (vals : list (option str)).

Inductive cell : Type :=
| NumCell (x : float)
| ObjCell (v : option str).

Record DataFrame : Type := mkdf
  { nrows : nat; columns : list (str * column) }.

Definition has_column (df : DataFrame) (name : str) : bool :=
  existsb (fun nc => str_eqb (fst nc) name) (columns df).

(** [df[name]] *)
Definition getitem (df : DataFrame) (name : str) : result column :=
  match find (fun nc => str_eqb (fst nc) name) (columns df) with
  | Some nc => Ok (snd nc)
  | None => Raise (KeyError name)
  end.

Fixpoint replace_column (name : str) (c : column) (cols : list (str * column))
  : list (str * column) :=
  match cols with
  | [] => [(name, c)]
  | nc :: cols' =>
      if str_eqb (fst nc) name then (name, c) :: cols'
      else nc :: replace_column name c cols'
  end.

(** [df[name] = c] *)
Definition setitem (df : DataFrame) (name : str) (c : column) : DataFrame :=
  mkdf (nrows df) (replace_column name c (columns df)).

(** [df[name] = v] for one text value or [None], repeated on every row. *)
Definition setitem_scalar (df : DataFrame) (name : str) (v : option str)
  : DataFrame :=
  setitem df name (ObjCol (repeat v (nrows df))).

Definition is_numeric_dtype (c : column) : bool :=
  match c with NumCol _ => true | ObjCol _ => false end.

Definition column_has_null (c : column) : bool :=
  match c with
  | NumCol vals => existsb is_nan vals
  | ObjCol vals => existsb (fun v => match v with None => true | _ => false end) vals
  end.

Definition cell_at (c : column) (i : nat) : cell :=
  match c with
  | NumCol vals => NumCell (nth i vals NaN)
  | ObjCol vals => ObjCell (nth i vals None)
  end.

(** A record: the cell under each column name. *)
Definition Row := list (str * cell).

End Pd.

(* ================================================================== *)
(** * The world the pipeline runs in: store, log, file system *)
(* ================================================================== *)

Module Effects.
Import Py Pd.

(** What [logging] writes; the variants stand for the message formats. *)
Inductive log_entry : Type :=
| WarnMissingColumns (filename : str) (fund_name : option str)
                     (missing : list str)
| WarnNotNumeric (col filename : str)
| WarnNullPrices (filename : str)
| InfoIngested (records : nat) (fund_name : option str)
| ErrorFailedToProcess (file : str) (e : exn).

(** The rows of table [external_funds] and the log file. *)
Record World : Type := mkworld
  { store : list Row; log : list log_entry }.

(** State and exception monad: a raise keeps the world as it was left. *)
Definition M (A : Type) : Type := World -> result A * World.

Definition ret {A} (a : A) : M A := fun w => (Ok a, w).

Definition bind {A B} (c : M A) (k : A -> M B) : M B :=
  fun w =>
    match c w with
    | (Ok a, w') => k a w'
    | (Raise e, w') => (Raise e, w')
    end.

Definition lift {A} (r : result A) : M A := fun w => (r, w).

Definition logging (e : log_entry) : M unit :=
  fun w => (Ok tt, mkworld (store w) (log w ++ [e])).

(** [try: c  except Exception as e: handler e] *)
Definition try_except {A} (c : M A) (handler : exn -> M A) : M A :=
  fun w =>
    match c w with
    | (Ok a, w') => (Ok a, w')
    | (Raise e, w') => handler e w'
    end.

(** What the process sees of the directory [external-funds]. *)
Record FileSystem : Type := mkfs
  { folder_exists : bool;
    listdir : list str;
    read_csv : str -> result DataFrame }.

End Effects.

Declare Scope pipeline_scope.
Delimit Scope pipeline_scope with pipeline.
Notation "x <- c ;; k" := (Effects.bind c (fun x => k))
  (at level 61, c at next level, right associativity) : pipeline_scope.
Notation "c ;;; k" := (Effects.bind c (fun _ => k))
  (at level 61, right associativity) : pipeline_scope.

(* ================================================================== *)
(** * [investmentfund.py]: class [InvestmentFunds] *)
(* ================================================================== *)

Module InvestmentFunds.
Import Py.

(** ** Configuration set by [__init__] *)

Definition fund_names : list str :=
  map lit ["Whitestone"; "Wallington"; "Catalysm"; "Belaware"; "Gohen";
           "Applebead"; "Magnum"; "Trustmind"; "Leeder"; "Virtous"]%string.

Definition fund_cols : list str :=
  map lit ["FINANCIAL TYPE"; "SYMBOL"; "SECURITY NAME"; "ISIN";
           "PRICE"; "QUANTITY"; "REALISED P/L"; "MARKET VALUE"]%string.

Definition numeric_cols : list str :=
  map lit ["PRICE"; "QUANTITY"; "REALISED P/L"; "MARKET VALUE"]%string.

(** ** [parse_filename] *)

(** [[-._/+\s]] *)
Definition is_sep (c : ascii) : bool :=
  is_char "-" c || is_char "." c || is_char "_" c || is_char "/" c ||
  is_char "+" c || is_space c.

(** [(\d{8}|\d{2,4}[-._/+\s]\d{2}[-._/+\s]\d{2,4})] *)
Definition date_pattern : regex :=
  Alt (Rep is_digit 8 8)
      (Seq (Rep is_digit 2 4)
      (Seq (Cls is_sep)
      (Seq (Rep is_digit 2 2)
      (Seq (Cls is_sep) (Rep is_digit 2 4))))).

Definition fmt_dmy : format :=
  [FDir Dir_d; FLit "-"; FDir Dir_m; FLit "-"; FDir Dir_Y].
Definition fmt_mdy : format :=
  [FDir Dir_m; FLit "-"; FDir Dir_d; FLit "-"; FDir Dir_Y].
Definition fmt_ymd : format :=
  [FDir Dir_Y; FLit "-"; FDir Dir_m; FLit "-"; FDir Dir_d].
Definition fmt_compact : format :=
  [FDir Dir_Y; FDir Dir_m; FDir Dir_d].

(** [('%d-%m-%Y', '%m-%d-%Y', '%Y-%m-%d', '%Y%m%d')] *)
Definition formats : list format := [fmt_dmy; fmt_mdy; fmt_ymd; fmt_compact].

(** The f-string [{dt.month}/{dt.day}/{dt.year}]. *)
Definition report_date_string (dt : date) : str :=
  str_of_nat (month dt) ++ lit "/" ++ str_of_nat (day dt) ++ lit "/" ++
  str_of_nat (year dt).

(** The loop over [formats]: the first layout that parses with a day of at
    least 28 decides; a [ValueError] or a smaller day moves on. *)
Fixpoint first_accepted (clean_date_str : str) (fmts : list format)
  : option date :=
  match fmts with
  | [] => None
  | fmt :: fmts' =>
      match strptime clean_date_str fmt with
      | Some dt =>
          if 28 <=? day dt then Some dt
          else first_accepted clean_date_str fmts'
      | None => first_accepted clean_date_str fmts'
      end
  end.

Definition standardize_date (clean_date_str : str) : option str :=
  option_map report_date_string (first_accepted clean_date_str formats).

(** The roster loop with its [break]. *)
Definition find_fund_name (filename : str) : option str :=
  find (fun name => contains (lower filename) (lower name)) fund_names.

Definition parse_filename (filename : str) : option str * option str :=
  let fund_name := find_fund_name filename in
  match re_search date_pattern filename with
  | None => (fund_name, None)
  | Some raw_string =>
      let clean_date_str := sub_non_digits raw_string in
      (fund_name, standardize_date clean_date_str)
  end.

(** ** [validate_dataframe] *)

Import Pd Effects.
Local Open Scope pipeline_scope.

Section Ingestion.

(** How [pd.to_numeric] reads one text cell; a text that is no number
    becomes NaN under [errors='coerce']. *)
Variable parse_float : str -> float.

Variable fs : FileSystem.

Definition to_numeric (c : column) : column :=
  match c with
  | NumCol vals => NumCol vals
  | ObjCol vals =>
      NumCol (map (fun v => match v with
                            | Some t => parse_float t
                            | None => NaN
                            end) vals)
  end.

(** The loop over [numeric_cols]; [df[col]] raises [KeyError] for a
    column the frame does not have. *)
Fixpoint coerce_numeric_cols (filename : str) (cols : list str)
                             (df : DataFrame) : M DataFrame :=
  match cols with
  | [] => ret df
  | col :: cols' =>
      c <- lift (getitem df col) ;;
      if is_numeric_dtype c
      then coerce_numeric_cols filename cols' df
      else
        logging (WarnNotNumeric col filename) ;;;
        coerce_numeric_cols filename cols' (setitem df col (to_numeric c))
  end.

(** Returns the flag and the frame as the in-place coercions left it. *)
Definition validate_dataframe (df : DataFrame) (fund_name : option str)
                              (filename : str) : M (bool * DataFrame) :=
  let missing := filter (fun col => negb (has_column df col)) fund_cols in
  match missing with
  | [] => ret tt
  | _ :: _ => logging (WarnMissingColumns filename fund_name missing)
  end ;;;
  df' <- coerce_numeric_cols filename numeric_cols df ;;
  price <- lift (getitem df' (lit "PRICE")) ;;
  (if column_has_null price
   then logging (WarnNullPrices filename)
   else ret tt) ;;;
  ret (true, df').

(** ** [ingest_csv] *)

(** The columns of [CREATE TABLE "external_funds"]. *)
Definition table_columns : list str :=
  map lit ["FUND NAME"; "FINANCIAL TYPE"; "SYMBOL"; "SEDOL";
           "SECURITY NAME"; "ISIN"; "PRICE"; "QUANTITY"; "REALISED P/L";
           "MARKET VALUE"; "REPORT DATE"]%string.

(** The names under which SQLite lets an INSERT set the hidden row number
    of a table that has no column of such a name. *)
Definition rowid_aliases : list str :=
  map lit ["rowid"; "oid"; "_rowid_"]%string.

(** SQLite resolves column names without regard to ASCII case. *)
Definition same_column (a b : str) : bool := str_eqb (lower a) (lower b).

(** Whether an INSERT into the table may list [name]. *)
Definition table_has_column (name : str) : bool :=
  existsb (same_column name) (table_columns ++ rowid_aliases).

(** The value that an INSERT listing the columns of [df] binds to the table
    column [t] for row [i]: of several listed names that resolve to [t]
    SQLite takes the first, and a column that is not listed is NULL. *)
Definition bound_cell (df : DataFrame) (i : nat) (t : str) : cell :=
  match find (fun nc => same_column (fst nc) t) (columns df) with
  | Some nc => cell_at (snd nc) i
  | None => ObjCell None
  end.

(** The rows of the frame as rows of the table. *)
Definition table_rows (df : DataFrame) : list Row :=
  map (fun i => map (fun t => (t, bound_cell df i t)) table_columns)
      (seq 0 (nrows df)).

(** [df.to_sql('external_funds', conn, if_exists='append', index=False)]:
    pandas returns at once for a frame without rows; otherwise it runs, in
    one transaction, an INSERT that lists the columns of the frame: a name
    the table cannot resolve fails it and nothing is written.  A stored row
    holds the values as they were bound (SQLite's conversion to the declared
    type of a column is not applied).  The store keeps no row numbers: a
    value bound to the hidden row number is not recorded, and the refusals
    SQLite bases on it (no integer, number already taken) are not part of
    this model. *)
Definition to_sql (df : DataFrame) : M unit :=
  fun w =>
    if nrows df =? 0 then (Ok tt, w)
    else
      match find (fun nc => negb (table_has_column (fst nc))) (columns df) with
      | Some nc =>
          (Raise (OtherError (lit "table external_funds has no column named "
                                  ++ fst nc)), w)
      | None => (Ok tt, mkworld (store w ++ table_rows df) (log w))
      end.

(** The body of the [try] for one file. *)
Definition process_file (file : str) : M unit :=
  let (fund_name, report_date) := parse_filename file in
  df <- lift (read_csv fs file) ;;
  vd <- validate_dataframe df fund_name file ;;
  let (valid, df) := vd : bool * DataFrame in
  if negb valid then ret tt
  else
    let df := setitem_scalar df (lit "FUND NAME") fund_name in
    let df := setitem_scalar df (lit "REPORT DATE") report_date in
    to_sql df ;;;
    logging (InfoIngested (nrows df) fund_name).

Definition process_file_guarded (file : str) : M unit :=
  try_except (process_file file)
             (fun e => logging (ErrorFailedToProcess file e)).

Fixpoint for_each (body : str -> M unit) (files : list str) : M unit :=
  match files with
  | [] => ret tt
  | file :: files' => body file ;;; for_each body files'
  end.

Definition endswith (x suffix : str) : bool :=
  startswith (rev x) (rev suffix).

Definition csv_files : list str :=
  filter (fun f => endswith f (lit ".csv")) (listdir fs).

(** Drops and recreates the table, then loads every file.  The two DDL
    statements and the listing of an existing folder stand outside the
    [try]; they are taken to succeed. *)
Definition ingest_csv : M unit :=
  fun w =>
    let w0 := mkworld [] (log w) in
    if folder_exists fs
    then for_each process_file_guarded csv_files w0
    else (Ok tt, w0).

End Ingestion.

(** ** The tables as [pd.read_sql] returns them *)

(** A row of [external_funds], with the columns the reports use.  The
    text of [REPORT DATE] is the one [parse_filename] wrote; the record
    keeps the date it denotes, [None] for SQL NULL. *)
Record Holding : Type := mkholding
  { FUND_NAME : option str;
    SYMBOL : option str;
    ISIN : option str;
    PRICE : float;
    MARKET_VALUE : float;
    REALISED_PL : float;
    REPORT_DATE : option date }.

(** A row of [bond_prices] or [equity_prices] after the SELECT that names
    its key [IDENTIFIER], with [dt] already parsed. *)
Record PriceObservation : Type := mkobs
  { IDENTIFIER : option str;
    MASTER_PRICE : float;
    obs_dt : option Timestamp }.

(** ** [generate_reconciliation_report] *)

Record FundRow : Type := mkfundrow
  { fr_holding : Holding;
    fr_IDENTIFIER : option str;
    fr_dt : option Timestamp }.

Record ReconRow : Type := mkrecon
  { rr_holding : Holding;
    rr_IDENTIFIER : option str;
    rr_dt : Timestamp;
    rr_MASTER_PRICE : float;
    PRICE_DIFF : float }.

(** [fund_df['SYMBOL'].fillna(fund_df['ISIN'])] *)
Definition fillna (a b : option str) : option str :=
  match a with
  | Some _ => a
  | None => b
  end.

Definition make_fund_row (h : Holding) : FundRow :=
  mkfundrow h (fillna (SYMBOL h) (ISIN h))
            (option_map to_datetime (REPORT_DATE h)).

Definition is_null {A} (v : option A) : bool :=
  match v with None => true | Some _ => false end.

(** Whether a right row may be matched to the key [(id, t)]. *)
Definition asof_candidate (id : option str) (t : Timestamp)
                          (o : PriceObservation) : bool :=
  opt_str_eqb (IDENTIFIER o) id &&
  match obs_dt o with
  | Some u => ts_leb u t
  | None => false
  end.

(** [direction='backward']: the last right row, in the order of the right
    frame, with the same [by] key and an [on] key not after the left one. *)
Definition asof_backward (right : list PriceObservation)
                         (id : option str) (t : Timestamp)
  : option PriceObservation :=
  find (asof_candidate id t) (rev right).

Definition matched_price (m : option PriceObservation) : float :=
  match m with
  | Some o => MASTER_PRICE o
  | None => NaN
  end.

(** [pd.merge_asof(left, right, on='dt', by='IDENTIFIER')] followed by the
    [PRICE_DIFF] column.  The merge refuses null keys on either side. *)
Fixpoint merge_rows (left : list FundRow) (right : list PriceObservation)
  : result (list ReconRow) :=
  match left with
  | [] => Ok []
  | l :: left' =>
      match fr_dt l with
      | None =>
          Raise (ValueError (lit "Merge keys contain null values on left side"))
      | Some t =>
          match merge_rows left' right with
          | Raise e => Raise e
          | Ok rows =>
              let mp := matched_price (asof_backward right (fr_IDENTIFIER l) t) in
              Ok (mkrecon (fr_holding l) (fr_IDENTIFIER l) t mp
                          (fsub (PRICE (fr_holding l)) mp) :: rows)
          end
      end
  end.

Definition merge_asof (left : list FundRow) (right : list PriceObservation)
  : result (list ReconRow) :=
  if existsb (fun l => is_null (fr_dt l)) left
  then Raise (ValueError (lit "Merge keys contain null values on left side"))
  else if existsb (fun o => is_null (obs_dt o)) right
  then Raise (ValueError (lit "Merge keys contain null values on right side"))
  else merge_rows left right.

Definition generate_reconciliation_report
    (bond_prices equity_prices : list PriceObservation)
    (external_funds : list Holding) : result (list ReconRow) :=
  let master_df :=
    sort_values (fun a b => nat_last_leb (obs_dt a) (obs_dt b))
                (bond_prices ++ equity_prices) in
  let fund_df :=
    sort_values (fun a b => nat_last_leb (fr_dt a) (fr_dt b))
                (map make_fund_row external_funds) in
  merge_asof fund_df master_df.

(** ** [generate_performance_report] *)

(** One line of [monthly]; [STARTING_MV] and [ROR] are NaN until set. *)
Record Monthly : Type := mkmonthly
  { m_FUND_NAME : str;
    m_REPORT_DATE : date;
    m_MARKET_VALUE : float;
    m_REALISED_PL : float;
    STARTING_MV : float;
    ROR : float }.

Definition m_dt (m : Monthly) : Timestamp := to_datetime (m_REPORT_DATE m).

Definition date_eqb (a b : date) : bool :=
  (year a =? year b) && (month a =? month b) && (day a =? day b).

(** The grouping key [(FUND NAME, dt, REPORT DATE)]; [dt] is a function of
    [REPORT DATE]. *)
Definition group_key : Type := str * date.

Definition key_eqb (a b : group_key) : bool :=
  str_eqb (fst a) (fst b) && date_eqb (snd a) (snd b).

(** [groupby] leaves out the rows with a null key. *)
Definition key_of (h : Holding) : option group_key :=
  match FUND_NAME h, REPORT_DATE h with
  | Some f, Some d => Some (f, d)
  | _, _ => None
  end.

Definition in_group (k : group_key) (h : Holding) : bool :=
  match key_of h with
  | Some k' => key_eqb k' k
  | None => false
  end.

Fixpoint group_keys (seen : list group_key) (rows : list Holding)
  : list group_key :=
  match rows with
  | [] => []
  | h :: rows' =>
      match key_of h with
      | Some k =>
          if existsb (key_eqb k) seen then group_keys seen rows'
          else k :: group_keys (k :: seen) rows'
      | None => group_keys seen rows'
      end
  end.

Definition by_fund_dt (a b : Monthly) : bool :=
  str_ltb (m_FUND_NAME a) (m_FUND_NAME b) ||
  (str_eqb (m_FUND_NAME a) (m_FUND_NAME b) && ts_leb (m_dt a) (m_dt b)).

(** [df.groupby([...]).agg({'MARKET VALUE': 'sum', 'REALISED P/L': 'sum'})
    .reset_index()]: one line per key, in key order. *)
Definition groupby_sum (rows : list Holding) : list Monthly :=
  sort_values by_fund_dt
    (map (fun k =>
            let members := filter (in_group k) rows in
            mkmonthly (fst k) (snd k)
                      (nansum (map MARKET_VALUE members))
                      (nansum (map REALISED_PL members))
                      NaN NaN)
         (group_keys [] rows)).

(** The market value of the nearest earlier line of the same fund;
    [before] holds the earlier lines, nearest first. *)
Definition previous_market_value (before : list Monthly) (r : Monthly)
  : float :=
  match find (fun p => str_eqb (m_FUND_NAME p) (m_FUND_NAME r)) before with
  | Some p => m_MARKET_VALUE p
  | None => NaN
  end.

Definition set_starting_mv (r : Monthly) (start : float) : Monthly :=
  mkmonthly (m_FUND_NAME r) (m_REPORT_DATE r) (m_MARKET_VALUE r)
            (m_REALISED_PL r) start (ROR r).

(** [monthly.groupby('FUND NAME')['MARKET VALUE'].shift(1)]: the value of
    the previous line of the same fund, in the order of the frame. *)
Fixpoint shift_market_value (before : list Monthly) (rows : list Monthly)
  : list Monthly :=
  match rows with
  | [] => []
  | r :: rows' =>
      set_starting_mv r (previous_market_value before r)
      :: shift_market_value (r :: before) rows'
  end.

Definition rate_of_return (r : Monthly) : float :=
  fdiv (fadd (fsub (m_MARKET_VALUE r) (STARTING_MV r)) (m_REALISED_PL r))
       (STARTING_MV r).

Definition set_ror (r : Monthly) : Monthly :=
  mkmonthly (m_FUND_NAME r) (m_REPORT_DATE r) (m_MARKET_VALUE r)
            (m_REALISED_PL r) (STARTING_MV r) (rate_of_return r).

(** [monthly] with [STARTING_MV] and [ROR], before the [dropna]. *)
Definition monthly_with_ror (external_funds : list Holding) : list Monthly :=
  let monthly := groupby_sum external_funds in
  let monthly := sort_values by_fund_dt monthly in
  map set_ror (shift_market_value [] monthly).

(** [monthly.dropna(subset=['ROR'])] *)
Definition dropna_ror (rows : list Monthly) : list Monthly :=
  filter (fun r => negb (is_nan (ROR r))) rows.

(** [sort_values(['dt', 'ROR'], ascending=[True, False])] *)
Definition by_dt_ror_desc (a b : Monthly) : bool :=
  ts_ltb (m_dt a) (m_dt b) ||
  (ts_eqb (m_dt a) (m_dt b) && fge_sort (ROR a) (ROR b)).

(** The lines written to [best_performing_funds.csv]. *)
Definition generate_performance_report (external_funds : list Holding)
  : list Monthly :=
  let monthly := dropna_ror (monthly_with_ror external_funds) in
  let best_funds := sort_values by_dt_ror_desc monthly in
  drop_duplicates m_dt ts_eqb best_funds.

End InvestmentFunds.

(* ================================================================== *)
(** * [orig_file.py]: the module-level functions *)
(* ================================================================== *)

Module OrigFile.
Import Py Pd Effects.
Local Open Scope pipeline_scope.

Definition fund_names : list str := InvestmentFunds.fund_names.

(** [parse_filename] without the initial [fund_name = None] and without
    the [if not match] test: [fund_name] is a local that the loop may
    leave unbound, and [match.group(0)] is called on whatever [re.search]
    returned. *)
Definition parse_filename (filename : str)
  : result (str * option str) :=
  let fund_name := (* bound only if the loop reached its assignment *)
    find (fun name => contains (lower filename) (lower name)) fund_names in
  match re_search InvestmentFunds.date_pattern filename with
  | None => Raise AttributeError
  | Some raw_string =>
      let clean_date_str := sub_non_digits raw_string in
      let report_date := InvestmentFunds.standardize_date clean_date_str in
      match fund_name with
      | None => Raise (UnboundLocalError (lit "fund_name"))
      | Some name => Ok (name, report_date)
      end
  end.

Section Ingestion.
Variable parse_float : str -> float.
Variable fs : FileSystem.

(** Statement for statement the method of the class; [fund_cols] and
    [numeric_cols] are locals holding the same lists. *)
Definition validate_dataframe (df : DataFrame) (fund_name : option str)
                              (filename : str) : M (bool * DataFrame) :=
  InvestmentFunds.validate_dataframe parse_float df fund_name filename.

(** The loop body, with no [try] around it. *)
Definition process_file (file : str) : M unit :=
  parsed <- lift (parse_filename file) ;;
  let (fund_name, report_date) := parsed : str * option str in
  df <- lift (read_csv fs file) ;;
  vd <- validate_dataframe df (Some fund_name) file ;;
  let (valid, df) := vd : bool * DataFrame in
  if negb valid then ret tt
  else
    let df := setitem_scalar df (lit "FUND NAME") (Some fund_name) in
    let df := setitem_scalar df (lit "REPORT DATE") report_date in
    InvestmentFunds.to_sql df ;;;
    logging (InfoIngested (nrows df) (Some fund_name)).

(** [os.listdir] of a missing folder raises. *)
Definition ingest_csv : M unit :=
  fun w =>
    let w0 := mkworld [] (log w) in
    if folder_exists fs
    then InvestmentFunds.for_each process_file
           (InvestmentFunds.csv_files fs) w0
    else (Raise (OtherError (lit "FileNotFoundError")), w0).

End Ingestion.

Definition generate_reconciliation_report :=
  InvestmentFunds.generate_reconciliation_report.

Definition generate_performance_report :=
  InvestmentFunds.generate_performance_report.

End OrigFile.

(* ================================================================== *)
(** * Notions the statements are phrased with *)
(* ================================================================== *)

Module Spec.
Import Py Pd Effects.

(** Two characters that are the same letter up to ASCII case. *)
Definition same_letter (a b : ascii) : Prop :=
  a = b \/
  (is_upper a = true /\ code b = code a + 32) \/
  (is_upper b = true /\ code a = code b + 32).

(** [name] occurs in [filename] as a case-insensitive substring. *)
Definition occurs_ci (name filename : str) : Prop :=
  exists pre mid suf,
    filename = pre ++ mid ++ suf /\ Forall2 same_letter name mid.

(** [name] is the first entry of [roster] that occurs in [filename]. *)
Definition first_roster_match (roster : list str) (name filename : str)
  : Prop :=
  exists earlier later,
    roster = earlier ++ name :: later /\
    occurs_ci name filename /\
    forall other, In other earlier -> ~ occurs_ci other filename.

(** A layout accepts a normalized token: it parses and the day is >= 28. *)
Definition accepts (clean : str) (fmt : format) (dt : date) : Prop :=
  strptime clean fmt = Some dt /\ 28 <= day dt.

(** Every character class of [r] rejects [c]. *)
Fixpoint never_matches (c : ascii) (r : regex) : bool :=
  match r with
  | Cls p => negb (p c)
  | Seq r1 r2 | Alt r1 r2 => never_matches c r1 && never_matches c r2
  | Rep p _ _ => negb (p c)
  end.

(** Bounds on the length of a match. *)
Fixpoint min_len (r : regex) : nat :=
  match r with
  | Cls _ => 1
  | Seq r1 r2 => min_len r1 + min_len r2
  | Alt r1 r2 => Nat.min (min_len r1) (min_len r2)
  | Rep _ lo _ => lo
  end.

Fixpoint max_len (r : regex) : nat :=
  match r with
  | Cls _ => 1
  | Seq r1 r2 => max_len r1 + max_len r2
  | Alt r1 r2 => Nat.max (max_len r1) (max_len r2)
  | Rep _ _ hi => hi
  end.

(** The date [strptime] builds from captured groups. *)
Definition date_of_fields (f : fields) : date :=
  mkdate (field_value 1900 (f_Y f)) (field_value 1 (f_m f))
         (field_value 1 (f_d f)).

(** The text a directive captured: no hyphen, length within the bounds of
    the directive's expression. *)
Definition captured (d : directive) (m : str) : Prop :=
  ~ In "-"%char m /\
  min_len (directive_regex d) <= List.length m <= max_len (directive_regex d).

(** ** Date tokens *)

Definition digits (x : str) : Prop := Forall (fun c => is_digit c = true) x.

(** The two shapes of text the token pattern matches: eight digits, or
    digit groups of 2 to 4, 2 and 2 to 4 with one separator between them. *)
Definition token_shape (m : str) : Prop :=
  (List.length m = 8 /\ digits m) \/
  exists a s1 b s2 c,
    m = a ++ s1 :: b ++ s2 :: c /\
    digits a /\ digits b /\ digits c /\
    InvestmentFunds.is_sep s1 = true /\ InvestmentFunds.is_sep s2 = true /\
    2 <= List.length a <= 4 /\ List.length b = 2 /\
    2 <= List.length c <= 4.

(** The tokens that can give a date: eight digits, or ten characters made of
    a two-digit group and a four-digit group around a two-digit group. *)
Definition four_digit_year_token (m : str) : Prop :=
  (List.length m = 8 /\ digits m) \/
  exists a s1 b s2 c,
    m = a ++ s1 :: b ++ s2 :: c /\
    digits a /\ digits b /\ digits c /\
    InvestmentFunds.is_sep s1 = true /\ InvestmentFunds.is_sep s2 = true /\
    List.length b = 2 /\
    ((List.length a = 2 /\ List.length c = 4) \/
     (List.length a = 4 /\ List.length c = 2)).

(** A delimited token with a two-digit year, as in 31-12-22. *)
Definition two_digit_year_token (m : str) : Prop :=
  exists a s1 b s2 c,
    m = a ++ s1 :: b ++ s2 :: c /\
    InvestmentFunds.is_sep s1 = true /\ InvestmentFunds.is_sep s2 = true /\
    List.length a = 2 /\ List.length b = 2 /\ List.length c = 2.

(** No match of [r] starts inside [pre], the text before the match. *)
Definition no_earlier_match (r : regex) (pre after : str) : Prop :=
  forall pre1 pre2, pre = pre1 ++ pre2 -> pre2 <> [] ->
                    rmatch r (pre2 ++ after) = [].

Definition letter (c : ascii) : Prop :=
  65 <= code c <= 90 \/ 97 <= code c <= 122.

(** A character class that cannot tell a letter from its other case, and
    accepts no letter. *)
Definition class_respects_case (p : ascii -> bool) : Prop :=
  forall c c', same_letter c c' -> p c = p c' /\ (p c = true -> c = c').

Fixpoint regex_respects_case (r : regex) : Prop :=
  match r with
  | Cls p => class_respects_case p
  | Seq r1 r2 | Alt r1 r2 => regex_respects_case r1 /\ regex_respects_case r2
  | Rep p _ _ => class_respects_case p
  end.

(** Matches with the same matched text and remainders alike up to case. *)
Definition same_match (mr mr' : str * str) : Prop :=
  fst mr = fst mr' /\ Forall2 same_letter (snd mr) (snd mr').

(** ** Orders and sorted frames *)

Definition total {A} (leb : A -> A -> bool) : Prop :=
  forall a b, leb a b = true \/ leb b a = true.

Definition transitive {A} (leb : A -> A -> bool) : Prop :=
  forall a b c, leb a b = true -> leb b c = true -> leb a c = true.

(** Every row stands before the rows it is not after. *)
Definition sorted_by {A} (leb : A -> A -> bool) (l : list A) : Prop :=
  StronglySorted (fun a b => leb a b = true) l.

(** Order by a first criterion, ties broken by a second. *)
Definition lex_leb {A} (leb1 leb2 : A -> A -> bool) (a b : A) : bool :=
  negb (leb1 b a) || (leb1 a b && leb1 b a && leb2 a b).

(** Chronological order of timestamps. *)
Definition ts_le (a b : Timestamp) : Prop := ts_leb a b = true.
Definition ts_lt (a b : Timestamp) : Prop := ts_ltb a b = true.

(** ** Reconciliation *)





(** A holding from a file whose name gave no date. *)
Definition holding_without_date : InvestmentFunds.Holding :=
  InvestmentFunds.mkholding (Some (lit "Leeder")) (Some (lit "ABC")) None
                            (Fin 100) (Fin 1000) (Fin 0) None.

Definition example_bonds : list InvestmentFunds.PriceObservation :=
  [InvestmentFunds.mkobs (Some (lit "US0000000001")) (Fin 99)
                         (Some (mkts 2022 8 30 0));
   InvestmentFunds.mkobs (Some (lit "US0000000001")) (Fin 98)
                         (Some (mkts 2022 9 1 0))].

Definition example_equities : list InvestmentFunds.PriceObservation :=
  [InvestmentFunds.mkobs (Some (lit "ABC")) (Fin 12)
                         (Some (mkts 2022 8 31 0));
   InvestmentFunds.mkobs (Some (lit "ABC")) (Fin 11)
                         (Some (mkts 2022 8 30 3600));
   InvestmentFunds.mkobs (Some (lit "ABC")) (Fin 13)
                         (Some (mkts 2022 8 31 1))].


(** ** Performance *)

(** The holdings of one fund on one report date. *)
Definition members (fund : str) (d : date)
                   (holdings : list InvestmentFunds.Holding)
  : list InvestmentFunds.Holding :=
  filter (InvestmentFunds.in_group (fund, d)) holdings.

(** A monthly line sums the market value and the realised P/L of the
    holdings of its fund on its report date, and there is such a holding. *)
Definition aggregates (holdings : list InvestmentFunds.Holding)
                      (r : InvestmentFunds.Monthly) : Prop :=
  let fund := InvestmentFunds.m_FUND_NAME r in
  let d := InvestmentFunds.m_REPORT_DATE r in
  (exists h, In h holdings /\
             InvestmentFunds.FUND_NAME h = Some fund /\
             InvestmentFunds.REPORT_DATE h = Some d) /\
  InvestmentFunds.m_MARKET_VALUE r
  = nansum (map InvestmentFunds.MARKET_VALUE (members fund d holdings)) /\
  InvestmentFunds.m_REALISED_PL r
  = nansum (map InvestmentFunds.REALISED_PL (members fund d holdings)).

(** [p] is the line of the period immediately before the one of [r], for
    the same fund. *)
Definition preceding_period (lines : list InvestmentFunds.Monthly)
                            (r p : InvestmentFunds.Monthly) : Prop :=
  In p lines /\
  InvestmentFunds.m_FUND_NAME p = InvestmentFunds.m_FUND_NAME r /\
  ts_lt (InvestmentFunds.m_dt p) (InvestmentFunds.m_dt r) /\
  forall q, In q lines ->
            InvestmentFunds.m_FUND_NAME q = InvestmentFunds.m_FUND_NAME r ->
            ts_lt (InvestmentFunds.m_dt q) (InvestmentFunds.m_dt r) ->
            ts_le (InvestmentFunds.m_dt q) (InvestmentFunds.m_dt p).

(** [r] is the line of the first observed period of its fund. *)
Definition first_period (lines : list InvestmentFunds.Monthly)
                        (r : InvestmentFunds.Monthly) : Prop :=
  forall q, In q lines ->
            InvestmentFunds.m_FUND_NAME q = InvestmentFunds.m_FUND_NAME r ->
            ~ ts_lt (InvestmentFunds.m_dt q) (InvestmentFunds.m_dt r).

(** The formula of the rate of return. *)
Definition ror_formula (ending starting realised : float) : float :=
  fdiv (fadd (fsub ending starting) realised) starting.

(** The lines that take part in the ranking. *)
Definition eligible (holdings : list InvestmentFunds.Holding)
  : list InvestmentFunds.Monthly :=
  InvestmentFunds.dropna_ror (InvestmentFunds.monthly_with_ror holdings).

(** A row of the store with a fund name and a report date. *)
Definition has_fund_and_date (h : InvestmentFunds.Holding) : bool :=
  match InvestmentFunds.FUND_NAME h, InvestmentFunds.REPORT_DATE h with
  | Some _, Some _ => true
  | _, _ => false
  end.

(** The four columns of a monthly line that the grouping fills. *)
Definition base (r : InvestmentFunds.Monthly) : str * date * float * float :=
  (InvestmentFunds.m_FUND_NAME r, InvestmentFunds.m_REPORT_DATE r,
   InvestmentFunds.m_MARKET_VALUE r, InvestmentFunds.m_REALISED_PL r).

Definition line_key (r : InvestmentFunds.Monthly) : str * date :=
  (InvestmentFunds.m_FUND_NAME r, InvestmentFunds.m_REPORT_DATE r).

Definition position (fund : string) (mv pl : Q) (d : date)
  : InvestmentFunds.Holding :=
  InvestmentFunds.mkholding (Some (lit fund)) None None NaN
                            (Fin mv) (Fin pl) (Some d).

(** One fund with ending market values 100, 110, 105 and realised P/L
    0, 5, 2; the second period is held in two positions. *)
Definition three_periods : list InvestmentFunds.Holding :=
  [position "Leeder" 105 2 (mkdate 2022 10 31);
   position "Leeder" 100 0 (mkdate 2022 8 31);
   position "Leeder" 60 5 (mkdate 2022 9 30);
   position "Leeder" 50 0 (mkdate 2022 9 30)].

(** A fund whose first period sums to a market value of zero. *)
Definition zero_start : list InvestmentFunds.Holding :=
  [position "Leeder" 0 0 (mkdate 2022 8 31);
   position "Leeder" 60 5 (mkdate 2022 9 30);
   position "Gohen" 50 0 (mkdate 2022 8 31);
   position "Gohen" 100 0 (mkdate 2022 9 30)].

(** ** Ingestion *)

(** A computation whose result, appended rows and log lines do not depend
    on the world it starts in. *)
Definition effect {A} (c : M A) (r : result A) (rows : list Row)
                  (lines : list log_entry) : Prop :=
  forall w, c w = (r, mkworld (store w ++ rows) (log w ++ lines)).

Definition empty_world : World := mkworld [] [].

Section FileNotions.
Variable parse_float : str -> float.
Variable fs : FileSystem.

(** A file is corrupt when processing it raises. *)
Definition corrupt (file : str) : Prop :=
  exists e, fst (InvestmentFunds.process_file parse_float fs file empty_world)
            = Raise e.

(** The rows one file contributes to the store. *)
Definition file_rows (file : str) : list Row :=
  match InvestmentFunds.process_file parse_float fs file empty_world with
  | (Ok _, w) => store w
  | (Raise _, _) => []
  end.
End FileNotions.

(** A one-line snapshot with every required column but [PRICE]. *)
Definition frame_without_price : DataFrame :=
  mkdf 1
    [(lit "FINANCIAL TYPE", ObjCol [Some (lit "Equities")]);
     (lit "SYMBOL", ObjCol [Some (lit "ABC")]);
     (lit "SECURITY NAME", ObjCol [Some (lit "ABC Corp")]);
     (lit "ISIN", ObjCol [None]);
     (lit "QUANTITY", NumCol [Fin 10]);
     (lit "REALISED P/L", NumCol [Fin 0]);
     (lit "MARKET VALUE", NumCol [Fin 1000])].

(** The same with a numeric [PRICE]: nothing to warn about. *)
Definition frame_complete : DataFrame :=
  mkdf 1 ((lit "PRICE", NumCol [Fin 100]) :: columns frame_without_price).

(** A one-line snapshot without [SYMBOL] (a text column). *)
Definition frame_without_symbol : DataFrame :=
  mkdf 1
    [(lit "FINANCIAL TYPE", ObjCol [Some (lit "Equities")]);
     (lit "SECURITY NAME", ObjCol [Some (lit "ABC Corp")]);
     (lit "ISIN", ObjCol [Some (lit "US0000000001")]);
     (lit "PRICE", NumCol [Fin 100]);
     (lit "QUANTITY", NumCol [Fin 10]);
     (lit "REALISED P/L", NumCol [Fin 0]);
     (lit "MARKET VALUE", NumCol [Fin 1000])].

Definition read_error : exn := OtherError (lit "ParserError").

(** A folder with one unreadable file listed before one good file. *)
Definition folder_one_corrupt : FileSystem :=
  mkfs true
       [lit "Gohen_2022-01-31.csv"; lit "Leeder_2022-01-31.csv"]
       (fun file =>
          if str_eqb file (lit "Leeder_2022-01-31.csv")
          then Ok frame_complete else Raise read_error).

(** A folder with the single snapshot that lacks [PRICE]. *)
Definition folder_without_price : FileSystem :=
  mkfs true [lit "Leeder_2022-01-31.csv"] (fun _ => Ok frame_without_price).

(** The cell of a stored row under a column name. *)
Definition row_get (row : Row) (name : str) : option cell :=
  option_map snd (find (fun nc => str_eqb (fst nc) name) row).

(** Column names in frame order. *)
Definition column_names (df : DataFrame) : list str := map fst (columns df).

(** A two-line snapshot whose [PRICE] column was read as text. *)
Definition frame_text_price : DataFrame :=
  mkdf 2
    [(lit "FINANCIAL TYPE", ObjCol [Some (lit "Equities"); Some (lit "Equities")]);
     (lit "SYMBOL", ObjCol [Some (lit "ABC"); Some (lit "XYZ")]);
     (lit "SECURITY NAME", ObjCol [Some (lit "ABC Corp"); Some (lit "XYZ Corp")]);
     (lit "ISIN", ObjCol [None; None]);
     (lit "PRICE", ObjCol [Some (lit "12.5"); Some (lit "n/a")]);
     (lit "QUANTITY", NumCol [Fin 10; Fin 20]);
     (lit "REALISED P/L", NumCol [Fin 0; Fin 0]);
     (lit "MARKET VALUE", NumCol [Fin 125; NaN])].

(** A folder with one good snapshot and a file that is no CSV file. *)
Definition folder_one_good : FileSystem :=
  mkfs true [lit "Leeder_2022-01-31.csv"; lit "notes.txt"]
       (fun _ => Ok frame_complete).

(** Two holdings stored in the reverse of their chronological order. *)
Definition dated_holdings : list InvestmentFunds.Holding :=
  [InvestmentFunds.mkholding (Some (lit "Leeder")) (Some (lit "ABC")) None
                             (Fin 10) (Fin 1000) (Fin 0)
                             (Some (mkdate 2022 9 30));
   InvestmentFunds.mkholding (Some (lit "Gohen")) (Some (lit "ABC")) None
                             (Fin 11) (Fin 1100) (Fin 0)
                             (Some (mkdate 2022 8 31))].

(** Two funds with the same rate of return, 0.1, in the same period. *)
Definition tied_funds : list InvestmentFunds.Holding :=
  [position "Leeder" 100 0 (mkdate 2022 8 31);
   position "Leeder" 110 0 (mkdate 2022 9 30);
   position "Gohen" 50 0 (mkdate 2022 8 31);
   position "Gohen" 55 0 (mkdate 2022 9 30)].

End Spec.

(* ================================================================== *)
(** * Strings and the matcher *)
(* ================================================================== *)

Section StringFacts.
Import Py Spec.

Lemma code_inj (a b : ascii) : code a = code b -> a = b.
Proof.
  unfold code; intros H.
  rewrite <- (ascii_nat_embedding a), <- (ascii_nat_embedding b).
  now rewrite H.
Qed.

Lemma code_ascii_of_nat (n : nat) : n < 256 -> code (ascii_of_nat n) = n.
Proof. apply nat_ascii_embedding. Qed.

Lemma in_range_spec (lo hi c : ascii) :
  in_range lo hi c = true <-> code lo <= code c <= code hi.
Proof.
  unfold in_range.
  rewrite andb_true_iff, !Nat.leb_le. tauto.
Qed.

Lemma is_upper_spec (c : ascii) : is_upper c = true <-> 65 <= code c <= 90.
Proof. unfold is_upper. rewrite in_range_spec. reflexivity. Qed.

Lemma code_lower_char (c : ascii) :
  code (lower_char c) = if is_upper c then code c + 32 else code c.
Proof.
  unfold lower_char.
  destruct (is_upper c) eqn:U; [|reflexivity].
  apply is_upper_spec in U.
  apply code_ascii_of_nat. lia.
Qed.

Lemma lower_char_eq_iff (a b : ascii) :
  lower_char a = lower_char b <-> same_letter a b.
Proof.
  unfold same_letter. split.
  - intros H. apply (f_equal code) in H.
    rewrite !code_lower_char in H.
    destruct (is_upper a) eqn:Ua, (is_upper b) eqn:Ub.
    + left. apply code_inj. lia.
    + right; left. split; [reflexivity | lia].
    + right; right. split; [reflexivity | lia].
    + left. now apply code_inj.
  - intros [-> | [[U E] | [U E]]]; [reflexivity | |];
      apply code_inj; rewrite !code_lower_char, U.
    + pose proof (proj1 (is_upper_spec a) U).
      destruct (is_upper b) eqn:Ub; [|lia].
      apply is_upper_spec in Ub. lia.
    + pose proof (proj1 (is_upper_spec b) U).
      destruct (is_upper a) eqn:Ua; [|lia].
      apply is_upper_spec in Ua. lia.
Qed.

Lemma lower_eq_iff (a b : str) :
  lower a = lower b <-> Forall2 same_letter a b.
Proof.
  revert b. induction a as [|x a IH]; intros [|y b]; simpl.
  - split; constructor.
  - split; [discriminate | inversion 1].
  - split; [discriminate | inversion 1].
  - split.
    + intros H. injection H as Hx Ha.
      constructor; [now apply lower_char_eq_iff | now apply IH].
    + intros H. inversion H; subst.
      f_equal; [now apply lower_char_eq_iff | now apply IH].
Qed.

Lemma startswith_spec (x p : str) :
  startswith x p = true <-> exists suf, x = p ++ suf.
Proof.
  revert x. induction p as [|a p IH]; intros x.
  - split; [intros _; now exists x | intros _; now destruct x].
  - destruct x as [|b x]; simpl.
    + split; [discriminate | intros [suf H]; discriminate].
    + rewrite andb_true_iff, Ascii.eqb_eq, IH. split.
      * intros [-> [suf ->]]. now exists suf.
      * intros [suf H]. injection H as -> ->. split; [reflexivity | now exists suf].
Qed.

Lemma contains_spec (hay needle : str) :
  contains hay needle = true <->
  exists pre suf, hay = pre ++ needle ++ suf.
Proof.
  induction hay as [|c hay IH].
  - cbn [contains]. rewrite orb_false_r, startswith_spec. split.
    + intros [suf H]. now exists [], suf.
    + intros [pre [suf H]]. exists suf.
      destruct pre; [exact H | discriminate].
  - cbn [contains]. rewrite orb_true_iff, startswith_spec, IH. split.
    + intros [[suf H] | [pre [suf H]]].
      * now exists [], suf.
      * exists (c :: pre), suf. now rewrite H.
    + intros [[|c' pre] [suf H]].
      * left. now exists suf.
      * right. injection H as -> H. now exists pre, suf.
Qed.

(** The test of the roster loop is occurrence up to case. *)
Lemma contains_lower_iff (filename name : str) :
  contains (lower filename) (lower name) = true <-> occurs_ci name filename.
Proof.
  rewrite contains_spec. unfold occurs_ci, lower. split.
  - intros [pre [suf H]].
    apply map_eq_app in H as [pre' [rest [-> [Hpre H]]]].
    apply map_eq_app in H as [mid [suf' [-> [Hmid Hsuf]]]].
    exists pre', mid, suf'. split; [reflexivity|].
    apply lower_eq_iff. now symmetry.
  - intros [pre [mid [suf [-> H]]]].
    exists (map lower_char pre), (map lower_char suf).
    rewrite !map_app. do 2 f_equal.
    symmetry. now apply lower_eq_iff.
Qed.

Lemma find_first {A} (p : A -> bool) (l : list A) (x : A) :
  find p l = Some x ->
  exists l1 l2, l = l1 ++ x :: l2 /\ p x = true /\
                forall y, In y l1 -> p y = false.
Proof.
  induction l as [|a l IH]; simpl; [discriminate|].
  destruct (p a) eqn:Pa.
  - intros [= ->]. exists [], l. repeat split; [exact Pa | intros y []].
  - intros H. destruct (IH H) as [l1 [l2 [-> [Px Hl1]]]].
    exists (a :: l1), l2. repeat split; [exact Px|].
    intros y [<- | Hy]; [exact Pa | now apply Hl1].
Qed.

Lemma find_is_none {A} (p : A -> bool) (l : list A) :
  find p l = None <-> forall y, In y l -> p y = false.
Proof.
  split.
  - intros H y Hy. exact (find_none p l H y Hy).
  - induction l as [|a l IH]; simpl; [reflexivity|].
    intros H. rewrite (H a (or_introl eq_refl)).
    apply IH. intros y Hy. apply H. now right.
Qed.

End StringFacts.

Section MatcherFacts.
Import Py Spec.

Lemma rep_matches_sound (p : ascii -> bool) (hi lo : nat) (x m rest : str) :
  In (m, rest) (rep_matches p lo hi x) ->
  x = m ++ rest /\ Forall (fun c => p c = true) m /\
  lo <= List.length m <= hi.
Proof.
  assert (Stop : forall lo (x m rest : str),
             In (m, rest) (if lo =? 0 then [(@nil ascii, x)] else []) ->
             m = [] /\ rest = x /\ lo = 0).
  { intros lo0 x0 m0 rest0. destruct (lo0 =? 0) eqn:E; simpl; [|tauto].
    intros [[= <- <-] | []]. apply Nat.eqb_eq in E. auto. }
  revert lo x m rest. induction hi as [|hi IH]; intros lo x m rest; simpl.
  - intros H. apply Stop in H as (-> & -> & ->). simpl. auto.
  - destruct x as [|c x].
    + intros H. apply Stop in H as (-> & -> & ->). simpl.
      repeat split; auto with arith.
    + destruct (p c) eqn:Pc.
      * intros H. apply in_app_or in H as [H | H].
        -- apply in_map_iff in H as [[m' r'] [[= <- <-] H]].
           apply IH in H as (-> & Hall & Hlen). simpl.
           repeat split; [now constructor | lia | lia].
        -- apply Stop in H as (-> & -> & ->). simpl.
           repeat split; auto with arith.
      * intros H. apply Stop in H as (-> & -> & ->). simpl.
        repeat split; auto with arith.
Qed.

(** Every match is a prefix of the text, of a length within the bounds of
    the expression, made of characters some class of it admits. *)
Lemma rmatch_sound (r : regex) (x m rest : str) :
  In (m, rest) (rmatch r x) ->
  x = m ++ rest /\
  min_len r <= List.length m <= max_len r /\
  forall c, never_matches c r = true -> ~ In c m.
Proof.
  revert x m rest.
  induction r as [p | r1 IH1 r2 IH2 | r1 IH1 r2 IH2 | p lo hi];
    intros x m rest; simpl.
  - destruct x as [|c x]; [intros []|].
    destruct (p c) eqn:Pc; [|intros []].
    intros [[= <- <-] | []]. repeat split; auto.
    intros c0 N [<- | []]. now rewrite Pc in N.
  - intros H. apply in_flat_map in H as [[m1 x1] [H1 H]].
    apply in_map_iff in H as [[m2 x2] [[= <- <-] H2]]. simpl in *.
    apply IH1 in H1 as (-> & L1 & N1).
    apply IH2 in H2 as (-> & L2 & N2).
    rewrite length_app, <- app_assoc. repeat split; [lia | lia |].
    intros c N. apply andb_true_iff in N as [Na Nb].
    intros Hin. apply in_app_or in Hin as [Hin | Hin];
      [exact (N1 c Na Hin) | exact (N2 c Nb Hin)].
  - intros H. apply in_app_or in H as [H | H].
    + apply IH1 in H as (-> & L & N). repeat split; [lia | lia |].
      intros c Nc. apply andb_true_iff in Nc as [Na _]. now apply N.
    + apply IH2 in H as (-> & L & N). repeat split; [lia | lia |].
      intros c Nc. apply andb_true_iff in Nc as [_ Nb]. now apply N.
  - intros H. apply rep_matches_sound in H as (-> & Hall & L).
    repeat split; [lia | lia |].
    intros c N Hin. rewrite Forall_forall in Hall.
    rewrite (Hall c Hin) in N. discriminate.
Qed.

Lemma fmt_match_nil (x : str) (acc f : fields) (rest : str) :
  In (f, rest) (fmt_match [] x acc) -> f = acc /\ rest = x.
Proof. simpl. intros [[= <- <-] | []]. auto. Qed.

Lemma fmt_match_lit (c : ascii) (fmt : format) (x : str) (acc f : fields)
                    (rest : str) :
  In (f, rest) (fmt_match (FLit c :: fmt) x acc) ->
  exists x', x = c :: x' /\ In (f, rest) (fmt_match fmt x' acc).
Proof.
  simpl. destruct x as [|c' x]; [intros []|].
  destruct (Ascii.eqb c c') eqn:E; [|intros []].
  apply Ascii.eqb_eq in E as <-. intros H. now exists x.
Qed.

Lemma fmt_match_dir (d : directive) (fmt : format) (x : str)
                    (acc f : fields) (rest : str) :
  In (f, rest) (fmt_match (FDir d :: fmt) x acc) ->
  exists m x', x = m ++ x' /\ captured d m /\
               In (f, rest) (fmt_match fmt x' (set_field d m acc)).
Proof.
  simpl. intros H. apply in_flat_map in H as [[m x'] [Hm H]].
  apply rmatch_sound in Hm as (-> & L & N).
  exists m, x'. repeat split; try lia; [|exact H].
  apply N. now destruct d.
Qed.

Lemma strptime_sound (x : str) (fmt : format) (dt : date) :
  strptime x fmt = Some dt ->
  exists f, In (f, []) (fmt_match fmt x no_fields) /\
            dt = date_of_fields f /\ valid_date dt = true.
Proof.
  unfold strptime.
  destruct (fmt_match fmt x no_fields) as [|[f rest] l] eqn:E;
    [discriminate|].
  destruct rest; [|discriminate].
  fold (date_of_fields f).
  destruct (valid_date (date_of_fields f)) eqn:V; [|discriminate].
  intros [= <-]. exists f. repeat split; [now left | exact V].
Qed.

(** Shape of a text that a three-field hyphenated layout parses. *)
Lemma strptime_delimited (d1 d2 d3 : directive) (x : str) (dt : date) :
  strptime x [FDir d1; FLit "-"; FDir d2; FLit "-"; FDir d3] = Some dt ->
  exists a b c,
    x = a ++ "-"%char :: b ++ "-"%char :: c /\
    captured d1 a /\ captured d2 b /\ captured d3 c /\
    dt = date_of_fields
           (set_field d3 c (set_field d2 b (set_field d1 a no_fields))) /\
    valid_date dt = true.
Proof.
  intros H. apply strptime_sound in H as (f & H & -> & V).
  apply fmt_match_dir in H as (a & x1 & -> & Ca & H).
  apply fmt_match_lit in H as (x2 & -> & H).
  apply fmt_match_dir in H as (b & x3 & -> & Cb & H).
  apply fmt_match_lit in H as (x4 & -> & H).
  apply fmt_match_dir in H as (c & x5 & -> & Cc & H).
  apply fmt_match_nil in H as [-> <-].
  exists a, b, c. rewrite app_nil_r. auto 10.
Qed.

(** A text that the compact layout parses has no hyphen. *)
Lemma strptime_compact (x : str) (dt : date) :
  strptime x [FDir Dir_Y; FDir Dir_m; FDir Dir_d] = Some dt ->
  ~ In "-"%char x.
Proof.
  intros H. apply strptime_sound in H as (f & H & _ & _).
  apply fmt_match_dir in H as (a & x1 & -> & [Na _] & H).
  apply fmt_match_dir in H as (b & x2 & -> & [Nb _] & H).
  apply fmt_match_dir in H as (c & x3 & -> & [Nc _] & H).
  apply fmt_match_nil in H as [_ <-].
  rewrite !in_app_iff. simpl. tauto.
Qed.

Lemma split_unique {A} (c : A) (a a' r r' : list A) :
  a ++ c :: r = a' ++ c :: r' -> ~ In c a -> ~ In c a' ->
  a = a' /\ r = r'.
Proof.
  revert a'. induction a as [|y a IH]; intros [|y' a']; simpl.
  - intros [= ->]. auto.
  - intros [= <- _] _ N. tauto.
  - intros [= -> _] N _. tauto.
  - intros [= -> H] N N'.
    destruct (IH a' H) as [-> ->]; tauto.
Qed.

Lemma valid_date_bounds (dt : date) :
  valid_date dt = true ->
  1 <= year dt <= 9999 /\ 1 <= month dt <= 12 /\
  1 <= day dt <= days_in_month (year dt) (month dt).
Proof.
  unfold valid_date. rewrite !andb_true_iff, !Nat.leb_le. tauto.
Qed.

End MatcherFacts.

(* ================================================================== *)
(** * [parse_filename] *)
(* ================================================================== *)

Section ParseFilename.
Import Py Spec InvestmentFunds.

Lemma delimited_not_compact (d1 d2 d3 : directive) (x : str) (dt dt' : date) :
  strptime x [FDir d1; FLit "-"; FDir d2; FLit "-"; FDir d3] = Some dt ->
  strptime x fmt_compact = Some dt' -> False.
Proof.
  intros H H'. apply strptime_compact in H'.
  apply strptime_delimited in H as (a & b & c & -> & _).
  apply H'. rewrite in_app_iff. right. now left.
Qed.

(** Two hyphenated layouts that parse one text captured the same first
    field. *)
Lemma delimited_same_first_field (d1 d2 d3 e1 e2 e3 : directive)
                                 (x : str) (dt dt' : date) :
  strptime x [FDir d1; FLit "-"; FDir d2; FLit "-"; FDir d3] = Some dt ->
  strptime x [FDir e1; FLit "-"; FDir e2; FLit "-"; FDir e3] = Some dt' ->
  exists a b c b' c',
    captured d1 a /\ captured e1 a /\
    dt = date_of_fields
           (set_field d3 c (set_field d2 b (set_field d1 a no_fields))) /\
    dt' = date_of_fields
            (set_field e3 c' (set_field e2 b' (set_field e1 a no_fields))) /\
    valid_date dt = true /\ valid_date dt' = true.
Proof.
  intros H H'.
  apply strptime_delimited in H as (a & b & c & -> & Ca & _ & _ & -> & V).
  apply strptime_delimited in H' as (a' & b' & c' & E & Ca' & _ & _ & -> & V').
  apply split_unique in E as [-> _]; [| apply Ca | apply Ca'].
  exists a', b, c, b', c'. auto 10.
Qed.

Lemma dmy_not_mdy (x : str) (dt dt' : date) :
  accepts x fmt_dmy dt -> accepts x fmt_mdy dt' -> False.
Proof.
  intros [H D] [H' _].
  destruct (delimited_same_first_field _ _ _ _ _ _ _ H H')
    as (a & b & c & b' & c' & _ & _ & -> & -> & _ & V').
  apply valid_date_bounds in V'. simpl in *. lia.
Qed.

Lemma short_first_not_ymd (d1 d2 d3 : directive) (x : str) (dt dt' : date) :
  d1 <> Dir_Y ->
  strptime x [FDir d1; FLit "-"; FDir d2; FLit "-"; FDir d3] = Some dt ->
  strptime x fmt_ymd = Some dt' -> False.
Proof.
  intros N H H'.
  destruct (delimited_same_first_field _ _ _ _ _ _ _ H H')
    as (a & _ & _ & _ & _ & [_ L] & [_ L'] & _).
  destruct d1; simpl in *; try lia. now apply N.
Qed.

(** At most one of the four layouts accepts a text. *)
Lemma accepts_unique (clean : str) (fmt1 fmt2 : format) (dt1 dt2 : date) :
  In fmt1 formats -> In fmt2 formats ->
  accepts clean fmt1 dt1 -> accepts clean fmt2 dt2 ->
  fmt1 = fmt2 /\ dt1 = dt2.
Proof.
  assert (Same : forall fmt, accepts clean fmt dt1 -> accepts clean fmt dt2 ->
                             fmt = fmt /\ dt1 = dt2).
  { intros fmt [H _] [H' _]. split; congruence. }
  unfold formats. simpl.
  intros [<- | [<- | [<- | [<- | []]]]] [<- | [<- | [<- | [<- | []]]]] A1 A2;
    try (now apply Same); exfalso;
    try solve [eapply dmy_not_mdy; eassumption];
    destruct A1 as [A1 _], A2 as [A2 _];
    unfold fmt_dmy, fmt_mdy, fmt_ymd in *;
    try solve [eapply delimited_not_compact; eassumption];
    solve [ refine (@short_first_not_ymd _ _ _ _ _ _ _ A1 A2); discriminate
          | refine (@short_first_not_ymd _ _ _ _ _ _ _ A2 A1); discriminate ].
Qed.

(** The loop returns the first layout, in order, that accepts. *)
Lemma first_accepted_sound (clean : str) (fmts : list format) (dt : date) :
  first_accepted clean fmts = Some dt ->
  exists earlier fmt later,
    fmts = earlier ++ fmt :: later /\ accepts clean fmt dt /\
    forall f d, In f earlier -> ~ accepts clean f d.
Proof.
  induction fmts as [|fmt fmts IH]; cbn [first_accepted]; [discriminate|].
  destruct (strptime clean fmt) as [d0|] eqn:P.
  - destruct (28 <=? day d0) eqn:D.
    + intros [= ->]. apply Nat.leb_le in D.
      exists [], fmt, fmts.
      split; [reflexivity | split; [now split | intros f d []]].
    + intros H. destruct (IH H) as (earlier & f1 & later & -> & A & N).
      exists (fmt :: earlier), f1, later.
      split; [reflexivity | split; [exact A|]].
      intros f d [<- | Hf]; [|now apply N].
      intros [P' D']. rewrite P in P'. injection P' as <-.
      apply Nat.leb_gt in D. lia.
  - intros H. destruct (IH H) as (earlier & f1 & later & -> & A & N).
    exists (fmt :: earlier), f1, later.
    split; [reflexivity | split; [exact A|]].
    intros f d [<- | Hf]; [|now apply N].
    intros [P' _]. congruence.
Qed.

Lemma first_accepted_complete (clean : str) (fmts : list format)
                              (fmt : format) (dt : date) :
  In fmt fmts -> accepts clean fmt dt ->
  exists dt', first_accepted clean fmts = Some dt'.
Proof.
  induction fmts as [|f fmts IH]; cbn [first_accepted In]; [intros []|].
  intros Hin A.
  destruct (strptime clean f) as [d0|] eqn:P.
  - destruct (28 <=? day d0) eqn:D; [now exists d0|].
    destruct Hin as [-> | Hin]; [|now apply IH].
    destruct A as [P' D']. rewrite P in P'. injection P' as <-.
    apply Nat.leb_gt in D. lia.
  - destruct Hin as [-> | Hin]; [|now apply IH].
    destruct A as [P' _]. congruence.
Qed.

Lemma first_accepted_none (clean : str) (fmts : list format) :
  (forall fmt dt, In fmt fmts -> strptime clean fmt = Some dt -> day dt < 28) ->
  first_accepted clean fmts = None.
Proof.
  intros H. destruct (first_accepted clean fmts) as [dt|] eqn:E; [|reflexivity].
  apply first_accepted_sound in E as (earlier & fmt & later & -> & [P D] & _).
  specialize (H fmt dt (in_elt fmt earlier later) P). lia.
Qed.

Lemma parse_filename_fund (filename : str) :
  fst (parse_filename filename) = find_fund_name filename.
Proof.
  unfold parse_filename.
  now destruct (re_search date_pattern filename).
Qed.

Lemma parse_filename_date (filename : str) :
  snd (parse_filename filename) =
  match re_search date_pattern filename with
  | Some raw => standardize_date (sub_non_digits raw)
  | None => None
  end.
Proof.
  unfold parse_filename.
  now destruct (re_search date_pattern filename).
Qed.

Lemma find_fund_name_some (filename name : str) :
  find_fund_name filename = Some name ->
  first_roster_match fund_names name filename.
Proof.
  intros H. apply find_first in H as (l1 & l2 & E & P & N).
  exists l1, l2. repeat split; [exact E | now apply contains_lower_iff |].
  intros other Hin O. apply contains_lower_iff in O.
  rewrite (N other Hin) in O. discriminate.
Qed.

Lemma find_fund_name_none (filename : str) :
  find_fund_name filename = None <->
  forall name, In name fund_names -> ~ occurs_ci name filename.
Proof.
  unfold find_fund_name. rewrite find_is_none. split.
  - intros H name Hin O. apply contains_lower_iff in O.
    rewrite (H name Hin) in O. discriminate.
  - intros H name Hin.
    destruct (contains (lower filename) (lower name)) eqn:E; [|reflexivity].
    apply contains_lower_iff in E. now destruct (H name Hin).
Qed.

End ParseFilename.

Section ParseFilenameClaims.
Import Py Spec InvestmentFunds.

(** C1. For every file name with a date token, [parse_filename] returns a
    date exactly when one of the four layouts, tried in order
    (day-month-year, month-day-year, year-month-day, compact), parses the
    normalized token with a day of month of at least 28; the date returned
    is the one of the first such layout, printed month/day/year; when every
    successful parse has a day below 28 the result is [None], as it is for
    a file name without a token; and no text is accepted by two layouts. *)
Theorem C1_date_layouts :
  (forall filename raw,
      re_search date_pattern filename = Some raw ->
      let clean := sub_non_digits raw in
      (forall s, snd (parse_filename filename) = Some s <->
                 exists fmt dt, In fmt formats /\ accepts clean fmt dt /\
                                s = report_date_string dt) /\
      (forall s, snd (parse_filename filename) = Some s ->
                 exists earlier fmt later dt,
                   formats = earlier ++ fmt :: later /\
                   accepts clean fmt dt /\ s = report_date_string dt /\
                   forall f d, In f earlier -> ~ accepts clean f d) /\
      ((forall fmt dt, In fmt formats -> strptime clean fmt = Some dt ->
                       day dt < 28) ->
       snd (parse_filename filename) = None)) /\
  (forall filename,
      re_search date_pattern filename = None ->
      snd (parse_filename filename) = None) /\
  (forall clean fmt1 fmt2 dt1 dt2,
      In fmt1 formats -> In fmt2 formats ->
      accepts clean fmt1 dt1 -> accepts clean fmt2 dt2 ->
      fmt1 = fmt2 /\ dt1 = dt2).
Proof.
  split; [|split; [|exact accepts_unique]].
  2:{ intros filename R. now rewrite parse_filename_date, R. }
  intros filename raw R clean.
  rewrite parse_filename_date, R. fold clean. unfold standardize_date.
  assert (Fwd : forall s,
             option_map report_date_string (first_accepted clean formats)
             = Some s ->
             exists earlier fmt later dt,
               formats = earlier ++ fmt :: later /\
               accepts clean fmt dt /\ s = report_date_string dt /\
               forall f d, In f earlier -> ~ accepts clean f d).
  { intros s H.
    destruct (first_accepted clean formats) as [dt|] eqn:E; [|discriminate].
    injection H as <-.
    apply first_accepted_sound in E as (earlier & fmt & later & E & A & N).
    exists earlier, fmt, later, dt. auto. }
  split; [|split].
  - intros s. split.
    + intros H. destruct (Fwd s H) as (earlier & fmt & later & dt & E & A & -> & _).
      exists fmt, dt. repeat split; try apply A.
      rewrite E. apply in_elt.
    + intros (fmt & dt & Hin & A & ->).
      destruct (@first_accepted_complete clean formats fmt dt Hin A) as [dt' E].
      rewrite E. simpl.
      apply first_accepted_sound in E as (earlier & fmt' & later & E & A' & _).
      assert (Hin' : In fmt' formats) by (rewrite E; apply in_elt).
      destruct (@accepts_unique clean fmt' fmt dt' dt Hin' Hin A' A) as [_ ->].
      reflexivity.
  - exact Fwd.
  - intros H. now rewrite (@first_accepted_none clean formats H).
Qed.

Lemma C1_date_layouts_witness :
  re_search date_pattern (lit "Belaware_31_08_2022.csv")
  = Some (lit "31_08_2022") /\
  exists fmt dt,
    In fmt formats /\ accepts (lit "31-08-2022") fmt dt /\
    lit "8/31/2022" = report_date_string dt.
Proof.
  split; [reflexivity|].
  apply (proj1 (proj1 (proj1 C1_date_layouts
                         (lit "Belaware_31_08_2022.csv") (lit "31_08_2022")
                         eq_refl)
                      (lit "8/31/2022"))).
  reflexivity.
Defined.

(** C9. A file name in which some roster fund name occurs as a
    case-insensitive substring yields a roster name, in the roster's own
    casing: the first roster entry that occurs in it.  The file name
    2022-12-31_Whitestone_Position.csv yields Whitestone. *)
Theorem C9_fund_name_first_roster_match :
  (forall filename,
      (exists name, In name fund_names /\ occurs_ci name filename) ->
      exists name,
        fst (parse_filename filename) = Some name /\
        In name fund_names /\
        first_roster_match fund_names name filename) /\
  fst (parse_filename (lit "2022-12-31_Whitestone_Position.csv"))
  = Some (lit "Whitestone").
Proof.
  split; [|reflexivity].
  intros filename (name & Hin & O).
  rewrite parse_filename_fund.
  destruct (find_fund_name filename) as [found|] eqn:E.
  - exists found. split; [reflexivity|].
    pose proof (@find_fund_name_some filename found E) as M.
    split; [|exact M].
    destruct M as (l1 & l2 & -> & _). apply in_elt.
  - exfalso. exact (proj1 (find_fund_name_none filename) E name Hin O).
Qed.

Lemma C9_fund_name_first_roster_match_witness :
  exists name,
    fst (parse_filename (lit "belaware_WHITESTONE_31.08.2022.csv"))
    = Some name /\
    In name fund_names /\
    first_roster_match fund_names name
      (lit "belaware_WHITESTONE_31.08.2022.csv").
Proof.
  apply (proj1 C9_fund_name_first_roster_match).
  exists (lit "Belaware"). split; [simpl; tauto|].
  exists [], (lit "belaware"), (lit "_WHITESTONE_31.08.2022.csv").
  split; [reflexivity|].
  constructor; [right; left; split; reflexivity|].
  repeat (constructor; [left; reflexivity|]). constructor.
Defined.

(** The method of the class is total: no roster name in the file name
    gives fund name [None], no date token gives report date [None]. *)
Lemma parse_filename_unknown :
  (forall filename,
      (forall name, In name fund_names -> ~ occurs_ci name filename) ->
      fst (parse_filename filename) = None) /\
  (forall filename,
      re_search date_pattern filename = None ->
      snd (parse_filename filename) = None).
Proof.
  split.
  - intros filename H. rewrite parse_filename_fund.
    now apply find_fund_name_none.
  - intros filename H. now rewrite parse_filename_date, H.
Qed.

(** The function of the same name in [orig_file.py] raises where the
    method returns [None]. *)
Lemma orig_parse_filename_raises :
  (forall filename,
      re_search date_pattern filename = None ->
      OrigFile.parse_filename filename = Raise AttributeError) /\
  (forall filename,
      (forall name, In name fund_names -> ~ occurs_ci name filename) ->
      exists e, OrigFile.parse_filename filename = Raise e).
Proof.
  split.
  - intros filename H. unfold OrigFile.parse_filename. now rewrite H.
  - intros filename H. apply find_fund_name_none in H.
    unfold OrigFile.parse_filename, OrigFile.fund_names.
    unfold find_fund_name in H. rewrite H.
    destruct (re_search date_pattern filename); eauto.
Qed.

(** C8.  On a file name without a date token and on one without a roster
    name, the method of the class returns [None] for the missing part,
    as claimed, while [parse_filename] of [orig_file.py] raises:
    [AttributeError] from [match.group(0)] on [None], and
    [UnboundLocalError] for its local [fund_name]. *)
Theorem C8_orig_parse_filename_not_total :
  parse_filename (lit "Whitestone_report.csv")
  = (Some (lit "Whitestone"), None) /\
  parse_filename (lit "2022-12-31_Position.csv")
  = (None, Some (lit "12/31/2022")) /\
  parse_filename (lit "notes.csv") = (None, None) /\
  OrigFile.parse_filename (lit "Whitestone_report.csv")
  = Raise AttributeError /\
  OrigFile.parse_filename (lit "2022-12-31_Position.csv")
  = Raise (UnboundLocalError (lit "fund_name")) /\
  OrigFile.parse_filename (lit "notes.csv") = Raise AttributeError.
Proof. repeat split. Qed.

End ParseFilenameClaims.

(* ================================================================== *)
(** * Validation and ingestion *)
(* ================================================================== *)

Section EffectFacts.
Import Py Pd Effects Spec.

Lemma effect_ret {A} (a : A) : effect (ret a) (Ok a) [] [].
Proof. intros [st lg]. unfold ret. simpl. now rewrite !app_nil_r. Qed.

Lemma effect_lift {A} (r : result A) : effect (lift r) r [] [].
Proof. intros [st lg]. unfold lift. simpl. now rewrite !app_nil_r. Qed.

Lemma effect_logging (e : log_entry) : effect (logging e) (Ok tt) [] [e].
Proof. intros [st lg]. unfold logging. simpl. now rewrite !app_nil_r. Qed.

Lemma effect_bind_ok {A B} (c : M A) (k : A -> M B) (a : A)
      (rows rows' : list Row) (l l' : list log_entry) (r : result B) :
  effect c (Ok a) rows l -> effect (k a) r rows' l' ->
  effect (bind c k) r (rows ++ rows') (l ++ l').
Proof.
  intros Hc Hk w. unfold bind. rewrite Hc, Hk. simpl.
  now rewrite !app_assoc.
Qed.

Lemma effect_bind_raise {A B} (c : M A) (k : A -> M B) (e : exn)
      (rows : list Row) (l : list log_entry) :
  effect c (Raise e) rows l -> effect (bind c k) (Raise e) rows l.
Proof. intros Hc w. unfold bind. now rewrite Hc. Qed.

Lemma effect_at_empty {A} (c : M A) (r : result A) (rows : list Row)
      (l : list log_entry) :
  effect c r rows l -> c empty_world = (r, mkworld rows l).
Proof. intros H. now rewrite H. Qed.

End EffectFacts.

Section ValidationFacts.
Import Py Pd Effects Spec InvestmentFunds.
Variable parse_float : str -> float.

Lemma str_eqb_eq (a b : str) : str_eqb a b = true <-> a = b.
Proof.
  revert b. induction a as [|x a IH]; intros [|y b]; simpl;
    try (split; [discriminate | discriminate]); [tauto|].
  rewrite andb_true_iff, Ascii.eqb_eq, IH. split.
  - intros [-> ->]. reflexivity.
  - intros [= -> ->]. auto.
Qed.

Lemma getitem_ok (df : DataFrame) (name : str) :
  has_column df name = true -> exists c, getitem df name = Ok c.
Proof.
  unfold has_column, getitem. intros H.
  apply existsb_exists in H as (nc & Hin & E).
  destruct (find (fun nc => str_eqb (fst nc) name) (columns df)) as [nc'|] eqn:F.
  - now exists (snd nc').
  - rewrite (find_none _ _ F nc Hin) in E. discriminate.
Qed.

Lemma getitem_missing (df : DataFrame) (name : str) :
  has_column df name = false -> getitem df name = Raise (KeyError name).
Proof.
  unfold has_column, getitem. intros H.
  destruct (find (fun nc => str_eqb (fst nc) name) (columns df)) as [nc'|] eqn:F;
    [|reflexivity].
  apply find_some in F as [Hin E].
  assert (X : existsb (fun nc => str_eqb (fst nc) name) (columns df) = true)
    by (apply existsb_exists; now exists nc').
  congruence.
Qed.

Lemma has_column_replace (name name' : str) (c : column)
                         (cols : list (str * column)) :
  existsb (fun nc => str_eqb (fst nc) name') (replace_column name c cols)
  = existsb (fun nc => str_eqb (fst nc) name') cols || str_eqb name name'.
Proof.
  induction cols as [|nc cols IH]; simpl.
  - now rewrite orb_false_r.
  - destruct (str_eqb (fst nc) name) eqn:E; simpl.
    + apply str_eqb_eq in E. rewrite E.
      destruct (str_eqb name name'); simpl; [reflexivity|].
      now rewrite orb_false_r.
    + rewrite IH. now rewrite orb_assoc.
Qed.

Lemma has_column_setitem (df : DataFrame) (name name' : str) (c : column) :
  has_column (setitem df name c) name'
  = has_column df name' || str_eqb name name'.
Proof. apply has_column_replace. Qed.

(** The loop over the numeric columns only writes log lines; it raises
    exactly when one of the columns is missing. *)
Lemma coerce_numeric_cols_effect (filename : str) (cols : list str) :
  forall df,
    exists r l,
      effect (coerce_numeric_cols parse_float filename cols df) r [] l /\
      ((forall col, In col cols -> has_column df col = true) ->
       exists df', r = Ok df' /\
                   forall col, has_column df col = true ->
                               has_column df' col = true) /\
      (forall col, In col cols -> has_column df col = false ->
                   exists col', In col' cols /\ r = Raise (KeyError col')).
Proof.
  induction cols as [|col cols IH]; intros df; cbn [coerce_numeric_cols].
  - exists (Ok df), []. split; [apply effect_ret|]. split.
    + intros _. now exists df.
    + intros col [].
  - destruct (has_column df col) eqn:Hc.
    + destruct (getitem_ok _ _ Hc) as [c Gc].
      destruct (is_numeric_dtype c) eqn:Nc.
      * destruct (IH df) as (r & l & E & Hok & Hbad).
        exists r, l. split; [|split].
        -- intros w. unfold bind, lift. rewrite Gc, Nc. apply E.
        -- intros Hall. apply Hok. intros c0 H0. apply Hall. now right.
        -- intros c0 [<- | H0] Hmiss; [congruence|].
           destruct (Hbad c0 H0 Hmiss) as (c1 & H1 & ->).
           exists c1. split; [now right | reflexivity].
      * destruct (IH (setitem df col (to_numeric parse_float c)))
          as (r & l & E & Hok & Hbad).
        exists r, (WarnNotNumeric col filename :: l). split; [|split].
        -- intros w. unfold bind, lift. rewrite Gc, Nc.
           unfold logging. rewrite E. simpl.
           now rewrite <- app_assoc.
        -- intros Hall.
           destruct Hok as (df' & -> & Hkeep).
           { intros c0 H0. rewrite has_column_setitem, Hall; [reflexivity|].
             now right. }
           exists df'. split; [reflexivity|].
           intros c0 H0. apply Hkeep.
           now rewrite has_column_setitem, H0.
        -- intros c0 [<- | H0] Hmiss; [congruence|].
           destruct (str_eqb col c0) eqn:Ec.
           ++ apply str_eqb_eq in Ec. congruence.
           ++ destruct (Hbad c0 H0) as (c1 & H1 & ->).
              { now rewrite has_column_setitem, Hmiss, Ec. }
              exists c1. split; [now right | reflexivity].
    + exists (Raise (KeyError col)), []. split; [|split].
      * intros w. unfold bind, lift. rewrite (getitem_missing _ _ Hc).
        destruct w; simpl. now rewrite !app_nil_r.
      * intros Hall. rewrite Hall in Hc; [discriminate | now left].
      * intros _ _ _. exists col. split; [now left | reflexivity].
Qed.

End ValidationFacts.

Section ValidateDataframe.
Import Py Pd Effects Spec InvestmentFunds.
Variable parse_float : str -> float.

(** What [validate_dataframe] does, whatever the world: it only writes log
    lines; it returns [True] when the four numeric columns are there and
    raises [KeyError] when one of them is missing; a missing required
    column is reported in a warning first. *)
Lemma validate_dataframe_effect (df : DataFrame) (fund_name : option str)
                                (filename : str) :
  exists r l,
    effect (validate_dataframe parse_float df fund_name filename) r [] l /\
    ((forall col, In col numeric_cols -> has_column df col = true) ->
     exists df', r = Ok (true, df')) /\
    (forall col, In col numeric_cols -> has_column df col = false ->
                 exists col', In col' numeric_cols /\
                              r = Raise (KeyError col')) /\
    (forall v df', r = Ok (v, df') -> v = true) /\
    (forall col, In col fund_cols -> has_column df col = false ->
                 exists missing,
                   In col missing /\
                   In (WarnMissingColumns filename fund_name missing) l).
Proof.
  unfold validate_dataframe.
  remember (filter (fun col => negb (has_column df col)) fund_cols)
    as missing eqn:M.
  assert (E0 : exists l0,
             effect (match missing with
                     | [] => ret tt
                     | _ :: _ =>
                         logging (WarnMissingColumns filename fund_name missing)
                     end) (Ok tt) [] l0 /\
             (missing <> [] ->
              In (WarnMissingColumns filename fund_name missing) l0)).
  { destruct missing as [|m0 ms].
    - exists []. split; [apply effect_ret | congruence].
    - eexists. split; [apply effect_logging | intros _; now left]. }
  destruct E0 as (l0 & E0 & W0).
  assert (Wmiss : forall col, In col fund_cols -> has_column df col = false ->
                  exists missing',
                    In col missing' /\
                    forall l', In (WarnMissingColumns filename fund_name missing')
                                  (l0 ++ l')).
  { intros col Hin Hc. exists missing. split.
    - rewrite M. apply filter_In. now rewrite Hc.
    - intros l'. apply in_or_app. left. apply W0.
      intros Hnil. assert (Hm : In col missing)
        by (rewrite M; apply filter_In; now rewrite Hc).
      rewrite Hnil in Hm. destruct Hm. }
  destruct (coerce_numeric_cols_effect parse_float filename numeric_cols df)
    as (r1 & l1 & E1 & Hok & Hbad).
  destruct (forallb (has_column df) numeric_cols) eqn:F.
  - (* the numeric columns are there *)
    assert (Hall : forall col, In col numeric_cols -> has_column df col = true)
      by (now apply forallb_forall).
    destruct (Hok Hall) as (df' & -> & Hkeep).
    assert (Hp : has_column df' (lit "PRICE") = true).
    { apply Hkeep, Hall. simpl. tauto. }
    destruct (getitem_ok _ _ Hp) as [price Gp].
    assert (E2 : exists l2,
               effect (if column_has_null price
                       then logging (WarnNullPrices filename) else ret tt)
                      (Ok tt) [] l2).
    { destruct (column_has_null price); eexists;
        [apply effect_logging | apply effect_ret]. }
    destruct E2 as (l2 & E2).
    exists (Ok (true, df')), (l0 ++ l1 ++ [] ++ l2 ++ []).
    split; [|split; [|split; [|split]]].
    + change (@nil Row) with (@nil Row ++ ([] ++ ([] ++ ([] ++ [])))).
      eapply effect_bind_ok; [exact E0|].
      eapply effect_bind_ok; [exact E1|].
      eapply effect_bind_ok; [rewrite <- Gp; apply effect_lift|].
      eapply effect_bind_ok; [exact E2 | apply effect_ret].
    + intros _. now exists df'.
    + intros col Hin Hc. rewrite (Hall col Hin) in Hc. discriminate.
    + now intros v df'' [= -> _].
    + intros col Hin Hc. destruct (Wmiss col Hin Hc) as (m' & Hm & Hl).
      exists m'. auto.
  - (* one of them is missing *)
    assert (Hex : exists col, In col numeric_cols /\ has_column df col = false).
    { apply not_true_iff_false in F.
      destruct (existsb (fun c => negb (has_column df c)) numeric_cols) eqn:X.
      - apply existsb_exists in X as (c & Hin & Hc).
        exists c. split; [exact Hin|]. now destruct (has_column df c).
      - exfalso. apply F. apply forallb_forall. intros c Hin.
        destruct (has_column df c) eqn:Hc; [reflexivity|].
        assert (Y : existsb (fun c => negb (has_column df c)) numeric_cols = true)
          by (apply existsb_exists; exists c; now rewrite Hc).
        congruence. }
    destruct Hex as (col & Hin & Hc).
    destruct (Hbad col Hin Hc) as (col' & Hin' & ->).
    exists (Raise (KeyError col')), (l0 ++ l1).
    split; [|split; [|split; [|split]]].
    + change (@nil Row) with (@nil Row ++ []).
      eapply effect_bind_ok; [exact E0|].
      now apply effect_bind_raise.
    + intros Hall. rewrite (Hall col Hin) in Hc. discriminate.
    + intros _ _ _. now exists col'.
    + discriminate.
    + intros c0 Hin0 Hc0. destruct (Wmiss c0 Hin0 Hc0) as (m' & Hm & Hl).
      exists m'. auto.
Qed.

End ValidateDataframe.

Section IngestCsv.
Import Py Pd Effects Spec InvestmentFunds.
Variable parse_float : str -> float.
Variable fs : FileSystem.

Lemma to_sql_effect (df : DataFrame) :
  (exists e, effect (to_sql df) (Raise e) [] []) \/
  effect (to_sql df) (Ok tt) (table_rows df) [].
Proof.
  unfold to_sql, table_rows. destruct (nrows df) as [|n]; cbn [Nat.eqb].
  - right. intros [st lg]. simpl. now rewrite !app_nil_r.
  - destruct (find (fun nc => negb (table_has_column (fst nc))) (columns df)).
    + left. eexists. intros [st lg]. simpl. now rewrite !app_nil_r.
    + right. intros [st lg]. simpl. now rewrite app_nil_r.
Qed.

(** One file: a result, rows and log lines that do not depend on the
    world; a file that raises leaves no row. *)
Lemma process_file_effect (file : str) :
  exists r rows l,
    effect (process_file parse_float fs file) r rows l /\
    (forall e, r = Raise e -> rows = []).
Proof.
  unfold process_file. destruct (parse_filename file) as [fund_name report_date].
  destruct (read_csv fs file) as [df | e] eqn:R.
  - destruct (validate_dataframe_effect parse_float df fund_name file)
      as (r & l & E & _ & _ & Htrue & _).
    destruct r as [[v df'] | e].
    + rewrite (Htrue v df' eq_refl) in E.
      set (df2 := setitem_scalar
                    (setitem_scalar df' (lit "FUND NAME") fund_name)
                    (lit "REPORT DATE") report_date).
      destruct (to_sql_effect df2) as [[e Es] | Es].
      * exists (Raise e), ([] ++ [] ++ []), ([] ++ l ++ []). split; [|reflexivity].
        eapply effect_bind_ok; [apply effect_lift|].
        eapply effect_bind_ok; [exact E|].
        cbv beta iota. cbn [negb]. fold df2.
        now apply effect_bind_raise.
      * exists (Ok tt), ([] ++ [] ++ table_rows df2 ++ []),
               ([] ++ l ++ [] ++ [InfoIngested (nrows df2) fund_name]).
        split; [|discriminate].
        eapply effect_bind_ok; [apply effect_lift|].
        eapply effect_bind_ok; [exact E|].
        cbv beta iota. cbn [negb]. fold df2.
        eapply effect_bind_ok; [exact Es | apply effect_logging].
    + exists (Raise e), ([] ++ []), ([] ++ l). split; [|reflexivity].
      eapply effect_bind_ok; [apply effect_lift|].
      now apply effect_bind_raise.
  - exists (Raise e), [], []. split; [|reflexivity].
    apply effect_bind_raise, effect_lift.
Qed.

Lemma file_rows_effect (file : str) (r : result unit) (rows : list Row)
                       (l : list log_entry) :
  effect (process_file parse_float fs file) r rows l ->
  (forall e, r = Raise e -> rows = []) ->
  file_rows parse_float fs file = rows.
Proof.
  intros E Hr. unfold file_rows. rewrite (effect_at_empty E).
  destruct r as [u | e]; [reflexivity|]. symmetry. now apply (Hr e).
Qed.

(** The guarded body never raises; it appends the rows of the file and,
    for a file that raises, an error line naming it. *)
Lemma process_file_guarded_effect (file : str) :
  exists l,
    effect (process_file_guarded parse_float fs file) (Ok tt)
           (file_rows parse_float fs file) l /\
    (corrupt parse_float fs file ->
     exists e, In (ErrorFailedToProcess file e) l).
Proof.
  destruct (process_file_effect file) as (r & rows & l & E & Hr).
  rewrite (@file_rows_effect file r rows l E Hr).
  unfold process_file_guarded, try_except.
  destruct r as [[] | e].
  - exists l. split.
    + intros w. now rewrite E.
    + intros [e He]. unfold corrupt in He.
      rewrite (effect_at_empty E) in He. discriminate.
  - exists (l ++ [ErrorFailedToProcess file e]). split.
    + intros w. rewrite E. unfold logging. simpl.
      rewrite (Hr e eq_refl), !app_nil_r, <- app_assoc. reflexivity.
    + intros _. exists e. apply in_or_app. right. now left.
Qed.

Lemma for_each_guarded_effect (files : list str) :
  exists l,
    effect (for_each (process_file_guarded parse_float fs) files) (Ok tt)
           (flat_map (file_rows parse_float fs) files) l /\
    (forall file, In file files -> corrupt parse_float fs file ->
                  exists e, In (ErrorFailedToProcess file e) l).
Proof.
  induction files as [|file files (l' & E' & L')]; cbn [for_each flat_map].
  - exists []. split; [apply effect_ret | intros file []].
  - destruct (process_file_guarded_effect file) as (l & E & L).
    exists (l ++ l'). split.
    + exact (effect_bind_ok _ E E').
    + intros f [<- | Hin] C.
      * destruct (L C) as [e He]. exists e. apply in_or_app. now left.
      * destruct (L' f Hin C) as [e He]. exists e. apply in_or_app. now right.
Qed.

(** Ingestion with the guard: the run ends normally, the store holds the
    rows of the files that did not raise, in directory order, and every
    file that raised has its error line. *)
Lemma ingest_csv_isolation (w : World) :
  folder_exists fs = true ->
  fst (ingest_csv parse_float fs w) = Ok tt /\
  store (snd (ingest_csv parse_float fs w))
  = flat_map (file_rows parse_float fs) (csv_files fs) /\
  (forall file, In file (csv_files fs) -> corrupt parse_float fs file ->
     exists e, In (ErrorFailedToProcess file e)
                  (log (snd (ingest_csv parse_float fs w)))).
Proof.
  intros Hf. unfold ingest_csv. rewrite Hf.
  destruct (for_each_guarded_effect (csv_files fs)) as (l & E & L).
  rewrite E. cbn [fst snd store log app].
  split; [reflexivity | split; [reflexivity|]].
  intros file Hin C. destruct (L file Hin C) as [e He].
  exists e. rewrite E. cbn [snd log]. apply in_or_app. now right.
Qed.

Lemma corrupt_file_rows (file : str) :
  corrupt parse_float fs file -> file_rows parse_float fs file = [].
Proof.
  intros [e He]. unfold file_rows.
  destruct (process_file parse_float fs file empty_world) as [[u|e'] w];
    [discriminate | reflexivity].
Qed.

End IngestCsv.

Section IngestionClaims.
Import Py Pd Effects Spec InvestmentFunds.

(** With the four numeric columns present [validate_dataframe] returns
    [True] and leaves the store alone; with one of them missing it raises
    [KeyError]. *)
Lemma validate_dataframe_outcome (parse_float : str -> float)
      (df : DataFrame) (fund_name : option str) (filename : str) (w : World) :
  ((forall col, In col numeric_cols -> has_column df col = true) ->
   exists df' w',
     validate_dataframe parse_float df fund_name filename w
     = (Ok (true, df'), w') /\ store w' = store w) /\
  (forall col, In col numeric_cols -> has_column df col = false ->
     exists col' w',
       In col' numeric_cols /\
       validate_dataframe parse_float df fund_name filename w
       = (Raise (KeyError col'), w') /\ store w' = store w).
Proof.
  destruct (validate_dataframe_effect parse_float df fund_name filename)
    as (r & l & E & Hok & Hbad & _).
  split.
  - intros Hall. destruct (Hok Hall) as [df' ->].
    eexists. eexists. rewrite E. split; [reflexivity|].
    simpl. now rewrite app_nil_r.
  - intros col Hin Hc. destruct (Hbad col Hin Hc) as (col' & Hin' & ->).
    exists col'. eexists. rewrite E. repeat split; [exact Hin'|].
    simpl. now rewrite app_nil_r.
Qed.

(** C2.  A snapshot that lacks [PRICE], one of the eight required columns:
    [validate_dataframe] writes the missing-columns warning and then
    raises [KeyError] at [df['PRICE']] instead of returning; in
    [ingest_csv] the file is skipped with an error line and no row of it
    reaches the store.  A snapshot that lacks the text column [SYMBOL]
    is warned about and validated, as claimed. *)
Theorem C2_validate_dataframe_raises_key_error :
  (forall parse_float fund_name filename w,
      validate_dataframe parse_float frame_without_price fund_name filename w
      = (Raise (KeyError (lit "PRICE")),
         mkworld (store w)
                 (log w ++ [WarnMissingColumns filename fund_name
                                               [lit "PRICE"]]))) /\
  (forall parse_float w,
      ingest_csv parse_float folder_without_price w
      = (Ok tt,
         mkworld []
           (log w ++
            [WarnMissingColumns (lit "Leeder_2022-01-31.csv")
                                (Some (lit "Leeder")) [lit "PRICE"];
             ErrorFailedToProcess (lit "Leeder_2022-01-31.csv")
                                  (KeyError (lit "PRICE"))]))) /\
  (forall parse_float fund_name filename w,
      validate_dataframe parse_float frame_without_symbol fund_name filename w
      = (Ok (true, frame_without_symbol),
         mkworld (store w)
                 (log w ++ [WarnMissingColumns filename fund_name
                                               [lit "SYMBOL"]]))).
Proof.
  split; [|split].
  - intros parse_float fund_name filename [st lg]. reflexivity.
  - intros parse_float [st lg]. cbn [log].
    match goal with
    | |- _ = (_, mkworld _ (?l ++ [?a; ?b])) =>
        change (l ++ [a; b]) with (l ++ [a] ++ [b]);
        rewrite (app_assoc l [a] [b])
    end.
    reflexivity.
  - intros parse_float fund_name filename [st lg]. reflexivity.
Qed.

(** One file that raises among files that do not: the guarded loop of the
    class ends normally with exactly the rows of the other files, and the
    failure is logged. *)
Lemma ingest_csv_one_corrupt (parse_float : str -> float) (fs : FileSystem)
      (w : World) (before after : list str) (bad : str) :
  folder_exists fs = true ->
  csv_files fs = before ++ bad :: after ->
  corrupt parse_float fs bad ->
  fst (ingest_csv parse_float fs w) = Ok tt /\
  store (snd (ingest_csv parse_float fs w))
  = flat_map (file_rows parse_float fs) (before ++ after) /\
  exists e, In (ErrorFailedToProcess bad e)
               (log (snd (ingest_csv parse_float fs w))).
Proof.
  intros Hf Hfiles C.
  destruct (ingest_csv_isolation parse_float fs w Hf) as (R & S & L).
  split; [exact R | split].
  - rewrite S, Hfiles, !flat_map_app. cbn [flat_map].
    now rewrite (corrupt_file_rows C).
  - apply L; [|exact C]. rewrite Hfiles. apply in_elt.
Qed.

(** The unguarded loop of [orig_file.py] stops at the first file that
    raises. *)
Lemma orig_for_each_stops (parse_float : str -> float) (fs : FileSystem)
      (file : str) (rest : list str) (w w' : World) (e : exn) :
  OrigFile.process_file parse_float fs file w = (Raise e, w') ->
  for_each (OrigFile.process_file parse_float fs) (file :: rest) w
  = (Raise e, w').
Proof. intros H. cbn [for_each]. unfold bind. now rewrite H. Qed.

(** C3.  A folder with one unreadable file listed before one good file:
    [ingest_csv] of the class logs the failure, goes on and stores the row
    of the good file, as claimed; [ingest_csv] of [orig_file.py], whose
    loop has no [try], raises at the unreadable file and stores nothing. *)
Theorem C3_orig_ingest_csv_aborts :
  (forall parse_float w,
      ingest_csv parse_float folder_one_corrupt w
      = (Ok tt,
         mkworld
           (file_rows parse_float folder_one_corrupt
                      (lit "Leeder_2022-01-31.csv"))
           (log w ++
            [ErrorFailedToProcess (lit "Gohen_2022-01-31.csv") read_error;
             InfoIngested 1 (Some (lit "Leeder"))]))) /\
  (forall parse_float,
      List.length (file_rows parse_float folder_one_corrupt
                             (lit "Leeder_2022-01-31.csv")) = 1) /\
  (forall parse_float w,
      OrigFile.ingest_csv parse_float folder_one_corrupt w
      = (Raise read_error, mkworld [] (log w))).
Proof.
  split; [|split].
  - intros parse_float [st lg]. cbn [log].
    match goal with
    | |- _ = (_, mkworld _ (?l ++ [?a; ?b])) =>
        change (l ++ [a; b]) with (l ++ [a] ++ [b]);
        rewrite (app_assoc l [a] [b])
    end.
    reflexivity.
  - intros parse_float. reflexivity.
  - intros parse_float [st lg]. reflexivity.
Qed.

End IngestionClaims.

(* ================================================================== *)
(** * Orders and [sort_values] *)
(* ================================================================== *)

Section SortFacts.
Import Py Pd Spec.
Variable A : Type.
Variable leb : A -> A -> bool.

Lemma insert_sorted_perm (x : A) (l : list A) :
  Permutation (insert_sorted leb x l) (x :: l).
Proof.
  induction l as [|y l IH]; simpl; [reflexivity|].
  destruct (leb x y); [reflexivity|].
  rewrite IH. apply perm_swap.
Qed.

Lemma sort_values_perm (l : list A) : Permutation (sort_values leb l) l.
Proof.
  induction l as [|x l IH]; simpl; [reflexivity|].
  unfold sort_values in *. simpl.
  rewrite insert_sorted_perm. now constructor.
Qed.

Lemma sort_values_in (l : list A) (x : A) :
  In x (sort_values leb l) <-> In x l.
Proof.
  split; apply Permutation_in;
    [apply sort_values_perm | symmetry; apply sort_values_perm].
Qed.

Hypothesis leb_total : total leb.
Hypothesis leb_trans : transitive leb.

Lemma insert_sorted_sorted (x : A) (l : list A) :
  sorted_by leb l -> sorted_by leb (insert_sorted leb x l).
Proof.
  unfold sorted_by. induction 1 as [|y l Hs IH Hy]; simpl.
  - repeat constructor.
  - destruct (leb x y) eqn:E.
    + constructor; [now constructor|].
      constructor; [exact E|].
      rewrite Forall_forall in *. intros z Hz.
      eapply leb_trans; [exact E | now apply Hy].
    + constructor; [exact IH|].
      rewrite Forall_forall in *. intros z Hz.
      apply (Permutation_in _ (insert_sorted_perm x l)) in Hz.
      destruct Hz as [<- | Hz]; [|now apply Hy].
      destruct (@leb_total x y) as [H | H]; congruence.
Qed.

Lemma sort_values_sorted (l : list A) : sorted_by leb (sort_values leb l).
Proof.
  induction l as [|x l IH]; [constructor|].
  unfold sort_values in *. simpl. now apply insert_sorted_sorted.
Qed.

(** In a sorted frame a row is not after any row that follows it. *)
Lemma sorted_by_split (l1 l2 : list A) (x : A) :
  sorted_by leb (l1 ++ x :: l2) ->
  (forall y, In y l1 -> leb y x = true) /\
  (forall y, In y l2 -> leb x y = true).
Proof.
  unfold sorted_by. induction l1 as [|a l1 IH]; simpl; intros H.
  - inversion H as [|? ? _ Hall]; subst. rewrite Forall_forall in Hall.
    split; [intros y [] | exact Hall].
  - inversion H as [|? ? Hs Hall]; subst. rewrite Forall_forall in Hall.
    destruct (IH Hs) as [B Aft]. split; [|exact Aft].
    intros y [<- | Hy]; [|now apply B].
    apply Hall. apply in_elt.
Qed.

End SortFacts.

Section LexFacts.
Import Py Pd Spec.
Variable A : Type.
Variables leb1 leb2 : A -> A -> bool.
Hypothesis total1 : total leb1.
Hypothesis trans1 : transitive leb1.
Hypothesis total2 : total leb2.
Hypothesis trans2 : transitive leb2.

Lemma lex_leb_total : total (lex_leb leb1 leb2).
Proof.
  intros a b. unfold lex_leb.
  destruct (@total1 a b) as [H | H], (@total2 a b) as [H' | H'];
    rewrite ?H, ?H'; destruct (leb1 a b), (leb1 b a), (leb2 a b), (leb2 b a);
    simpl; auto; discriminate.
Qed.

Lemma lex_leb_trans : transitive (lex_leb leb1 leb2).
Proof.
  intros a b c. unfold lex_leb.
  pose proof (@trans1 a b c) as Tabc. pose proof (@trans1 c b a) as Tcba.
  pose proof (@trans1 b c a) as Tbca. pose proof (@trans1 c a b) as Tcab.
  pose proof (@trans1 a c b) as Tacb. pose proof (@trans1 b a c) as Tbac.
  pose proof (@trans2 a b c) as T2.
  pose proof (@total1 a b) as [Oab | Oab]; pose proof (@total1 b c) as [Obc | Obc];
    pose proof (@total1 a c) as [Oac | Oac];
    destruct (leb1 a b), (leb1 b a), (leb1 b c), (leb1 c b),
             (leb1 a c), (leb1 c a), (leb2 a b), (leb2 b c), (leb2 a c);
    simpl; intros; auto; try discriminate;
    try (now apply Tabc); try (now apply Tcba); try (now apply Tbca);
    try (now apply Tcab); try (now apply Tacb); try (now apply Tbac);
    try (now apply T2);
    try (now (discriminate Tabc || discriminate Tcba || discriminate Tbca ||
              discriminate Tcab || discriminate Tacb || discriminate Tbac ||
              discriminate T2)).
Qed.

End LexFacts.

Section ConcreteOrders.
Import Py Pd Spec InvestmentFunds.

Lemma str_leb_total : total str_leb.
Proof.
  intros a. induction a as [|x a IH]; intros [|y b]; simpl; auto.
  destruct (IH b) as [H | H]; rewrite H;
    destruct (code x <? code y) eqn:L, (code y <? code x) eqn:L',
             (code x =? code y) eqn:E, (code y =? code x) eqn:E';
    simpl; auto;
    rewrite ?Nat.ltb_lt, ?Nat.ltb_ge, ?Nat.eqb_eq, ?Nat.eqb_neq in *; lia.
Qed.

Lemma str_leb_trans : transitive str_leb.
Proof.
  intros a. induction a as [|x a IH]; intros [|y b] [|z c]; simpl; auto;
    try discriminate.
  rewrite !orb_true_iff, !andb_true_iff, !Nat.ltb_lt, !Nat.eqb_eq.
  intros [H | [H H1]] [H' | [H' H2]]; try (left; lia).
  right. split; [lia | now apply (IH b c)].
Qed.

Lemma str_leb_antisym (a b : str) :
  str_leb a b = true -> str_leb b a = true -> a = b.
Proof.
  revert b. induction a as [|x a IH]; intros [|y b]; simpl; auto;
    try discriminate.
  rewrite !orb_true_iff, !andb_true_iff, !Nat.ltb_lt, !Nat.eqb_eq.
  intros [H | [H H1]] [H' | [H' H2]]; try lia.
  f_equal; [now apply code_inj | now apply IH].
Qed.

Lemma str_leb_refl (a : str) : str_leb a a = true.
Proof. destruct (str_leb_total a a); assumption. Qed.

Lemma str_eqb_leb (a b : str) :
  str_eqb a b = str_leb a b && str_leb b a.
Proof.
  destruct (str_eqb a b) eqn:E.
  - apply str_eqb_eq in E as ->. now rewrite str_leb_refl.
  - destruct (str_leb a b) eqn:L, (str_leb b a) eqn:L'; auto.
    rewrite (str_leb_antisym _ _ L L') in E.
    assert (X : str_eqb b b = true) by now apply str_eqb_eq.
    congruence.
Qed.

Lemma ts_leb_spec (a b : Timestamp) :
  ts_leb a b = true <->
  ts_year a < ts_year b \/
  (ts_year a = ts_year b /\
   (ts_month a < ts_month b \/
    (ts_month a = ts_month b /\
     (ts_day a < ts_day b \/
      (ts_day a = ts_day b /\ ts_time a <= ts_time b))))).
Proof.
  unfold ts_leb.
  repeat first [ rewrite orb_true_iff | rewrite andb_true_iff
               | rewrite Nat.ltb_lt | rewrite Nat.eqb_eq
               | rewrite Nat.leb_le ].
  tauto.
Qed.

Lemma ts_leb_total : total ts_leb.
Proof. intros a b. rewrite !ts_leb_spec. lia. Qed.

Lemma ts_leb_trans : transitive ts_leb.
Proof. intros a b c. rewrite !ts_leb_spec. lia. Qed.

Lemma ts_leb_antisym (a b : Timestamp) :
  ts_leb a b = true -> ts_leb b a = true -> a = b.
Proof.
  rewrite !ts_leb_spec. destruct a, b. simpl. intros H H'.
  f_equal; lia.
Qed.

Lemma ts_leb_refl (a : Timestamp) : ts_leb a a = true.
Proof. destruct (ts_leb_total a a); assumption. Qed.

Lemma to_datetime_inj (d d' : date) : to_datetime d = to_datetime d' -> d = d'.
Proof. destruct d, d'. unfold to_datetime. simpl. now intros [= -> -> ->]. Qed.

Lemma nat_last_leb_total : total nat_last_leb.
Proof.
  intros [a|] [b|]; simpl; auto. apply ts_leb_total.
Qed.

Lemma nat_last_leb_trans : transitive nat_last_leb.
Proof.
  intros [a|] [b|] [c|]; simpl; auto; try discriminate.
  apply ts_leb_trans.
Qed.

Lemma Qle_bool_total (p q : Q) : Qle_bool p q = true \/ Qle_bool q p = true.
Proof.
  rewrite !Qle_bool_iff. destruct (Qlt_le_dec p q) as [H | H]; auto.
  left. now apply Qlt_le_weak.
Qed.

Lemma fge_sort_total : total fge_sort.
Proof.
  intros [p| | |] [q| | |]; simpl; auto.
  destruct (Qle_bool_total p q); auto.
Qed.

Lemma fge_sort_trans : transitive fge_sort.
Proof.
  intros [p| | |] [q| | |] [r| | |]; simpl; auto; try discriminate.
  rewrite !Qle_bool_iff. intros H H'. now apply (Qle_trans _ q).
Qed.

Lemma fge_sort_fge (x y : float) :
  is_nan x = false -> is_nan y = false -> fge_sort x y = fge x y.
Proof. destruct x, y; simpl; auto; discriminate. Qed.

(** The two sort orders of the performance report are lexicographic. *)
Lemma by_fund_dt_lex (a b : Monthly) :
  by_fund_dt a b
  = lex_leb (fun a b => str_leb (m_FUND_NAME a) (m_FUND_NAME b))
            (fun a b => ts_leb (m_dt a) (m_dt b)) a b.
Proof. unfold by_fund_dt, lex_leb, str_ltb. now rewrite str_eqb_leb. Qed.

Lemma by_fund_dt_total : total by_fund_dt.
Proof.
  intros a b. rewrite !by_fund_dt_lex. apply lex_leb_total.
  - intros x y. apply str_leb_total.
  - intros x y. apply ts_leb_total.
Qed.

Lemma by_fund_dt_trans : transitive by_fund_dt.
Proof.
  intros a b c. rewrite !by_fund_dt_lex. apply lex_leb_trans.
  - intros x y. apply str_leb_total.
  - intros x y z. apply str_leb_trans.
  - intros x y z. apply ts_leb_trans.
Qed.

Lemma by_dt_ror_desc_total : total by_dt_ror_desc.
Proof.
  apply (@lex_leb_total _ (fun a b => ts_leb (m_dt a) (m_dt b))
                          (fun a b => fge_sort (ROR a) (ROR b))).
  - intros x y. apply ts_leb_total.
  - intros x y. apply fge_sort_total.
Qed.

Lemma by_dt_ror_desc_trans : transitive by_dt_ror_desc.
Proof.
  apply (@lex_leb_trans _ (fun a b => ts_leb (m_dt a) (m_dt b))
                          (fun a b => fge_sort (ROR a) (ROR b))).
  - intros x y. apply ts_leb_total.
  - intros x y z. apply ts_leb_trans.
  - intros x y z. apply fge_sort_trans.
Qed.

(** Rows of one fund compare by date alone. *)
Lemma by_fund_dt_same_fund (a b : Monthly) :
  m_FUND_NAME a = m_FUND_NAME b ->
  by_fund_dt a b = ts_leb (m_dt a) (m_dt b).
Proof.
  intros E. unfold by_fund_dt, str_ltb. rewrite E, str_leb_refl.
  assert (X : str_eqb (m_FUND_NAME b) (m_FUND_NAME b) = true)
    by now apply str_eqb_eq.
  now rewrite X.
Qed.

End ConcreteOrders.

(* ================================================================== *)
(** * [generate_reconciliation_report] *)
(* ================================================================== *)

Section Reconciliation.
Import Py Pd Spec InvestmentFunds.






(** Without null keys on the left every left row gets its line. *)
Lemma merge_rows_ok (right : list PriceObservation) (left : list FundRow) :
  (forall l, In l left -> fr_dt l <> None) ->
  exists rows,
    merge_rows left right = Ok rows /\
    map rr_holding rows = map fr_holding left /\
    forall row, In row rows ->
      exists l, In l left /\
        rr_holding row = fr_holding l /\
        fr_dt l = Some (rr_dt row) /\
        rr_MASTER_PRICE row
        = matched_price (asof_backward right (fr_IDENTIFIER l) (rr_dt row)) /\
        PRICE_DIFF row = fsub (PRICE (fr_holding l)) (rr_MASTER_PRICE row).
Proof.
  induction left as [|l left IH]; intros H; cbn [merge_rows].
  - exists []. repeat split. intros row [].
  - destruct (fr_dt l) as [t|] eqn:T.
    2:{ exfalso. apply (H l); [now left | exact T]. }
    destruct IH as (rows & -> & Hmap & Hrows).
    { intros l' Hl'. apply H. now right. }
    eexists. split; [reflexivity|]. split.
    + cbn [map rr_holding]. now rewrite Hmap.
    + intros row [<- | Hrow].
      * exists l. cbn. repeat split; auto.
      * destruct (Hrows row Hrow) as (l' & Hl' & R).
        exists l'. split; [now right | exact R].
Qed.


End Reconciliation.

Section ReconciliationClaims.
Import Py Pd Spec InvestmentFunds.




End ReconciliationClaims.

(* ================================================================== *)
(** * [generate_performance_report] *)
(* ================================================================== *)

Section GroupBy.
Import Py Pd Spec InvestmentFunds.

Lemma date_eqb_eq (a b : date) : date_eqb a b = true <-> a = b.
Proof.
  unfold date_eqb. rewrite !andb_true_iff, !Nat.eqb_eq.
  destruct a, b; simpl. split.
  - now intros [[-> ->] ->].
  - now intros [= -> -> ->].
Qed.

Lemma key_eqb_eq (a b : group_key) : key_eqb a b = true <-> a = b.
Proof.
  unfold key_eqb. rewrite andb_true_iff, str_eqb_eq, date_eqb_eq.
  destruct a, b; simpl. split.
  - now intros [-> ->].
  - now intros [= -> ->].
Qed.

Lemma existsb_key_eqb (k : group_key) (seen : list group_key) :
  existsb (key_eqb k) seen = true <-> In k seen.
Proof.
  rewrite existsb_exists. split.
  - intros (x & Hin & E). apply key_eqb_eq in E. now subst.
  - intros Hin. exists k. split; [exact Hin | now apply key_eqb_eq].
Qed.

Lemma key_of_some (h : Holding) (f : str) (d : date) :
  key_of h = Some (f, d) <-> FUND_NAME h = Some f /\ REPORT_DATE h = Some d.
Proof.
  unfold key_of. destruct (FUND_NAME h), (REPORT_DATE h); split;
    try discriminate; try (intros [H H']; discriminate).
  - now intros [= -> ->].
  - now intros [[= ->] [= ->]].
Qed.

Lemma key_of_none (h : Holding) :
  key_of h = None <-> FUND_NAME h = None \/ REPORT_DATE h = None.
Proof.
  unfold key_of. destruct (FUND_NAME h), (REPORT_DATE h); split; auto;
    try discriminate; intros [H | H]; discriminate.
Qed.

(** The keys of the groups: the keys of the rows, each once. *)
Lemma group_keys_in (rows : list Holding) :
  forall seen k,
    In k (group_keys seen rows) <->
    (exists h, In h rows /\ key_of h = Some k) /\ ~ In k seen.
Proof.
  induction rows as [|h rows IH]; intros seen k; cbn [group_keys].
  - split; [intros [] | intros [(h & [] & _) _]].
  - destruct (key_of h) as [k0|] eqn:K.
    + destruct (existsb (key_eqb k0) seen) eqn:E.
      * rewrite IH. apply existsb_key_eqb in E. split.
        -- intros [(h' & Hin & Hk) N]. split; [|exact N].
           exists h'. split; [now right | exact Hk].
        -- intros [(h' & [<- | Hin] & Hk) N]; (split; [|exact N]).
           ++ rewrite K in Hk. injection Hk as <-. now destruct N.
           ++ now exists h'.
      * assert (N0 : ~ In k0 seen).
        { intros Hin. apply existsb_key_eqb in Hin. congruence. }
        cbn [In]. rewrite IH. cbn [In]. split.
        -- intros [<- | [(h' & Hin & Hk) N]].
           ++ split; [|exact N0]. exists h. split; [now left | exact K].
           ++ split; [|tauto]. exists h'. split; [now right | exact Hk].
        -- intros [(h' & [<- | Hin] & Hk) N].
           ++ left. congruence.
           ++ destruct (key_eqb k0 k) eqn:Ek.
              ** left. now apply key_eqb_eq.
              ** right. split; [now exists h'|].
                 intros [-> | Hs]; [|now apply N].
                 assert (X : key_eqb k k = true) by now apply key_eqb_eq.
                 congruence.
    + rewrite IH. split.
      * intros [(h' & Hin & Hk) N]. split; [|exact N].
        exists h'. split; [now right | exact Hk].
      * intros [(h' & [<- | Hin] & Hk) N]; [congruence|].
        split; [now exists h' | exact N].
Qed.

Lemma group_keys_nodup (rows : list Holding) :
  forall seen, NoDup (group_keys seen rows).
Proof.
  induction rows as [|h rows IH]; intros seen; cbn [group_keys];
    [constructor|].
  destruct (key_of h) as [k0|]; [|apply IH].
  destruct (existsb (key_eqb k0) seen); [apply IH|].
  constructor; [|apply IH].
  intros Hin. apply group_keys_in in Hin as [_ N]. apply N. now left.
Qed.

(** Rows with a null key take no part in the grouping. *)
Lemma group_keys_filter (rows : list Holding) :
  forall seen,
    group_keys seen (filter has_fund_and_date rows) = group_keys seen rows.
Proof.
  induction rows as [|h rows IH]; intros seen; [reflexivity|].
  cbn [filter group_keys]. unfold has_fund_and_date at 1, key_of.
  destruct (FUND_NAME h) as [f|] eqn:F, (REPORT_DATE h) as [d|] eqn:D;
    cbn [group_keys]; unfold key_of; rewrite ?F, ?D;
    try apply IH.
  destruct (existsb (key_eqb (f, d)) seen); [apply IH | now rewrite IH].
Qed.

Lemma in_group_filter (k : group_key) (rows : list Holding) :
  filter (in_group k) (filter has_fund_and_date rows)
  = filter (in_group k) rows.
Proof.
  induction rows as [|h rows IH]; [reflexivity|].
  cbn [filter]. unfold has_fund_and_date at 1, in_group at 2, key_of.
  destruct (FUND_NAME h) as [f|] eqn:F, (REPORT_DATE h) as [d|] eqn:D;
    try exact IH.
  cbn [filter]. unfold in_group at 1, key_of. rewrite F, D.
  destruct (key_eqb (f, d) k); [now rewrite IH | exact IH].
Qed.

Lemma groupby_sum_filter (rows : list Holding) :
  groupby_sum (filter has_fund_and_date rows) = groupby_sum rows.
Proof.
  unfold groupby_sum. rewrite group_keys_filter. f_equal.
  apply map_ext. intros k. now rewrite in_group_filter.
Qed.

End GroupBy.

Section MonthlyLines.
Import Py Pd Spec InvestmentFunds.

Lemma groupby_sum_in (holdings : list Holding) (r : Monthly) :
  In r (groupby_sum holdings) ->
  aggregates holdings r /\ In (line_key r) (group_keys [] holdings).
Proof.
  unfold groupby_sum. intros H. apply sort_values_in in H.
  apply in_map_iff in H as ([f d] & <- & Hk).
  split; [|exact Hk].
  apply group_keys_in in Hk as [(h & Hin & Hkey) _].
  apply key_of_some in Hkey as [Hf Hd].
  unfold aggregates, members. cbn. split; [now exists h | now split].
Qed.

Lemma groupby_sum_keys (holdings : list Holding) :
  Permutation (map line_key (groupby_sum holdings)) (group_keys [] holdings).
Proof.
  unfold groupby_sum.
  rewrite (Permutation_map line_key (sort_values_perm by_fund_dt _)).
  rewrite map_map. unfold line_key. cbn.
  rewrite (map_ext _ (fun k => k)); [now rewrite map_id|].
  now intros [f d].
Qed.

(** The frame the shift works on: sorted by fund and date, one line per
    fund and date. *)
Lemma sorted_monthly (holdings : list Holding) :
  let monthly := sort_values by_fund_dt (groupby_sum holdings) in
  sorted_by by_fund_dt monthly /\
  NoDup (map line_key monthly) /\
  (forall r, In r monthly <-> In r (groupby_sum holdings)).
Proof.
  intros monthly. split; [|split].
  - apply sort_values_sorted; [exact by_fund_dt_total | exact by_fund_dt_trans].
  - apply (Permutation_NoDup (l := group_keys [] holdings));
      [|apply group_keys_nodup].
    symmetry. unfold monthly.
    rewrite (Permutation_map line_key (sort_values_perm by_fund_dt _)).
    apply groupby_sum_keys.
  - intros r. apply sort_values_in.
Qed.

Lemma shift_market_value_in (rows : list Monthly) :
  forall before out,
    In out (shift_market_value before rows) ->
    exists l1 r l2,
      rows = l1 ++ r :: l2 /\
      out = set_starting_mv r (previous_market_value (rev l1 ++ before) r).
Proof.
  induction rows as [|r0 rows IH]; intros before out; cbn [shift_market_value];
    [intros []|].
  intros [<- | H].
  - now exists [], r0, rows.
  - apply IH in H as (l1 & r & l2 & -> & ->).
    exists (r0 :: l1), r, l2. split; [reflexivity|].
    cbn [rev]. now rewrite <- app_assoc.
Qed.

Lemma shift_market_value_base (rows : list Monthly) :
  forall before, map base (shift_market_value before rows) = map base rows.
Proof.
  induction rows as [|r0 rows IH]; intros before; [reflexivity|].
  cbn [shift_market_value map]. now rewrite IH.
Qed.

Lemma monthly_with_ror_base (holdings : list Holding) :
  map base (monthly_with_ror holdings)
  = map base (sort_values by_fund_dt (groupby_sum holdings)).
Proof.
  unfold monthly_with_ror. rewrite map_map.
  rewrite (map_ext (fun x => base (set_ror x)) base) by reflexivity.
  apply shift_market_value_base.
Qed.

(** Lines with the same four grouped columns, before and after the shift. *)
Lemma monthly_with_ror_from (holdings : list Holding) (q : Monthly) :
  In q (monthly_with_ror holdings) ->
  exists q0, In q0 (sort_values by_fund_dt (groupby_sum holdings)) /\
             base q0 = base q.
Proof.
  intros H. apply (in_map base) in H. rewrite monthly_with_ror_base in H.
  apply in_map_iff in H as (q0 & E & Hin). now exists q0.
Qed.

Lemma monthly_with_ror_to (holdings : list Holding) (q0 : Monthly) :
  In q0 (sort_values by_fund_dt (groupby_sum holdings)) ->
  exists q, In q (monthly_with_ror holdings) /\ base q = base q0.
Proof.
  intros H. apply (in_map base) in H. rewrite <- monthly_with_ror_base in H.
  apply in_map_iff in H as (q & E & Hin). now exists q.
Qed.

Lemma base_eq (a b : Monthly) :
  base a = base b ->
  m_FUND_NAME a = m_FUND_NAME b /\ m_REPORT_DATE a = m_REPORT_DATE b /\
  m_MARKET_VALUE a = m_MARKET_VALUE b /\ m_REALISED_PL a = m_REALISED_PL b /\
  m_dt a = m_dt b.
Proof.
  unfold base, m_dt. intros [= -> -> -> ->]. auto.
Qed.

(** In the sorted frame, the nearest earlier line of the same fund is the
    line of the immediately preceding period. *)
Lemma previous_line_precedes (monthly l1 l2 : list Monthly) (r : Monthly) :
  sorted_by by_fund_dt monthly ->
  NoDup (map line_key monthly) ->
  monthly = l1 ++ r :: l2 ->
  match find (fun p => str_eqb (m_FUND_NAME p) (m_FUND_NAME r)) (rev l1) with
  | Some p => preceding_period monthly r p
  | None => first_period monthly r
  end.
Proof.
  intros S ND E. rewrite E in S.
  destruct (sorted_by_split _ _ _ S) as [Before After].
  assert (Later : forall q, In q l2 ->
                   m_FUND_NAME q = m_FUND_NAME r ->
                   ~ ts_lt (m_dt q) (m_dt r)).
  { intros q Hq Hf Hlt. specialize (After q Hq).
    rewrite (by_fund_dt_same_fund _ _ (eq_sym Hf)) in After.
    unfold ts_lt, ts_ltb in Hlt. rewrite After in Hlt. discriminate. }
  assert (Self : ~ ts_lt (m_dt r) (m_dt r)).
  { unfold ts_lt, ts_ltb. now rewrite ts_leb_refl. }
  destruct (find (fun p => str_eqb (m_FUND_NAME p) (m_FUND_NAME r)) (rev l1))
    as [p|] eqn:F.
  - apply find_first in F as (a & b & Erev & Pf & Na).
    apply str_eqb_eq in Pf.
    assert (El1 : l1 = rev b ++ p :: rev a).
    { rewrite <- (rev_involutive l1), Erev, rev_app_distr. simpl.
      now rewrite <- app_assoc. }
    assert (Hp1 : In p l1) by (rewrite El1; apply in_elt).
    assert (Ple : ts_leb (m_dt p) (m_dt r) = true).
    { rewrite <- (by_fund_dt_same_fund _ _ Pf). now apply Before. }
    unfold preceding_period. split; [|split; [exact Pf | split]].
    + rewrite E. apply in_or_app. now left.
    + unfold ts_lt, ts_ltb.
      destruct (ts_leb (m_dt r) (m_dt p)) eqn:Rle; [|reflexivity].
      exfalso. pose proof (ts_leb_antisym _ _ Ple Rle) as Edt.
      apply to_datetime_inj in Edt.
      rewrite E, map_app in ND. cbn [map] in ND.
      apply NoDup_remove_2 in ND. apply ND.
      apply in_or_app. left. apply in_map_iff. exists p.
      split; [|exact Hp1]. unfold line_key. now rewrite Pf, Edt.
    + intros q Hq Hf Hlt. rewrite E in Hq.
      apply in_app_or in Hq as [Hq | [<- | Hq]].
      * rewrite El1 in Hq. apply in_app_or in Hq as [Hq | [<- | Hq]].
        -- assert (Sl1 : sorted_by by_fund_dt (rev b ++ p :: rev a ++ r :: l2)).
           { rewrite El1, <- app_assoc in S. exact S. }
           destruct (sorted_by_split _ _ _ Sl1) as [Bp _].
           specialize (Bp q Hq).
           rewrite by_fund_dt_same_fund in Bp; [exact Bp | congruence].
        -- apply ts_leb_refl.
        -- apply in_rev in Hq. specialize (Na q Hq).
           apply str_eqb_eq in Hf. congruence.
      * now destruct Self.
      * now destruct (Later q Hq Hf).
  - unfold first_period. intros q Hq Hf. rewrite E in Hq.
    apply in_app_or in Hq as [Hq | [<- | Hq]].
    + apply in_rev in Hq. pose proof (find_none _ _ F q Hq) as Nq.
      apply str_eqb_eq in Hf. simpl in Nq. congruence.
    + exact Self.
    + now apply Later.
Qed.

End MonthlyLines.

Section DropDuplicatesFacts.
Import Py Pd Spec.
Variables A K : Type.
Variable key : A -> K.
Variable key_eqb : K -> K -> bool.
Hypothesis key_eqb_spec : forall a b, key_eqb a b = true <-> a = b.

Lemma seen_spec (k : K) (seen : list K) :
  existsb (key_eqb k) seen = true <-> In k seen.
Proof.
  rewrite existsb_exists. split.
  - intros (x & Hin & E). apply key_eqb_spec in E. now subst.
  - intros Hin. exists k. split; [exact Hin | now apply key_eqb_spec].
Qed.

(** A kept row is the first of its key. *)
Lemma drop_duplicates_from_in (l : list A) :
  forall seen x,
    In x (drop_duplicates_from key key_eqb seen l) ->
    exists l1 l2,
      l = l1 ++ x :: l2 /\
      (forall y, In y l1 -> key y <> key x) /\ ~ In (key x) seen.
Proof.
  induction l as [|x0 l IH]; intros seen x; cbn [drop_duplicates_from];
    [intros []|].
  destruct (existsb (key_eqb (key x0)) seen) eqn:E.
  - apply seen_spec in E. intros H.
    destruct (IH seen x H) as (l1 & l2 & -> & Hl1 & N).
    exists (x0 :: l1), l2. split; [reflexivity | split; [|exact N]].
    intros y [<- | Hy]; [congruence | now apply Hl1].
  - assert (N0 : ~ In (key x0) seen).
    { intros Hin. apply seen_spec in Hin. congruence. }
    intros [<- | H].
    + exists [], l. split; [reflexivity | split; [intros y [] | exact N0]].
    + destruct (IH (key x0 :: seen) x H) as (l1 & l2 & -> & Hl1 & N).
      exists (x0 :: l1), l2. split; [reflexivity | split].
      * intros y [<- | Hy]; [|now apply Hl1].
        intros Ek. apply N. now left.
      * intros Hin. apply N. now right.
Qed.

Lemma drop_duplicates_from_nodup (l : list A) :
  forall seen, NoDup (map key (drop_duplicates_from key key_eqb seen l)).
Proof.
  induction l as [|x0 l IH]; intros seen; cbn [drop_duplicates_from];
    [constructor|].
  destruct (existsb (key_eqb (key x0)) seen); [apply IH|].
  cbn [map]. constructor; [|apply IH].
  intros Hin. apply in_map_iff in Hin as (x & Ek & Hx).
  apply drop_duplicates_from_in in Hx as (_ & _ & _ & _ & N).
  apply N. left. now symmetry.
Qed.

(** Every key that is not yet seen keeps a row. *)
Lemma drop_duplicates_from_complete (l : list A) :
  forall seen y,
    In y l -> ~ In (key y) seen ->
    exists x, In x (drop_duplicates_from key key_eqb seen l) /\
              key x = key y.
Proof.
  induction l as [|x0 l IH]; intros seen y; cbn [drop_duplicates_from];
    [intros []|].
  intros [<- | Hy] N.
  - destruct (existsb (key_eqb (key x0)) seen) eqn:E.
    + apply seen_spec in E. now destruct N.
    + exists x0. split; [now left | reflexivity].
  - destruct (existsb (key_eqb (key x0)) seen) eqn:E; [now apply IH|].
    destruct (key_eqb (key x0) (key y)) eqn:Ek.
    + apply key_eqb_spec in Ek. exists x0. split; [now left | exact Ek].
    + destruct (IH (key x0 :: seen) y Hy) as (x & Hx & Ex).
      { intros [Hk | Hs]; [|now apply N].
        apply key_eqb_spec in Hk. congruence. }
      exists x. split; [now right | exact Ex].
Qed.

End DropDuplicatesFacts.

Section Ranking.
Import Py Pd Spec InvestmentFunds.

Lemma ts_eqb_eq (a b : Timestamp) : ts_eqb a b = true <-> a = b.
Proof.
  unfold ts_eqb. rewrite andb_true_iff. split.
  - intros [H H']. now apply ts_leb_antisym.
  - intros ->. now rewrite ts_leb_refl.
Qed.

Lemma fdiv_nan_r (x : float) : fdiv x NaN = NaN.
Proof. now destruct x. Qed.

Lemma fge_refl (x : float) : is_nan x = false -> fge x x = true.
Proof.
  destruct x; simpl; auto; try discriminate.
  intros _. apply Qle_bool_iff. apply Qle_refl.
Qed.

Lemma eligible_in (holdings : list Holding) (r : Monthly) :
  In r (eligible holdings) <->
  In r (monthly_with_ror holdings) /\ is_nan (ROR r) = false.
Proof.
  unfold eligible, dropna_ror. rewrite filter_In.
  now destruct (is_nan (ROR r)).
Qed.

(** A selected line is the first of its period in the ranking order. *)
Lemma report_in (holdings : list Holding) (r : Monthly) :
  In r (generate_performance_report holdings) ->
  In r (eligible holdings) /\
  forall e, In e (eligible holdings) -> m_dt e = m_dt r ->
            by_dt_ror_desc r e = true.
Proof.
  unfold generate_performance_report. fold (eligible holdings). intros H.
  apply (drop_duplicates_from_in m_dt ts_eqb ts_eqb_eq) in H
    as (l1 & l2 & E & First & _).
  assert (S : sorted_by by_dt_ror_desc (l1 ++ r :: l2)).
  { rewrite <- E. apply sort_values_sorted;
      [exact by_dt_ror_desc_total | exact by_dt_ror_desc_trans]. }
  destruct (sorted_by_split _ _ _ S) as [_ After].
  split.
  - apply (sort_values_in by_dt_ror_desc). rewrite E. apply in_elt.
  - intros e He Hdt. apply (sort_values_in by_dt_ror_desc) in He.
    rewrite E in He. apply in_app_or in He as [He | [<- | He]].
    + now destruct (First e He).
    + destruct (by_dt_ror_desc_total r r); assumption.
    + now apply After.
Qed.

Lemma report_line_not_nan (holdings : list Holding) (r : Monthly) :
  In r (generate_performance_report holdings) -> is_nan (ROR r) = false.
Proof. intros H. apply report_in in H as [H _]. now apply eligible_in in H. Qed.

End Ranking.

Section PerformanceClaims.
Import Py Pd Spec InvestmentFunds.

Lemma monthly_with_ror_in (holdings : list Holding) (r : Monthly) :
  In r (monthly_with_ror holdings) ->
  exists l1 r0 l2,
    sort_values by_fund_dt (groupby_sum holdings) = l1 ++ r0 :: l2 /\
    r = set_ror (set_starting_mv r0 (previous_market_value (rev l1) r0)).
Proof.
  unfold monthly_with_ror. intros H.
  apply in_map_iff in H as (out & <- & H).
  apply shift_market_value_in in H as (l1 & r0 & l2 & E & ->).
  exists l1, r0, l2. now rewrite app_nil_r.
Qed.

(** A line whose starting value is null has a null rate of return and is
    not in the report. *)
Lemma null_start_excluded (holdings : list Holding) (r : Monthly) :
  In r (monthly_with_ror holdings) ->
  is_nan (STARTING_MV r) = true ->
  is_nan (ROR r) = true /\ ~ In r (generate_performance_report holdings).
Proof.
  intros H Hs.
  assert (Hr : is_nan (ROR r) = true).
  { apply monthly_with_ror_in in H as (l1 & r0 & l2 & _ & ->).
    cbn in *. unfold rate_of_return. cbn.
    destruct (previous_market_value (rev l1) r0); try discriminate.
    now rewrite fdiv_nan_r. }
  split; [exact Hr|].
  intros Hin. apply report_line_not_nan in Hin. congruence.
Qed.

(** C5.  Every line of [monthly] sums the market value and the realised
    P/L of the holdings of one fund on one report date, and every such
    group has its line; its starting market value is the summed market
    value of the same fund's immediately preceding period; its rate of
    return is (ending - starting + realised P/L) / starting; the line of a
    fund's first period has no starting value and is not in the report.
    For ending values 100, 110, 105 and realised P/L 0, 5, 2 the rate of
    return of period 2 is 0.15 and period 1 is left out. *)
Theorem C5_rate_of_return :
  (forall holdings r,
      In r (monthly_with_ror holdings) ->
      aggregates holdings r /\
      ((exists p, preceding_period (monthly_with_ror holdings) r p /\
                  STARTING_MV r = m_MARKET_VALUE p) \/
       (first_period (monthly_with_ror holdings) r /\
        STARTING_MV r = NaN /\
        ~ In r (generate_performance_report holdings))) /\
      ROR r = ror_formula (m_MARKET_VALUE r) (STARTING_MV r)
                          (m_REALISED_PL r)) /\
  (forall holdings h fund d,
      In h holdings -> FUND_NAME h = Some fund -> REPORT_DATE h = Some d ->
      exists r, In r (monthly_with_ror holdings) /\
                m_FUND_NAME r = fund /\ m_REPORT_DATE r = d) /\
  map (fun r => (m_REPORT_DATE r, m_MARKET_VALUE r, STARTING_MV r, ROR r))
      (monthly_with_ror three_periods)
  = [(mkdate 2022 8 31, Fin 100, NaN, NaN);
     (mkdate 2022 9 30, Fin 110, Fin 100, Fin 0.15);
     (mkdate 2022 10 31, Fin 105, Fin 110, Fin (-3 # 110))] /\
  map m_REPORT_DATE (generate_performance_report three_periods)
  = [mkdate 2022 9 30; mkdate 2022 10 31].
Proof.
  split; [|split; [|split; reflexivity]].
  - intros holdings r Hr.
    destruct (@monthly_with_ror_in holdings r Hr) as (l1 & r0 & l2 & E & Er).
    destruct (sorted_monthly holdings) as (Sorted & ND & Same).
    assert (H0 : In r0 (sort_values by_fund_dt (groupby_sum holdings)))
      by (rewrite E; apply in_elt).
    assert (Br : base r = base r0) by now rewrite Er.
    destruct (@base_eq r r0 Br) as (Bf & Bd & Bmv & Bpl & Bdt).
    split; [|split].
    + apply Same, groupby_sum_in in H0 as [Agg _].
      unfold aggregates in *. now rewrite Bf, Bd, Bmv, Bpl.
    + pose proof (@previous_line_precedes _ l1 l2 r0 Sorted ND E) as P.
      assert (Start : STARTING_MV r = previous_market_value (rev l1) r0)
        by now rewrite Er.
      unfold previous_market_value in Start.
      destruct (find (fun p => str_eqb (m_FUND_NAME p) (m_FUND_NAME r0))
                     (rev l1)) as [p0|].
      * left. destruct P as (Hp0 & Pf & Plt & Pmax).
        destruct (@monthly_with_ror_to holdings p0 Hp0) as (p & Hp & Bp).
        destruct (@base_eq p p0 Bp) as (Pf' & _ & Pmv & _ & Pdt).
        exists p. split; [|congruence].
        split; [exact Hp | split; [congruence | split]].
        -- rewrite Pdt, Bdt. exact Plt.
        -- intros q Hq Hf Hlt.
           destruct (@monthly_with_ror_from holdings q Hq) as (q0 & Hq0 & Bq).
           destruct (@base_eq q0 q Bq) as (Qf & _ & _ & _ & Qdt).
           rewrite Pdt, <- Qdt. apply Pmax; [exact Hq0 | congruence|].
           rewrite Qdt, <- Bdt. exact Hlt.
      * right. split; [|split; [exact Start|]].
        -- intros q Hq Hf Hlt.
           destruct (@monthly_with_ror_from holdings q Hq) as (q0 & Hq0 & Bq).
           destruct (@base_eq q0 q Bq) as (Qf & _ & _ & _ & Qdt).
           apply (P q0 Hq0); [congruence|].
           rewrite Qdt, <- Bdt. exact Hlt.
        -- apply null_start_excluded; [exact Hr | now rewrite Start].
    + now rewrite Er.
  - intros holdings h fund d Hh Hf Hd.
    assert (Hk : In (fund, d) (group_keys [] holdings)).
    { apply group_keys_in. split; [|intros []].
      exists h. split; [exact Hh | now apply key_of_some]. }
    apply (Permutation_in _ (Permutation_sym (groupby_sum_keys holdings))) in Hk.
    apply in_map_iff in Hk as (r0 & Ek & H0).
    apply (sort_values_in by_fund_dt) in H0.
    destruct (@monthly_with_ror_to holdings r0 H0) as (r & Hr & Br).
    destruct (@base_eq r r0 Br) as (Bf & Bd & _).
    exists r. split; [exact Hr|].
    unfold line_key in Ek. injection Ek as Ef Ed. split; congruence.
Qed.

Lemma C5_rate_of_return_witness :
  exists r,
    In r (monthly_with_ror three_periods) /\
    m_REPORT_DATE r = mkdate 2022 9 30 /\
    aggregates three_periods r /\
    ROR r = ror_formula (m_MARKET_VALUE r) (STARTING_MV r) (m_REALISED_PL r).
Proof.
  set (r := mkmonthly (lit "Leeder") (mkdate 2022 9 30) (Fin 110) (Fin 5)
                      (Fin 100) (Fin 0.15)).
  assert (Hr : In r (monthly_with_ror three_periods))
    by (right; left; reflexivity).
  exists r. split; [exact Hr | split; [reflexivity|]].
  destruct (proj1 C5_rate_of_return three_periods r Hr) as (Agg & _ & Ror).
  split; [exact Agg | exact Ror].
Defined.

(** Every monthly line carries the formula's value and sums a group of
    holdings that have its fund name and report date. *)
Lemma monthly_line (holdings : list Holding) (r : Monthly) :
  In r (monthly_with_ror holdings) ->
  aggregates holdings r /\
  ROR r = ror_formula (m_MARKET_VALUE r) (STARTING_MV r) (m_REALISED_PL r).
Proof.
  intros Hr.
  destruct (@monthly_with_ror_in holdings r Hr) as (l1 & r0 & l2 & E & Er).
  assert (H0 : In r0 (groupby_sum holdings)).
  { apply (proj1 (sort_values_in by_fund_dt (groupby_sum holdings) r0)).
    rewrite E. apply in_elt. }
  apply groupby_sum_in in H0 as [Agg _].
  split; [|now rewrite Er].
  assert (Br : base r = base r0) by now rewrite Er.
  destruct (@base_eq r r0 Br) as (Bf & Bd & Bmv & Bpl & _).
  unfold aggregates in *. now rewrite Bf, Bd, Bmv, Bpl.
Qed.

Lemma members_in (fund : str) (d : date) (holdings : list Holding)
      (h : Holding) :
  In h (members fund d holdings) <->
  In h holdings /\ FUND_NAME h = Some fund /\ REPORT_DATE h = Some d.
Proof.
  unfold members. rewrite filter_In. unfold in_group.
  split.
  - intros [Hin Hk]. split; [exact Hin|].
    destruct (key_of h) as [[f' d']|] eqn:K; [|discriminate].
    apply key_eqb_eq in Hk. injection Hk as -> ->.
    now apply key_of_some.
  - intros (Hin & Hf & Hd). split; [exact Hin|].
    rewrite (proj2 (key_of_some h fund d) (conj Hf Hd)).
    now apply key_eqb_eq.
Qed.

(** A zero starting value: the quotient is an infinity, or null when the
    numerator is zero or null. *)
Lemma fdiv_by_zero (n : float) (q : Q) :
  Qeq q 0 ->
  (fdiv n (Fin q) = NaN \/ fdiv n (Fin q) = PInf \/ fdiv n (Fin q) = NInf) /\
  (fdiv n (Fin q) = NaN <->
   n = NaN \/ exists p, n = Fin p /\ Qeq p 0).
Proof.
  intros Hq. assert (Z : q_is_zero q = true) by now apply Qeq_bool_iff.
  destruct n as [p| | |]; cbn [fdiv fneg]; rewrite ?Z; cbn [negb andb].
  - destruct (q_is_zero p) eqn:Zp.
    + split; [now left|]. split; [|reflexivity].
      intros _. right. exists p. split; [reflexivity|].
      now apply Qeq_bool_iff.
    + assert (Np : ~ Qeq p 0).
      { intros H. apply Qeq_bool_iff in H. unfold q_is_zero in Zp. congruence. }
      destruct (q_is_pos p).
      * split; [now right; left|]. split; [discriminate|].
        intros [H | (p' & [= <-] & H)]; [discriminate | now destruct Np].
      * split; [now right; right|]. split; [discriminate|].
        intros [H | (p' & [= <-] & H)]; [discriminate | now destruct Np].
  - split; [now right; left|]. split; [discriminate|].
    intros [H | (p' & H & _)]; discriminate.
  - split; [now right; right|]. split; [discriminate|].
    intros [H | (p' & H & _)]; discriminate.
  - split; [now left|]. split; [now left | reflexivity].
Qed.

(** C6.  A fund-period with a zero starting market value and a positive
    numerator: the division has no guard for a zero divisor, so the rate of
    return is infinite, not null; the [dropna] keeps the line and it is
    written to the report, where the claim has the rate undefined and the
    period excluded. *)
Theorem C6_zero_start_stays_ranked :
  exists r,
    In r (generate_performance_report zero_start) /\
    STARTING_MV r = Fin 0 /\ ROR r = PInf /\ is_nan (ROR r) = false.
Proof.
  exists (mkmonthly (lit "Leeder") (mkdate 2022 9 30) (Fin 60) (Fin 5)
                    (Fin 0) PInf).
  split; [now left | repeat split].
Qed.

(** What the code does by the starting market value of a line.  Undefined:
    the rate of return is undefined (no error) and the line is left out of
    the ranking and of the report.  Zero: no error either, but the rate of
    return is undefined only when the numerator is zero or undefined too;
    otherwise it is an infinity and the line takes part in the ranking.  A
    line is left out exactly when its rate of return is undefined. *)
Lemma rate_of_return_by_start (holdings : list Holding) (r : Monthly) :
  In r (monthly_with_ror holdings) ->
  (is_nan (STARTING_MV r) = true ->
   is_nan (ROR r) = true /\
   ~ In r (eligible holdings) /\
   ~ In r (generate_performance_report holdings)) /\
  (forall q, STARTING_MV r = Fin q -> Qeq q 0 ->
     let numerator :=
       fadd (fsub (m_MARKET_VALUE r) (STARTING_MV r)) (m_REALISED_PL r) in
     (ROR r = NaN \/ ROR r = PInf \/ ROR r = NInf) /\
     (ROR r = NaN <->
      numerator = NaN \/ exists p, numerator = Fin p /\ Qeq p 0) /\
     (ROR r <> NaN -> In r (eligible holdings))) /\
  (is_nan (ROR r) = true <-> ~ In r (eligible holdings)).
Proof.
  intros Hr.
  assert (Out : is_nan (ROR r) = true <-> ~ In r (eligible holdings)).
  { rewrite eligible_in. split.
    - intros H [_ H']. congruence.
    - intros H. destruct (is_nan (ROR r)); [reflexivity|].
      destruct H. now split. }
  split; [|split; [|exact Out]].
  - intros Hs.
    destruct (@null_start_excluded holdings r Hr Hs) as [Hn Hrep].
    split; [exact Hn | split; [now apply Out | exact Hrep]].
  - intros q Hq Zq numerator.
    destruct (@monthly_line holdings r Hr) as [_ Ror].
    unfold ror_formula in Ror. fold numerator in Ror.
    rewrite Hq in Ror.
    destruct (@fdiv_by_zero numerator q Zq) as [Cases Nan].
    rewrite <- Ror in Cases, Nan.
    split; [exact Cases | split; [exact Nan|]].
    intros Hne. apply eligible_in. split; [exact Hr|].
    destruct (ROR r); try reflexivity. now destruct Hne.
Qed.

Lemma rate_of_return_by_start_example :
  let r := mkmonthly (lit "Leeder") (mkdate 2022 8 31) (Fin 0) (Fin 0) NaN NaN in
  In r (monthly_with_ror zero_start) /\
  (is_nan (STARTING_MV r) = true ->
   is_nan (ROR r) = true /\
   ~ In r (eligible zero_start) /\
   ~ In r (generate_performance_report zero_start)).
Proof.
  intros r.
  assert (Hr : In r (monthly_with_ror zero_start))
    by (right; right; left; reflexivity).
  split; [exact Hr|].
  exact (proj1 (rate_of_return_by_start zero_start r Hr)).
Defined.

(** C7.  The report has at most one line per reporting period; a selected
    line is an eligible one, and its rate of return is greater than or
    equal to the rate of return of every eligible line of its period; a
    period with an eligible line has its selected line. *)
Theorem C7_best_fund_per_period (holdings : list Holding) :
  NoDup (map m_dt (generate_performance_report holdings)) /\
  (forall r, In r (generate_performance_report holdings) ->
     In r (eligible holdings) /\
     forall e, In e (eligible holdings) -> m_dt e = m_dt r ->
               fge (ROR r) (ROR e) = true) /\
  (forall e, In e (eligible holdings) ->
     exists r, In r (generate_performance_report holdings) /\
               m_dt r = m_dt e).
Proof.
  split; [|split].
  - apply (drop_duplicates_from_nodup m_dt ts_eqb ts_eqb_eq).
  - intros r Hr. destruct (@report_in holdings r Hr) as [He Best].
    split; [exact He|].
    intros e Hel Hdt. specialize (Best e Hel Hdt).
    unfold by_dt_ror_desc, ts_ltb, ts_eqb in Best.
    rewrite Hdt, ts_leb_refl in Best. simpl in Best.
    apply eligible_in in He as [_ Nr]. apply eligible_in in Hel as [_ Ne].
    now rewrite <- (fge_sort_fge _ _ Nr Ne).
  - intros e He.
    apply (sort_values_in by_dt_ror_desc) in He.
    apply (drop_duplicates_from_complete m_dt ts_eqb ts_eqb_eq _ [] e He).
    intros [].
Qed.

Lemma groupby_sum_skips_null_key (before after : list Holding) (h : Holding) :
  FUND_NAME h = None \/ REPORT_DATE h = None ->
  groupby_sum (before ++ h :: after) = groupby_sum (before ++ after).
Proof.
  intros Hnull.
  rewrite <- (groupby_sum_filter (before ++ h :: after)).
  rewrite <- (groupby_sum_filter (before ++ after)).
  rewrite !filter_app. cbn [filter].
  assert (X : has_fund_and_date h = false).
  { unfold has_fund_and_date.
    destruct Hnull as [-> | ->]; [reflexivity | now destruct (FUND_NAME h)]. }
  now rewrite X.
Qed.

(** C10.  A row of the store whose fund name or report date is null can
    be removed without changing the monthly lines or the report; a
    monthly line sums only holdings that have its fund name and its
    report date; every line of the report has a holding with that fund
    name and that report date behind it. *)
Theorem C10_null_keys_excluded :
  (forall before h after,
      FUND_NAME h = None \/ REPORT_DATE h = None ->
      monthly_with_ror (before ++ h :: after)
      = monthly_with_ror (before ++ after) /\
      generate_performance_report (before ++ h :: after)
      = generate_performance_report (before ++ after)) /\
  (forall holdings r,
      In r (monthly_with_ror holdings) ->
      aggregates holdings r /\
      forall h, In h (members (m_FUND_NAME r) (m_REPORT_DATE r) holdings) ->
                FUND_NAME h = Some (m_FUND_NAME r) /\
                REPORT_DATE h = Some (m_REPORT_DATE r)) /\
  (forall holdings r,
      In r (generate_performance_report holdings) ->
      exists h, In h holdings /\
                FUND_NAME h = Some (m_FUND_NAME r) /\
                REPORT_DATE h = Some (m_REPORT_DATE r)).
Proof.
  split; [|split].
  - intros before h after Hnull.
    assert (E : monthly_with_ror (before ++ h :: after)
                = monthly_with_ror (before ++ after)).
    { unfold monthly_with_ror.
      now rewrite (@groupby_sum_skips_null_key before after h Hnull). }
    split; [exact E|].
    unfold generate_performance_report. now rewrite E.
  - intros holdings r Hr.
    destruct (@monthly_line holdings r Hr) as [Agg _].
    split; [exact Agg|].
    intros h Hh. now apply members_in in Hh.
  - intros holdings r Hr.
    apply report_in in Hr as [He _]. apply eligible_in in He as [Hm _].
    destruct (@monthly_line holdings r Hm) as [[Ex _] _]. exact Ex.
Qed.

Lemma C10_null_keys_excluded_witness :
  monthly_with_ror (three_periods ++ holding_without_date :: zero_start)
  = monthly_with_ror (three_periods ++ zero_start) /\
  generate_performance_report
    (three_periods ++ holding_without_date :: zero_start)
  = generate_performance_report (three_periods ++ zero_start).
Proof.
  apply (proj1 C10_null_keys_excluded).
  right. reflexivity.
Defined.

End PerformanceClaims.

(* ================================================================== *)
(** * Further properties of [parse_filename] *)
(* ================================================================== *)

Section ParseFilenameMore.
Import Py Spec InvestmentFunds.

(** ** The text of the report date *)

Lemma to_uint_not_nil (n : nat) : Nat.to_uint n <> Decimal.Nil.
Proof.
  intros H. pose proof (DecimalNat.Unsigned.of_to n) as E.
  rewrite H in E. simpl in E. subst n. discriminate H.
Qed.

Lemma string_of_uint_digits (d : Decimal.uint) :
  digits (list_ascii_of_string (NilEmpty.string_of_uint d)).
Proof.
  unfold digits. induction d; simpl; constructor; auto.
Qed.

Lemma str_of_nat_digits (n : nat) : digits (str_of_nat n).
Proof.
  unfold str_of_nat, NilZero.string_of_uint.
  pose proof (string_of_uint_digits (Nat.to_uint n)) as H.
  destruct (Nat.to_uint n); try exact H.
  repeat constructor.
Qed.

Lemma str_of_nat_inj (n n' : nat) : str_of_nat n = str_of_nat n' -> n = n'.
Proof.
  unfold str_of_nat. intros H.
  apply (f_equal string_of_list_ascii) in H.
  rewrite !string_of_list_ascii_of_string in H.
  apply (f_equal NilZero.uint_of_string) in H.
  rewrite !NilZero.usu in H by apply to_uint_not_nil.
  injection H as H. now apply DecimalNat.Unsigned.to_uint_inj.
Qed.

Lemma digits_no_slash (x : str) : digits x -> ~ In "/"%char x.
Proof.
  unfold digits. rewrite Forall_forall. intros H Hin.
  specialize (H _ Hin). discriminate.
Qed.

Lemma report_date_string_inj (dt dt' : date) :
  report_date_string dt = report_date_string dt' -> dt = dt'.
Proof.
  unfold report_date_string, lit. simpl. intros H.
  apply split_unique in H as [Hm H];
    try (apply digits_no_slash, str_of_nat_digits).
  apply split_unique in H as [Hd Hy];
    try (apply digits_no_slash, str_of_nat_digits).
  apply str_of_nat_inj in Hm, Hd, Hy.
  destruct dt, dt'. simpl in *. congruence.
Qed.

(** X1.  The text [parse_filename] writes for a report date, month/day/year
    in decimal without leading zeros, determines the date: two dates are
    printed alike only if they have the same day, month and year. *)
Theorem X1_report_date_text_determines_date (dt dt' : date) :
  report_date_string dt = report_date_string dt' <-> dt = dt'.
Proof.
  split; [apply report_date_string_inj | now intros ->].
Qed.

(** X2.  A date that [parse_filename] returns is a real calendar date
    (month 1 to 12, day within the month, 29 February in leap years only,
    year 1 to 9999) whose day is at least 28, printed month/day/year. *)
Theorem X2_returned_date_is_valid (filename s : str) :
  snd (parse_filename filename) = Some s ->
  exists dt,
    s = report_date_string dt /\
    valid_date dt = true /\
    28 <= day dt <= days_in_month (year dt) (month dt) /\
    days_in_month (year dt) (month dt) <= 31.
Proof.
  rewrite parse_filename_date.
  destruct (re_search date_pattern filename) as [raw|]; [|discriminate].
  unfold standardize_date.
  destruct (first_accepted (sub_non_digits raw) formats) as [dt|] eqn:E;
    [|discriminate].
  intros [= <-]. exists dt.
  apply first_accepted_sound in E as (_ & fmt & _ & _ & [P D] & _).
  apply strptime_sound in P as (f & _ & _ & V).
  split; [reflexivity | split; [exact V|]].
  apply valid_date_bounds in V as (_ & _ & Hd).
  split; [lia|].
  unfold days_in_month.
  destruct (month dt) as [|[|[|[|[|[|[|[|[|[|[|[|m]]]]]]]]]]]];
    try destruct (is_leap (year dt)); lia.
Qed.

Lemma X2_returned_date_is_valid_witness :
  exists dt,
    lit "2/29/2024" = report_date_string dt /\
    valid_date dt = true /\
    28 <= day dt <= days_in_month (year dt) (month dt) /\
    days_in_month (year dt) (month dt) <= 31.
Proof.
  apply (X2_returned_date_is_valid (lit "Leeder 2024/02/29.csv")).
  reflexivity.
Defined.

(** ** The date token *)

Lemma rmatch_seq (r1 r2 : regex) (x m rest : str) :
  In (m, rest) (rmatch (Seq r1 r2) x) ->
  exists m1 m2 mid,
    m = m1 ++ m2 /\ In (m1, mid) (rmatch r1 x) /\
    In (m2, rest) (rmatch r2 mid).
Proof.
  simpl. intros H. apply in_flat_map in H as [[m1 mid] [H1 H]].
  apply in_map_iff in H as [[m2 rest'] [[= <- <-] H2]].
  now exists m1, m2, mid.
Qed.

Lemma rmatch_cls (p : ascii -> bool) (x m rest : str) :
  In (m, rest) (rmatch (Cls p) x) ->
  exists c, m = [c] /\ p c = true /\ x = c :: rest.
Proof.
  simpl. destruct x as [|c x]; [intros []|].
  destruct (p c) eqn:Pc; [|intros []].
  intros [[= <- <-] | []]. now exists c.
Qed.

Lemma rmatch_alt (r1 r2 : regex) (x m rest : str) :
  In (m, rest) (rmatch (Alt r1 r2) x) ->
  In (m, rest) (rmatch r1 x) \/ In (m, rest) (rmatch r2 x).
Proof. simpl. apply in_app_or. Qed.

Lemma rmatch_rep (p : ascii -> bool) (lo hi : nat) (x m rest : str) :
  In (m, rest) (rmatch (Rep p lo hi) x) ->
  Forall (fun c => p c = true) m /\ lo <= List.length m <= hi.
Proof. simpl. intros H. now apply rep_matches_sound in H as (_ & Hp & L). Qed.

Lemma date_pattern_shape (x m rest : str) :
  In (m, rest) (rmatch date_pattern x) -> token_shape m.
Proof.
  unfold date_pattern. intros H.
  apply rmatch_alt in H as [H | H].
  - apply rmatch_rep in H as (Hd & L).
    left. split; [lia | exact Hd].
  - right.
    apply rmatch_seq in H as (a & m1 & x1 & -> & Ha & H).
    apply rmatch_seq in H as (t1 & m2 & x2 & -> & Hs1 & H).
    apply rmatch_seq in H as (b & m3 & x3 & -> & Hb & H).
    apply rmatch_seq in H as (t2 & c & x4 & -> & Hs2 & Hc).
    apply rmatch_cls in Hs1 as (s1 & -> & S1 & _).
    apply rmatch_cls in Hs2 as (s2 & -> & S2 & _).
    apply rmatch_rep in Ha as (Da & La).
    apply rmatch_rep in Hb as (Db & Lb).
    apply rmatch_rep in Hc as (Dc & Lc).
    exists a, s1, b, s2, c. simpl. repeat split; auto; lia.
Qed.

(** [re.search] reports the leftmost match. *)
Lemma re_search_sound (r : regex) (x m : str) :
  re_search r x = Some m ->
  exists pre rest,
    x = pre ++ m ++ rest /\
    In (m, rest) (rmatch r (m ++ rest)) /\
    no_earlier_match r pre (m ++ rest).
Proof.
  induction x as [|c x IH]; cbn [re_search].
  - destruct (rmatch r []) as [|[m0 rest0] l] eqn:E; [discriminate|].
    intros [= ->]. exists [], rest0.
    assert (H : In (m, rest0) (rmatch r [])) by (rewrite E; now left).
    pose proof (@rmatch_sound r [] m rest0 H) as (Ex & _).
    simpl. rewrite <- Ex. repeat split; auto.
    intros pre1 pre2 Hp N. destruct pre1, pre2; try discriminate.
    now destruct N.
  - destruct (rmatch r (c :: x)) as [|[m0 rest0] l] eqn:E.
    + intros H. destruct (IH H) as (pre & rest & -> & Hin & No).
      exists (c :: pre), rest. repeat split; auto.
      intros pre1 pre2 Hp N. destruct pre1 as [|c1 pre1].
      * simpl in Hp. subst pre2. exact E.
      * injection Hp as _ Hp. now apply (No pre1 pre2).
    + intros [= ->]. exists [], rest0.
      assert (H : In (m, rest0) (rmatch r (c :: x))) by (rewrite E; now left).
      pose proof (@rmatch_sound r (c :: x) m rest0 H) as (Ex & _).
      simpl. rewrite <- Ex. repeat split; auto.
      intros pre1 pre2 Hp N. destruct pre1, pre2; try discriminate.
      now destruct N.
Qed.

(** X3.  The date token [parse_filename] works on is a stretch of the
    file name, made of eight digits, or of digit groups of 2 to 4, 2 and
    2 to 4 digits with one separator between them, and no such stretch
    starts further left in the name. *)
Theorem X3_token_is_leftmost_match (filename raw : str) :
  re_search date_pattern filename = Some raw ->
  exists pre rest,
    filename = pre ++ raw ++ rest /\
    token_shape raw /\
    no_earlier_match date_pattern pre (raw ++ rest).
Proof.
  intros H. apply re_search_sound in H as (pre & rest & E & Hin & No).
  exists pre, rest. repeat split; auto.
  now apply (@date_pattern_shape (raw ++ rest) raw rest Hin).
Qed.

Lemma X3_token_is_leftmost_match_witness :
  exists pre rest,
    lit "v2_Gohen 31.12.2022 final.csv" = pre ++ lit "31.12.2022" ++ rest /\
    token_shape (lit "31.12.2022") /\
    no_earlier_match date_pattern pre (lit "31.12.2022" ++ rest).
Proof.
  apply X3_token_is_leftmost_match. reflexivity.
Defined.

Lemma digits_no_hyphen (x : str) : digits x -> ~ In "-"%char x.
Proof.
  unfold digits. rewrite Forall_forall. intros H Hin.
  specialize (H _ Hin). discriminate.
Qed.

Lemma sub_non_digits_digits (x : str) : digits x -> sub_non_digits x = x.
Proof.
  unfold digits, sub_non_digits. induction 1 as [|c x Hc _ IH]; simpl;
    [reflexivity|]. now rewrite Hc, IH.
Qed.

Ltac compute_codes :=
  repeat match goal with
         | H : context [code (Ascii ?a ?b ?c ?d ?e ?f ?g ?h)] |- _ =>
             let v := eval vm_compute in (code (Ascii a b c d e f g h)) in
             change (code (Ascii a b c d e f g h)) with v in H
         end.

Lemma is_sep_not_digit (c : ascii) : is_sep c = true -> is_digit c = false.
Proof.
  unfold is_sep, is_space, is_char.
  rewrite !orb_true_iff, !Ascii.eqb_eq, !in_range_spec.
  intros H. destruct (is_digit c) eqn:D; [|reflexivity].
  apply in_range_spec in D.
  destruct H as [[[[[<- | <-] | <-] | <-] | <-] | [[H | H] | <-]];
    compute_codes; lia.
Qed.

(** Normalizing a delimited token keeps its digit groups. *)
Lemma sub_non_digits_delimited (a b c : str) (s1 s2 : ascii) :
  digits a -> digits b -> digits c ->
  is_sep s1 = true -> is_sep s2 = true ->
  sub_non_digits (a ++ s1 :: b ++ s2 :: c)
  = a ++ "-"%char :: b ++ "-"%char :: c.
Proof.
  intros Da Db Dc S1 S2. unfold sub_non_digits.
  rewrite map_app. cbn [map]. rewrite map_app. cbn [map].
  fold (sub_non_digits a) (sub_non_digits b) (sub_non_digits c).
  rewrite !sub_non_digits_digits by assumption.
  now rewrite (@is_sep_not_digit s1 S1), (@is_sep_not_digit s2 S2).
Qed.

(** A delimited token that a hyphenated layout parses has groups of the
    captured lengths. *)
Lemma delimited_token_groups (d1 d2 d3 : directive) (a b c : str) (dt : date) :
  digits a -> digits b -> digits c ->
  strptime (a ++ "-"%char :: b ++ "-"%char :: c)
           [FDir d1; FLit "-"; FDir d2; FLit "-"; FDir d3] = Some dt ->
  captured d1 a /\ captured d2 b /\ captured d3 c.
Proof.
  intros Da Db Dc H.
  apply strptime_delimited in H as (a' & b' & c' & E & Ca & Cb & Cc & _).
  apply split_unique in E as [<- E];
    [| now apply digits_no_hyphen | apply Ca].
  apply split_unique in E as [<- <-];
    [| now apply digits_no_hyphen | apply Cb].
  auto.
Qed.

Lemma two_digit_year_not_four (m : str) :
  two_digit_year_token m -> ~ four_digit_year_token m.
Proof.
  intros (a & s1 & b & s2 & c & -> & S1 & _ & La & Lb & Lc) [[_ D] | F].
  - unfold digits in D. rewrite Forall_forall in D.
    assert (X : is_digit s1 = true) by (apply D, in_elt).
    rewrite (@is_sep_not_digit s1 S1) in X. discriminate.
  - destruct F as (a' & s1' & b' & s2' & c' & E & _ & _ & _ & _ & _ & Lb' & L).
    apply (f_equal (@List.length ascii)) in E.
    rewrite !length_app in E. cbn [List.length] in E.
    rewrite !length_app in E. cbn [List.length] in E. lia.
Qed.

(** X4.  A file name gives a report date only through a token of eight
    digits, or of ten characters in which a two-digit group and a
    four-digit group stand around a two-digit group (the four-digit group
    is the year).  A delimited token with a two-digit year, as in
    31-12-22, never gives a date. *)
Theorem X4_date_needs_four_digit_year (filename s : str) :
  snd (parse_filename filename) = Some s ->
  exists raw,
    re_search date_pattern filename = Some raw /\
    four_digit_year_token raw /\
    ~ two_digit_year_token raw.
Proof.
  rewrite parse_filename_date.
  destruct (re_search date_pattern filename) as [raw|] eqn:R; [|discriminate].
  intros H. exists raw. split; [reflexivity|].
  assert (F : four_digit_year_token raw).
  { apply re_search_sound in R as (_ & rest & _ & Hin & _).
    apply date_pattern_shape in Hin.
    destruct Hin as [[L D] | (a & s1 & b & s2 & c & -> & Da & Db & Dc & S1 & S2
                              & La & Lb & Lc)]; [now left | right].
    unfold standardize_date in H.
    rewrite (@sub_non_digits_delimited a b c s1 s2 Da Db Dc S1 S2) in H.
    destruct (first_accepted _ formats) as [dt|] eqn:E; [|discriminate].
    apply first_accepted_sound in E as (earlier & fmt & later & Ef & [P _] & _).
    assert (Hin : In fmt formats) by (rewrite Ef; apply in_elt).
    exists a, s1, b, s2, c.
    split; [reflexivity|]. split; [exact Da|]. split; [exact Db|].
    split; [exact Dc|]. split; [exact S1|]. split; [exact S2|].
    split; [exact Lb|].
    unfold formats in Hin. simpl in Hin.
    destruct Hin as [<- | [<- | [<- | [<- | []]]]].
    - destruct (@delimited_token_groups _ _ _ a b c dt Da Db Dc P)
        as ([_ L1] & _ & [_ L3]). simpl in L1, L3. lia.
    - destruct (@delimited_token_groups _ _ _ a b c dt Da Db Dc P)
        as ([_ L1] & _ & [_ L3]). simpl in L1, L3. lia.
    - destruct (@delimited_token_groups _ _ _ a b c dt Da Db Dc P)
        as ([_ L1] & _ & [_ L3]). simpl in L1, L3. lia.
    - exfalso. apply strptime_compact in P. apply P.
      rewrite in_app_iff. right. now left. }
  split; [exact F|]. intros T. exact (two_digit_year_not_four T F).
Qed.

Lemma X4_date_needs_four_digit_year_witness :
  exists raw,
    re_search date_pattern (lit "Magnum-30-11-2022.csv") = Some raw /\
    four_digit_year_token raw /\
    ~ two_digit_year_token raw.
Proof.
  apply (@X4_date_needs_four_digit_year (lit "Magnum-30-11-2022.csv")
                                        (lit "11/30/2022")).
  reflexivity.
Defined.

(** ** Letter case *)

Lemma same_letter_cases (c c' : ascii) :
  same_letter c c' -> c = c' \/ (letter c /\ letter c').
Proof.
  unfold same_letter, letter.
  intros [-> | [[U E] | [U E]]]; [now left | right | right];
    apply is_upper_spec in U; lia.
Qed.

Lemma no_letter_respects_case (p : ascii -> bool) :
  (forall c, letter c -> p c = false) -> class_respects_case p.
Proof.
  intros H c c' S. apply same_letter_cases in S as [-> | [L L']].
  - auto.
  - rewrite (H c L), (H c' L'). split; [reflexivity | discriminate].
Qed.

Lemma is_digit_respects_case : class_respects_case is_digit.
Proof.
  apply no_letter_respects_case. intros c L.
  destruct (is_digit c) eqn:D; [|reflexivity].
  apply in_range_spec in D. unfold letter in L. compute_codes. lia.
Qed.

Lemma is_sep_respects_case : class_respects_case is_sep.
Proof.
  apply no_letter_respects_case. intros c L.
  destruct (is_sep c) eqn:S; [|reflexivity].
  unfold is_sep, is_space, is_char in S.
  rewrite !orb_true_iff, !Ascii.eqb_eq, !in_range_spec in S.
  unfold letter in L.
  destruct S as [[[[[<- | <-] | <-] | <-] | <-] | [[H | H] | <-]];
    compute_codes;
    try match goal with
        | H : context [code ?x] |- _ =>
            is_var x; fail 1
        | L : _ \/ _ |- _ => vm_compute in L
        end; lia.
Qed.

Lemma date_pattern_respects_case : regex_respects_case date_pattern.
Proof.
  unfold date_pattern. cbn [regex_respects_case].
  split; [apply is_digit_respects_case|].
  split; [apply is_digit_respects_case|].
  split; [apply is_sep_respects_case|].
  split; [apply is_digit_respects_case|].
  split; [apply is_sep_respects_case | apply is_digit_respects_case].
Qed.

Lemma Forall2_flat_map {A A' B B'} (R : A -> A' -> Prop) (S : B -> B' -> Prop)
      (f : A -> list B) (g : A' -> list B') (l : list A) (l' : list A') :
  (forall a a', R a a' -> Forall2 S (f a) (g a')) ->
  Forall2 R l l' -> Forall2 S (flat_map f l) (flat_map g l').
Proof.
  intros H. induction 1 as [|a a' l l' Ha _ IH]; simpl; [constructor|].
  apply Forall2_app; [now apply H | exact IH].
Qed.

Lemma Forall2_map {A A' B B'} (R : A -> A' -> Prop) (S : B -> B' -> Prop)
      (f : A -> B) (g : A' -> B') (l : list A) (l' : list A') :
  (forall a a', R a a' -> S (f a) (g a')) ->
  Forall2 R l l' -> Forall2 S (map f l) (map g l').
Proof.
  intros H. induction 1 as [|a a' l l' Ha _ IH]; simpl; constructor; auto.
Qed.

Lemma rep_matches_case (p : ascii -> bool) :
  class_respects_case p ->
  forall hi lo x y,
    Forall2 same_letter x y ->
    Forall2 same_match (rep_matches p lo hi x) (rep_matches p lo hi y).
Proof.
  intros Hp.
  assert (Stop : forall lo (x y : str),
             Forall2 same_letter x y ->
             Forall2 same_match (if lo =? 0 then [(@nil ascii, x)] else [])
                                (if lo =? 0 then [(@nil ascii, y)] else [])).
  { intros lo x y H. destruct (lo =? 0); repeat constructor. exact H. }
  induction hi as [|hi IH]; intros lo x y H; cbn [rep_matches].
  - now apply Stop.
  - destruct H as [|c c' x y Hc Hxy]; [now apply Stop; constructor|].
    destruct (Hp c c' Hc) as [E T]. rewrite <- E.
    destruct (p c) eqn:Pc.
    + rewrite <- (T eq_refl).
      apply Forall2_app; [|apply Stop; constructor; auto].
      * apply (Forall2_map (R := same_match)); [|now apply IH].
        intros [m r] [m' r'] [Em Er]. simpl in *. subst m'.
        split; [reflexivity | exact Er].
      * rewrite (T eq_refl) in Hc |- *. exact Hc.
    + apply Stop. now constructor.
Qed.

(** Matching does not depend on the case of letters. *)
Lemma rmatch_case (r : regex) :
  regex_respects_case r ->
  forall x y,
    Forall2 same_letter x y ->
    Forall2 same_match (rmatch r x) (rmatch r y).
Proof.
  induction r as [p | r1 IH1 r2 IH2 | r1 IH1 r2 IH2 | p lo hi];
    cbn [regex_respects_case rmatch]; intros Hr x y H.
  - destruct H as [|c c' x y Hc Hxy]; [constructor|].
    destruct (Hr c c' Hc) as [E T]. rewrite <- E.
    destruct (p c); [|constructor].
    rewrite <- (T eq_refl). repeat constructor. exact Hxy.
  - destruct Hr as [H1 H2].
    apply (Forall2_flat_map (R := same_match)); [|now apply IH1].
    intros [m1 x1] [m1' y1] [Em Er]. simpl in *. subst m1'.
    apply (Forall2_map (R := same_match)); [|now apply IH2].
    intros [m2 x2] [m2' y2] [Em2 Er2]. simpl in *. subst m2'.
    split; [reflexivity | exact Er2].
  - destruct Hr as [H1 H2]. apply Forall2_app; [now apply IH1 | now apply IH2].
  - now apply rep_matches_case.
Qed.

Lemma re_search_case (r : regex) :
  regex_respects_case r ->
  forall x y, Forall2 same_letter x y -> re_search r x = re_search r y.
Proof.
  intros Hr x y H. induction H as [|c c' x y Hc Hxy IH].
  - pose proof (rmatch_case r Hr (Forall2_nil same_letter)) as M.
    cbn [re_search]. destruct M as [|[m r0] [m' r0'] ? ? [Em _] _];
      [reflexivity|]. simpl in Em. now subst.
  - pose proof (rmatch_case r Hr (Forall2_cons c c' Hc Hxy)) as M.
    cbn [re_search]. destruct M as [|[m r0] [m' r0'] ? ? [Em _] _];
      [exact IH|]. simpl in Em. now subst.
Qed.

(** X5.  [parse_filename] does not depend on the case of the letters of
    the file name: two names that differ only in letter case give the
    same fund name and the same report date. *)
Theorem X5_parse_filename_ignores_case (a b : str) :
  Forall2 same_letter a b -> parse_filename a = parse_filename b.
Proof.
  intros H. unfold parse_filename, find_fund_name.
  rewrite (proj2 (lower_eq_iff a b) H).
  now rewrite (re_search_case date_pattern date_pattern_respects_case H).
Qed.

Lemma X5_parse_filename_ignores_case_witness :
  parse_filename (lit "ab") = parse_filename (lit "Ab").
Proof.
  apply X5_parse_filename_ignores_case.
  constructor; [right; right; split; reflexivity|].
  constructor; [now left | constructor].
Defined.

End ParseFilenameMore.

(* ================================================================== *)
(** * More on [validate_dataframe] *)
(* ================================================================== *)

Section FrameFacts.
Import Py Pd Effects Spec InvestmentFunds.

Lemma str_eqb_refl (a : str) : str_eqb a a = true.
Proof. now apply str_eqb_eq. Qed.

Lemma str_eqb_neq (a b : str) : a <> b -> str_eqb a b = false.
Proof.
  intros H. destruct (str_eqb a b) eqn:E; [|reflexivity].
  apply str_eqb_eq in E. contradiction.
Qed.

Lemma find_replace_same (name : str) (c : column) (cols : list (str * column)) :
  find (fun nc => str_eqb (fst nc) name) (replace_column name c cols)
  = Some (name, c).
Proof.
  induction cols as [|nc cols IH]; simpl.
  - now rewrite str_eqb_refl.
  - destruct (str_eqb (fst nc) name) eqn:E; simpl.
    + now rewrite str_eqb_refl.
    + now rewrite E.
Qed.

Lemma find_replace_other (name name' : str) (c : column)
                         (cols : list (str * column)) :
  name <> name' ->
  find (fun nc => str_eqb (fst nc) name') (replace_column name c cols)
  = find (fun nc => str_eqb (fst nc) name') cols.
Proof.
  intros N. induction cols as [|nc cols IH]; simpl.
  - now rewrite (str_eqb_neq N).
  - destruct (str_eqb (fst nc) name) eqn:E; simpl.
    + apply str_eqb_eq in E. rewrite E. now rewrite (str_eqb_neq N).
    + now rewrite IH.
Qed.

Lemma getitem_setitem_same (df : DataFrame) (name : str) (c : column) :
  getitem (setitem df name c) name = Ok c.
Proof. unfold getitem, setitem. simpl. now rewrite find_replace_same. Qed.

Lemma getitem_setitem_other (df : DataFrame) (name name' : str) (c : column) :
  name <> name' -> getitem (setitem df name c) name' = getitem df name'.
Proof.
  intros N. unfold getitem, setitem. simpl. now rewrite (find_replace_other c _ N).
Qed.

Lemma column_names_setitem (df : DataFrame) (name : str) (c : column) :
  has_column df name = true ->
  column_names (setitem df name c) = column_names df.
Proof.
  unfold column_names, has_column, setitem. simpl.
  induction (columns df) as [|nc cols IH]; simpl; [discriminate|].
  destruct (str_eqb (fst nc) name) eqn:E; simpl.
  - intros _. apply str_eqb_eq in E. now rewrite E.
  - intros H. f_equal. now apply IH.
Qed.

Lemma has_column_names (df : DataFrame) (name : str) :
  has_column df name = existsb (fun n => str_eqb n name) (column_names df).
Proof.
  unfold has_column, column_names.
  induction (columns df) as [|nc cols IH]; simpl; congruence.
Qed.

Lemma existsb_str_eqb_in (name : str) (l : list str) :
  In name l -> existsb (str_eqb name) l = true.
Proof.
  intros H. apply existsb_exists. exists name. split; [exact H|].
  apply str_eqb_refl.
Qed.

End FrameFacts.

Section ValidateDataframeMore.
Import Py Pd Effects Spec InvestmentFunds.
Variable parse_float : str -> float.

Lemma to_numeric_numeric (c : column) :
  is_numeric_dtype c = true -> to_numeric parse_float c = c.
Proof. destruct c; simpl; [reflexivity | discriminate]. Qed.

Lemma to_numeric_is_numeric (c : column) :
  is_numeric_dtype (to_numeric parse_float c) = true.
Proof. now destruct c. Qed.

Lemma to_numeric_idem (c : column) :
  to_numeric parse_float (to_numeric parse_float c) = to_numeric parse_float c.
Proof. now destruct c. Qed.

(** The loop over the numeric columns, when they are all there: the frame
    keeps its rows and its column names; a column of the loop ends up
    numeric, the others are as they were. *)
Lemma coerce_numeric_cols_frame (filename : str) (cols : list str) :
  forall df,
    (forall col, In col cols -> has_column df col = true) ->
    exists df' l,
      effect (coerce_numeric_cols parse_float filename cols df) (Ok df') [] l /\
      nrows df' = nrows df /\
      column_names df' = column_names df /\
      (forall col c, getitem df col = Ok c ->
         getitem df' col
         = Ok (if existsb (str_eqb col) cols
               then to_numeric parse_float c else c)) /\
      ((forall col c, In col cols -> getitem df col = Ok c ->
                      is_numeric_dtype c = true) ->
       df' = df /\ l = []).
Proof.
  induction cols as [|col cols IH]; intros df Hall; cbn [coerce_numeric_cols].
  - exists df, []. split; [apply effect_ret|]. repeat split; auto.
  - assert (Hc : has_column df col = true) by (apply Hall; now left).
    destruct (getitem_ok _ _ Hc) as [c Gc].
    destruct (is_numeric_dtype c) eqn:Nc.
    + destruct (IH df) as (df' & l & E & Hn & Hnames & Hget & Hfix).
      { intros c0 H0. apply Hall. now right. }
      exists df', l. split; [|split; [exact Hn | split; [exact Hnames | split]]].
      * intros w. unfold bind, lift. rewrite Gc, Nc. apply E.
      * intros name c0 G0. rewrite (Hget name c0 G0). cbn [existsb].
        destruct (str_eqb name col) eqn:En; simpl; [|reflexivity].
        apply str_eqb_eq in En. subst name. rewrite Gc in G0.
        injection G0 as <-. rewrite (to_numeric_numeric _ Nc).
        now destruct (existsb (str_eqb col) cols).
      * intros Hnum. apply Hfix. intros c0 c1 H0. apply Hnum. now right.
    + destruct (IH (setitem df col (to_numeric parse_float c)))
        as (df' & l & E & Hn & Hnames & Hget & Hfix).
      { intros c0 H0. rewrite has_column_setitem, Hall; [reflexivity|].
        now right. }
      exists df', (WarnNotNumeric col filename :: l).
      split; [|split; [exact Hn | split; [|split]]].
      * intros w. unfold bind, lift. rewrite Gc, Nc.
        unfold logging. rewrite E. simpl. now rewrite <- app_assoc.
      * rewrite Hnames. now apply column_names_setitem.
      * intros name c0 G0. cbn [existsb].
        destruct (str_eqb name col) eqn:En.
        -- apply str_eqb_eq in En. subst name. rewrite Gc in G0.
           injection G0 as <-.
           rewrite (Hget col _ (getitem_setitem_same df col _)).
           rewrite to_numeric_idem. simpl.
           now destruct (existsb (str_eqb col) cols).
        -- assert (N : col <> name).
           { intros ->. now rewrite str_eqb_refl in En. }
           rewrite (Hget name c0); [reflexivity|].
           now rewrite (getitem_setitem_other df _ N).
      * intros Hnum. rewrite (Hnum col c) in Nc; [discriminate | now left | exact Gc].
Qed.

(** [validate_dataframe] on a frame that has the four numeric columns. *)
Lemma validate_dataframe_frame (df : DataFrame) (fund_name : option str)
                               (filename : str) :
  (forall col, In col numeric_cols -> has_column df col = true) ->
  exists df' l,
    effect (validate_dataframe parse_float df fund_name filename)
           (Ok (true, df')) [] l /\
    nrows df' = nrows df /\
    column_names df' = column_names df /\
    (forall col c, getitem df col = Ok c ->
       getitem df' col
       = Ok (if existsb (str_eqb col) numeric_cols
             then to_numeric parse_float c else c)) /\
    ((forall col c, In col numeric_cols -> getitem df col = Ok c ->
                    is_numeric_dtype c = true) ->
     df' = df /\ forall col f, ~ In (WarnNotNumeric col f) l).
Proof.
  intros Hall. unfold validate_dataframe.
  remember (filter (fun col => negb (has_column df col)) fund_cols)
    as missing eqn:M.
  assert (E0 : exists l0,
             effect (match missing with
                     | [] => ret tt
                     | _ :: _ =>
                         logging (WarnMissingColumns filename fund_name missing)
                     end) (Ok tt) [] l0 /\
             forall col f, ~ In (WarnNotNumeric col f) l0).
  { destruct missing as [|m0 ms].
    - exists []. split; [apply effect_ret | intros col f []].
    - eexists. split; [apply effect_logging|].
      intros col f [H | []]. discriminate. }
  destruct E0 as (l0 & E0 & W0).
  destruct (@coerce_numeric_cols_frame filename numeric_cols df Hall)
    as (df' & l1 & E1 & Hn & Hnames & Hget & Hfix).
  assert (Hp : has_column df' (lit "PRICE") = true).
  { rewrite has_column_names, Hnames, <- has_column_names.
    apply Hall. simpl. tauto. }
  destruct (getitem_ok _ _ Hp) as [price Gp].
  assert (E2 : exists l2,
             effect (if column_has_null price
                     then logging (WarnNullPrices filename) else ret tt)
                    (Ok tt) [] l2 /\
             forall col f, ~ In (WarnNotNumeric col f) l2).
  { destruct (column_has_null price); eexists;
      (split; [first [apply effect_logging | apply effect_ret]|]).
    - intros col f [H | []]. discriminate.
    - intros col f []. }
  destruct E2 as (l2 & E2 & W2).
  exists df', (l0 ++ l1 ++ [] ++ l2 ++ []).
  split; [|split; [exact Hn | split; [exact Hnames | split; [exact Hget|]]]].
  - change (@nil Row) with (@nil Row ++ ([] ++ ([] ++ ([] ++ [])))).
    eapply effect_bind_ok; [exact E0|].
    eapply effect_bind_ok; [exact E1|].
    eapply effect_bind_ok; [rewrite <- Gp; apply effect_lift|].
    eapply effect_bind_ok; [exact E2 | apply effect_ret].
  - intros Hnum. destruct (Hfix Hnum) as [-> ->]. split; [reflexivity|].
    intros col f Hin. rewrite !in_app_iff in Hin.
    destruct Hin as [H | [[] | [[] | [H | []]]]].
    + exact (W0 col f H).
    + exact (W2 col f H).
Qed.

(** A validation that returns had the four numeric columns. *)
Lemma validate_dataframe_ok_columns (df : DataFrame) (fund_name : option str)
      (filename : str) (w w' : World) (x : bool * DataFrame) :
  validate_dataframe parse_float df fund_name filename w = (Ok x, w') ->
  forall col, In col numeric_cols -> has_column df col = true.
Proof.
  intros H col Hin. destruct (has_column df col) eqn:Hc; [reflexivity|].
  destruct (validate_dataframe_effect parse_float df fund_name filename)
    as (r & l & E & _ & Hbad & _).
  destruct (Hbad col Hin Hc) as (col' & _ & ->).
  rewrite E in H. discriminate.
Qed.

End ValidateDataframeMore.

Section ValidateDataframeProperties.
Import Py Pd Effects Spec InvestmentFunds.

(** X6.  On a frame that has the four numeric columns [validate_dataframe]
    returns [True] and leaves the store alone; the frame keeps its number
    of rows and its column names; each of the four numeric columns is
    numeric afterwards (numbers as they were, text parsed, what is no
    number made null) and every other column is as it was. *)
Theorem X6_validate_dataframe_coerces (parse_float : str -> float)
        (df : DataFrame) (fund_name : option str) (filename : str)
        (w : World) :
  (forall col, In col numeric_cols -> has_column df col = true) ->
  exists df' w',
    validate_dataframe parse_float df fund_name filename w
    = (Ok (true, df'), w') /\
    store w' = store w /\
    nrows df' = nrows df /\
    column_names df' = column_names df /\
    (forall col c, In col numeric_cols -> getitem df col = Ok c ->
       getitem df' col = Ok (to_numeric parse_float c) /\
       is_numeric_dtype (to_numeric parse_float c) = true) /\
    (forall col, ~ In col numeric_cols -> getitem df' col = getitem df col).
Proof.
  intros Hall.
  destruct (@validate_dataframe_frame parse_float df fund_name filename Hall)
    as (df' & l & E & Hn & Hnames & Hget & _).
  exists df'. eexists. rewrite E.
  split; [reflexivity|]. cbn [store]. rewrite app_nil_r.
  split; [reflexivity | split; [exact Hn | split; [exact Hnames | split]]].
  - intros col c Hin G. rewrite (Hget col c G).
    rewrite (existsb_str_eqb_in _ _ Hin).
    split; [reflexivity | apply to_numeric_is_numeric].
  - intros col Nin.
    assert (X : existsb (str_eqb col) numeric_cols = false).
    { destruct (existsb (str_eqb col) numeric_cols) eqn:X; [|reflexivity].
      apply existsb_exists in X as (c0 & Hin & Ec).
      apply str_eqb_eq in Ec. subst c0. contradiction. }
    destruct (has_column df col) eqn:Hc.
    + destruct (getitem_ok _ _ Hc) as [c G].
      rewrite G, (Hget col c G), X. reflexivity.
    + rewrite (getitem_missing _ _ Hc). apply getitem_missing.
      now rewrite has_column_names, Hnames, <- has_column_names.
Qed.

(** X7.  Validation is idempotent: validating again the frame that
    [validate_dataframe] left gives the same frame, and no column is
    reported as non-numeric the second time. *)
Theorem X7_validate_dataframe_idempotent (parse_float : str -> float)
        (df : DataFrame) (fund_name : option str) (filename : str)
        (w w' : World) (v : bool) (df' : DataFrame) :
  validate_dataframe parse_float df fund_name filename w
  = (Ok (v, df'), w') ->
  forall w2, exists l,
    validate_dataframe parse_float df' fund_name filename w2
    = (Ok (true, df'), mkworld (store w2) (log w2 ++ l)) /\
    forall col f, ~ In (WarnNotNumeric col f) l.
Proof.
  intros H w2.
  pose proof (@validate_dataframe_ok_columns parse_float _ _ _ _ _ _ H) as Hall.
  destruct (@validate_dataframe_frame parse_float df fund_name filename Hall)
    as (df1 & l1 & E1 & _ & Hnames & Hget & _).
  rewrite E1 in H. injection H as _ <- _.
  assert (Hall' : forall col, In col numeric_cols -> has_column df1 col = true).
  { intros col Hin.
    rewrite has_column_names, Hnames, <- has_column_names. now apply Hall. }
  destruct (@validate_dataframe_frame parse_float df1 fund_name filename Hall')
    as (df2 & l2 & E2 & _ & _ & _ & Hfix).
  destruct Hfix as [-> Hlog].
  { intros col c' Hin G'.
    destruct (getitem_ok _ _ (Hall col Hin)) as [c G].
    rewrite (Hget col c G), (existsb_str_eqb_in _ _ Hin) in G'.
    injection G' as <-. apply to_numeric_is_numeric. }
  exists l2. split; [|exact Hlog].
  rewrite E2. cbn [store]. now rewrite app_nil_r.
Qed.

Lemma X6_validate_dataframe_coerces_witness :
  exists df' w',
    validate_dataframe (fun _ => NaN) frame_text_price None
                       (lit "Leeder_2022-01-31.csv") empty_world
    = (Ok (true, df'), w') /\
    store w' = store empty_world /\
    nrows df' = nrows frame_text_price /\
    column_names df' = column_names frame_text_price /\
    (forall col c, In col numeric_cols ->
       getitem frame_text_price col = Ok c ->
       getitem df' col = Ok (to_numeric (fun _ => NaN) c) /\
       is_numeric_dtype (to_numeric (fun _ => NaN) c) = true) /\
    (forall col, ~ In col numeric_cols ->
       getitem df' col = getitem frame_text_price col).
Proof.
  apply (@X6_validate_dataframe_coerces (fun _ => NaN)).
  intros col [<- | [<- | [<- | [<- | []]]]]; reflexivity.
Defined.

Lemma X7_validate_dataframe_idempotent_witness :
  let df' := setitem frame_text_price (lit "PRICE") (NumCol [NaN; NaN]) in
  exists l,
    validate_dataframe (fun _ => NaN) df' None (lit "Leeder_2022-01-31.csv")
                       empty_world
    = (Ok (true, df'), mkworld (store empty_world) (log empty_world ++ l)) /\
    forall col f, ~ In (WarnNotNumeric col f) l.
Proof.
  intros df'.
  apply (@X7_validate_dataframe_idempotent
           (fun _ => NaN) frame_text_price None (lit "Leeder_2022-01-31.csv")
           empty_world
           (snd (validate_dataframe (fun _ => NaN) frame_text_price None
                   (lit "Leeder_2022-01-31.csv") empty_world))
           true df').
  reflexivity.
Defined.

End ValidateDataframeProperties.

(* ================================================================== *)
(** * More on [ingest_csv] *)
(* ================================================================== *)

Section IngestCsvMore.
Import Py Pd Effects Spec InvestmentFunds.
Variable parse_float : str -> float.
Variable fs : FileSystem.

Lemma endswith_spec (x suffix : str) :
  endswith x suffix = true <-> exists stem, x = stem ++ suffix.
Proof.
  unfold endswith. rewrite startswith_spec. split.
  - intros [suf E]. exists (rev suf).
    rewrite <- (rev_involutive x), E, rev_app_distr. now rewrite rev_involutive.
  - intros [stem ->]. exists (rev stem). now rewrite rev_app_distr.
Qed.

Lemma csv_files_spec (file : str) :
  In file (csv_files fs) <->
  In file (listdir fs) /\ exists stem, file = stem ++ lit ".csv".
Proof. unfold csv_files. now rewrite filter_In, endswith_spec. Qed.

Lemma table_rows_in (df : DataFrame) (row : Row) :
  In row (table_rows df) ->
  exists i, i < nrows df /\
            row = map (fun t => (t, bound_cell df i t)) table_columns.
Proof.
  unfold table_rows. intros H. apply in_map_iff in H as (i & <- & Hi).
  apply in_seq in Hi. exists i. split; [lia | reflexivity].
Qed.

Lemma same_column_refl (name : str) : same_column name name = true.
Proof. apply str_eqb_refl. Qed.

(** The first listed name that resolves to [name] is the column just set,
    when no other spelling of [name] is a column of the frame. *)
Lemma find_replace_same_column (name : str) (c : column)
                               (cols : list (str * column)) :
  (forall nc, In nc cols -> same_column (fst nc) name = true ->
              fst nc = name) ->
  find (fun nc => same_column (fst nc) name) (replace_column name c cols)
  = Some (name, c).
Proof.
  induction cols as [|nc cols IH]; intros H; simpl.
  - now rewrite same_column_refl.
  - destruct (str_eqb (fst nc) name) eqn:E; simpl.
    + now rewrite same_column_refl.
    + destruct (same_column (fst nc) name) eqn:S.
      * rewrite (H nc (or_introl eq_refl) S), str_eqb_refl in E. discriminate.
      * apply IH. intros nc' Hin. apply H. now right.
Qed.

Lemma find_replace_other_column (name name' : str) (c : column)
                                (cols : list (str * column)) :
  same_column name name' = false ->
  find (fun nc => same_column (fst nc) name') (replace_column name c cols)
  = find (fun nc => same_column (fst nc) name') cols.
Proof.
  intros N. induction cols as [|nc cols IH]; simpl.
  - now rewrite N.
  - destruct (str_eqb (fst nc) name) eqn:E; simpl.
    + apply str_eqb_eq in E. rewrite E. now rewrite N.
    + now rewrite IH.
Qed.

Lemma has_column_in (df : DataFrame) (nc : str * column) :
  In nc (columns df) -> has_column df (fst nc) = true.
Proof.
  intros H. apply existsb_exists. exists nc. split; [exact H|].
  apply str_eqb_refl.
Qed.

Lemma cell_at_repeat (v : option str) (n i : nat) :
  i < n -> cell_at (ObjCol (repeat v n)) i = ObjCell v.
Proof.
  unfold cell_at. intros H. f_equal. revert i H.
  induction n as [|n IH]; intros [|i] H; simpl; try lia; auto.
  apply IH. lia.
Qed.

Lemma nrows_setitem_scalar (df : DataFrame) (name : str) (v : option str) :
  nrows (setitem_scalar df name v) = nrows df.
Proof. reflexivity. Qed.

(** The cell that the table column [name] gets from a frame in which
    [name] was just set to [v] on every row. *)
Lemma bound_cell_setitem_scalar (df : DataFrame) (name : str)
                                (v : option str) (i : nat) :
  (forall n, has_column df n = true -> same_column n name = true ->
             n = name) ->
  i < nrows df ->
  bound_cell (setitem_scalar df name v) i name = ObjCell v.
Proof.
  intros H Hi. unfold bound_cell, setitem_scalar, setitem. cbn [columns].
  rewrite find_replace_same_column.
  - cbn [snd]. now apply cell_at_repeat.
  - intros nc Hin. apply H. now apply has_column_in.
Qed.

Lemma bound_cell_setitem_other (df : DataFrame) (name name' : str)
                               (c : column) (i : nat) :
  same_column name name' = false ->
  bound_cell (setitem df name c) i name' = bound_cell df i name'.
Proof.
  intros N. unfold bound_cell, setitem. cbn [columns].
  now rewrite (@find_replace_other_column name name' c (columns df) N).
Qed.

(** What a file that is processed without error looks like. *)
Lemma process_file_ok (file : str) (w w' : World) :
  process_file parse_float fs file w = (Ok tt, w') ->
  exists df df',
    read_csv fs file = Ok df /\
    nrows df' = nrows df /\
    column_names df' = column_names df /\
    store w'
    = store w ++
      table_rows
        (setitem_scalar
           (setitem_scalar df' (lit "FUND NAME") (fst (parse_filename file)))
           (lit "REPORT DATE") (snd (parse_filename file))).
Proof.
  unfold process_file.
  destruct (parse_filename file) as [fund_name report_date]. cbn [fst snd].
  unfold bind at 1. unfold lift.
  destruct (read_csv fs file) as [df | e]; [|discriminate].
  unfold bind at 1.
  destruct (validate_dataframe parse_float df fund_name file w)
    as [[[v df'] | e] w1] eqn:V; [|discriminate].
  pose proof (@validate_dataframe_ok_columns parse_float _ _ _ _ _ _ V) as Hall.
  destruct (@validate_dataframe_frame parse_float df fund_name file Hall)
    as (df1 & l & E & Hn & Hnames & _).
  rewrite E in V. injection V as <- <- <-.
  cbn [negb]. unfold bind.
  set (tagged := setitem_scalar (setitem_scalar df1 (lit "FUND NAME") fund_name)
                                (lit "REPORT DATE") report_date).
  destruct (to_sql_effect tagged) as [[e Es] | Es]; rewrite Es;
    [discriminate|].
  unfold logging. cbn [store log]. intros [= <-].
  exists df, df1. split; [reflexivity|].
  split; [exact Hn | split; [exact Hnames|]].
  cbn [store]. now rewrite app_nil_r.
Qed.

Lemma orig_parse_filename_ok (filename n : str) (d : option str) :
  OrigFile.parse_filename filename = Ok (n, d) <->
  parse_filename filename = (Some n, d) /\
  exists raw, re_search date_pattern filename = Some raw.
Proof.
  unfold OrigFile.parse_filename, parse_filename, find_fund_name,
    OrigFile.fund_names.
  destruct (re_search date_pattern filename) as [raw|].
  - destruct (find (fun name => contains (lower filename) (lower name))
                   fund_names) as [name|].
    + split.
      * intros [= -> <-]. split; [reflexivity | now exists raw].
      * now intros [[= -> <-] _].
    + split; [discriminate | now intros [[=] _]].
  - split; [discriminate | now intros [_ [raw [=]]]].
Qed.

Lemma orig_process_file_ok (file : str) (w w' : World) :
  OrigFile.process_file parse_float fs file w = (Ok tt, w') ->
  process_file parse_float fs file w = (Ok tt, w').
Proof.
  unfold OrigFile.process_file, process_file.
  unfold bind at 1. unfold lift at 1.
  destruct (OrigFile.parse_filename file) as [[n d] | e] eqn:P; [|discriminate].
  apply orig_parse_filename_ok in P as [-> _].
  unfold OrigFile.validate_dataframe. auto.
Qed.

Lemma orig_for_each_ok (files : list str) :
  forall w w',
    for_each (OrigFile.process_file parse_float fs) files w = (Ok tt, w') ->
    for_each (process_file_guarded parse_float fs) files w = (Ok tt, w').
Proof.
  induction files as [|file files IH]; intros w w'; cbn [for_each]; [auto|].
  unfold bind.
  destruct (OrigFile.process_file parse_float fs file w)
    as [[[] | e] w1] eqn:O; [|discriminate].
  apply orig_process_file_ok in O.
  unfold process_file_guarded, try_except. rewrite O. apply IH.
Qed.

End IngestCsvMore.

Section IngestCsvProperties.
Import Py Pd Effects Spec InvestmentFunds.

(** X8.  For a folder that can be listed, [ingest_csv] ends normally
    whatever its files hold, and reloads the store from scratch: the rows it
    leaves and the lines it writes do not depend on what the store held
    before, and the log is only added to.  When the folder is missing the
    store is left empty and nothing is logged. *)
Theorem X8_ingest_csv_replaces_store
        (parse_float : str -> float) (fs : FileSystem) :
  exists rows lines,
    (forall w, ingest_csv parse_float fs w
               = (Ok tt, mkworld rows (log w ++ lines))) /\
    (folder_exists fs = false -> rows = [] /\ lines = []).
Proof.
  unfold ingest_csv. destruct (folder_exists fs).
  - destruct (for_each_guarded_effect parse_float fs (csv_files fs))
      as (l & E & _).
    exists (flat_map (file_rows parse_float fs) (csv_files fs)), l.
    split; [|discriminate]. intros w. now rewrite E.
  - exists [], []. split; [|now split]. intros w. now rewrite app_nil_r.
Qed.

(** X9.  Every row that [ingest_csv] leaves in the store comes from a
    snapshot of the folder whose file name ends in [.csv].  Its [FUND NAME]
    holds the fund name that [parse_filename] read from that file name,
    provided the snapshot has no column that spells [FUND NAME] in another
    case (SQLite would store the first such column instead); likewise its
    [REPORT DATE] holds the report date read from the file name. *)
Theorem X9_stored_rows_are_tagged
        (parse_float : str -> float) (fs : FileSystem)
        (w : World) (row : Row) :
  In row (store (snd (ingest_csv parse_float fs w))) ->
  exists file stem df,
    file = stem ++ lit ".csv" /\
    In file (listdir fs) /\
    read_csv fs file = Ok df /\
    ((forall name, has_column df name = true ->
                   same_column name (lit "FUND NAME") = true ->
                   name = lit "FUND NAME") ->
     row_get row (lit "FUND NAME")
     = Some (ObjCell (fst (parse_filename file)))) /\
    ((forall name, has_column df name = true ->
                   same_column name (lit "REPORT DATE") = true ->
                   name = lit "REPORT DATE") ->
     row_get row (lit "REPORT DATE")
     = Some (ObjCell (snd (parse_filename file)))).
Proof.
  intros H. destruct (folder_exists fs) eqn:Hf.
  2:{ unfold ingest_csv in H. rewrite Hf in H. destruct H. }
  destruct (ingest_csv_isolation parse_float fs w Hf) as (_ & S & _).
  rewrite S in H. apply in_flat_map in H as (file & Hfile & Hrow).
  apply (csv_files_spec fs) in Hfile as [Hlist [stem ->]].
  unfold file_rows in Hrow.
  destruct (process_file parse_float fs (stem ++ lit ".csv") empty_world)
    as [[[] | e] w'] eqn:P; [|destruct Hrow].
  apply process_file_ok in P as (df & df' & R & Hn & Hnames & St).
  rewrite St in Hrow. cbn [store empty_world app] in Hrow.
  apply table_rows_in in Hrow as (i & Hi & ->).
  rewrite !nrows_setitem_scalar in Hi.
  assert (Hcol : forall n, has_column df' n = has_column df n).
  { intros n. now rewrite !has_column_names, Hnames. }
  exists (stem ++ lit ".csv"), stem, df.
  split; [reflexivity | split; [exact Hlist | split; [exact R | split]]].
  - intros Hfund.
    change (Some (bound_cell
                    (setitem_scalar
                       (setitem_scalar df' (lit "FUND NAME")
                                       (fst (parse_filename (stem ++ lit ".csv"))))
                       (lit "REPORT DATE")
                       (snd (parse_filename (stem ++ lit ".csv"))))
                    i (lit "FUND NAME"))
            = Some (ObjCell (fst (parse_filename (stem ++ lit ".csv"))))).
    f_equal. unfold setitem_scalar at 1.
    rewrite bound_cell_setitem_other by reflexivity.
    apply bound_cell_setitem_scalar; [|exact Hi].
    intros n Hc. apply Hfund. now rewrite <- Hcol.
  - intros Hdate.
    change (Some (bound_cell
                    (setitem_scalar
                       (setitem_scalar df' (lit "FUND NAME")
                                       (fst (parse_filename (stem ++ lit ".csv"))))
                       (lit "REPORT DATE")
                       (snd (parse_filename (stem ++ lit ".csv"))))
                    i (lit "REPORT DATE"))
            = Some (ObjCell (snd (parse_filename (stem ++ lit ".csv"))))).
    f_equal. apply bound_cell_setitem_scalar;
      [|now rewrite nrows_setitem_scalar].
    intros n Hc Sn. unfold setitem_scalar in Hc.
    rewrite has_column_setitem, Hcol in Hc.
    apply orb_true_iff in Hc as [Hc | Hc]; [now apply Hdate|].
    apply str_eqb_eq in Hc. subst n. discriminate.
Qed.

Lemma X9_stored_rows_are_tagged_witness :
  let row :=
    hd [] (store (snd (ingest_csv (fun _ => NaN) folder_one_good
                                  empty_world))) in
  row_get row (lit "FUND NAME") = Some (ObjCell (Some (lit "Leeder"))) /\
  row_get row (lit "REPORT DATE") = Some (ObjCell (Some (lit "1/31/2022"))).
Proof.
  intros row.
  destruct (@X9_stored_rows_are_tagged (fun _ => NaN) folder_one_good
                                       empty_world row)
    as (file & stem & df & E & Hin & R & Hfund & Hdate);
    [left; reflexivity|].
  assert (Hfile : file = lit "Leeder_2022-01-31.csv").
  { destruct Hin as [<- | [<- | []]]; [reflexivity|].
    assert (X : endswith (lit "notes.txt") (lit ".csv") = true)
      by (apply endswith_spec; now exists stem).
    discriminate X. }
  subst file. injection R as <-. rewrite Hfile in Hfund, Hdate.
  assert (Plain : forall t name,
             has_column frame_complete name = true ->
             same_column name t = true ->
             In t [lit "FUND NAME"; lit "REPORT DATE"] -> name = t).
  { intros t name Hc Sn Ht. unfold has_column in Hc.
    apply existsb_exists in Hc as (nc & Hnc & En).
    apply str_eqb_eq in En. subst name.
    destruct Ht as [<- | [<- | []]];
      repeat (destruct Hnc as [<- | Hnc]; [discriminate Sn|]);
      destruct Hnc. }
  split.
  - apply Hfund. intros name Hc Sn. apply (Plain _ name Hc Sn). now left.
  - apply Hdate. intros name Hc Sn. apply (Plain _ name Hc Sn). now right; left.
Defined.

(** X11.  [parse_filename] of [orig_file.py] returns exactly when the file
    name has a roster fund name and a date token, and then it returns what
    [parse_filename] of the class returns. *)
Theorem X11_orig_parse_filename_agrees (filename n : str) (d : option str) :
  OrigFile.parse_filename filename = Ok (n, d) <->
  parse_filename filename = (Some n, d) /\
  exists raw, re_search date_pattern filename = Some raw.
Proof. apply orig_parse_filename_ok. Qed.

(** X12.  Whenever [ingest_csv] of [orig_file.py] runs to its end, it
    leaves the store and the log that [ingest_csv] of the class leaves. *)
Theorem X12_orig_ingest_csv_agrees
        (parse_float : str -> float) (fs : FileSystem) (w w' : World) :
  OrigFile.ingest_csv parse_float fs w = (Ok tt, w') ->
  ingest_csv parse_float fs w = (Ok tt, w').
Proof.
  unfold OrigFile.ingest_csv, ingest_csv.
  destruct (folder_exists fs); [|discriminate].
  apply orig_for_each_ok.
Qed.

Lemma X12_orig_ingest_csv_agrees_witness :
  ingest_csv (fun _ => NaN) folder_one_good empty_world
  = (Ok tt,
     snd (OrigFile.ingest_csv (fun _ => NaN) folder_one_good empty_world)).
Proof.
  apply X12_orig_ingest_csv_agrees. reflexivity.
Defined.

End IngestCsvProperties.

(* ================================================================== *)
(** * More on the two reports *)
(* ================================================================== *)

Section SortedFrames.
Import Py Pd Spec.

Lemma sorted_by_map {A C} (f : A -> C) (leb : C -> C -> bool) (l : list A) :
  sorted_by (fun a b => leb (f a) (f b)) l <-> sorted_by leb (map f l).
Proof.
  unfold sorted_by. induction l as [|x l IH]; simpl.
  - split; constructor.
  - split; intros H; inversion H as [|? ? Hs Hall]; subst; constructor.
    + now apply IH.
    + now apply Forall_map.
    + now apply IH.
    + now apply Forall_map in Hall.
Qed.

Lemma sorted_by_weaken {A} (leb leb' : A -> A -> bool) (l : list A) :
  (forall a b, leb a b = true -> leb' a b = true) ->
  sorted_by leb l -> sorted_by leb' l.
Proof.
  intros W. unfold sorted_by. induction 1 as [|x l Hs IH Hall]; constructor.
  - exact IH.
  - rewrite Forall_forall in *. auto.
Qed.

Lemma sorted_by_filter {A} (leb : A -> A -> bool) (p : A -> bool) (l : list A) :
  sorted_by leb l -> sorted_by leb (filter p l).
Proof.
  unfold sorted_by. induction 1 as [|x l Hs IH Hall]; simpl; [constructor|].
  destruct (p x); [|exact IH]. constructor; [exact IH|].
  rewrite Forall_forall in *. intros y Hy. apply filter_In in Hy as [Hy _].
  now apply Hall.
Qed.

End SortedFrames.

(** A sort that keeps tied rows in the order they had. *)
Section StableSort.
Import Py Pd Spec.
Variable A : Type.
Variables leb1 leb2 : A -> A -> bool.
Hypothesis total1 : total leb1.
Hypothesis trans1 : transitive leb1.

Lemma lex_leb_first (a b : A) : lex_leb leb1 leb2 a b = true -> leb1 a b = true.
Proof.
  unfold lex_leb. destruct (@total1 a b) as [H | H]; rewrite H; [auto|].
  destruct (leb1 a b); simpl; auto.
Qed.

Lemma lex_leb_intro (a b : A) :
  leb1 a b = true -> leb2 a b = true -> lex_leb leb1 leb2 a b = true.
Proof.
  unfold lex_leb. intros -> ->. now destruct (leb1 b a).
Qed.

Lemma insert_sorted_stable (x : A) (l : list A) :
  sorted_by (lex_leb leb1 leb2) l ->
  (forall z, In z l -> leb2 x z = true) ->
  sorted_by (lex_leb leb1 leb2) (insert_sorted leb1 x l).
Proof.
  unfold sorted_by. induction 1 as [|y l Hs IH Hy]; intros Hx; simpl.
  - repeat constructor.
  - rewrite Forall_forall in Hy. destruct (leb1 x y) eqn:E.
    + constructor; [constructor; [exact Hs | now apply Forall_forall]|].
      apply Forall_forall. intros z Hz. apply lex_leb_intro.
      * destruct Hz as [<- | Hz]; [exact E|].
        apply (@trans1 x y z E). now apply lex_leb_first, Hy.
      * now apply Hx.
    + constructor.
      * apply IH. intros z Hz. apply Hx. now right.
      * apply Forall_forall. intros z Hz.
        apply (Permutation_in _ (insert_sorted_perm leb1 x l)) in Hz.
        destruct Hz as [<- | Hz]; [|now apply Hy].
        unfold lex_leb. now rewrite E.
Qed.

(** Sorting by a first criterion a frame that is sorted by a second one
    gives a frame sorted by the first, ties in the order of the second. *)
Lemma sort_values_stable (l : list A) :
  sorted_by leb2 l -> sorted_by (lex_leb leb1 leb2) (sort_values leb1 l).
Proof.
  unfold sorted_by. induction 1 as [|x l Hs IH Hx]; [constructor|].
  unfold sort_values in *. simpl. apply insert_sorted_stable; [exact IH|].
  rewrite Forall_forall in Hx. intros z Hz. apply Hx.
  now apply (sort_values_in leb1 l z).
Qed.

End StableSort.

Section ReconciliationMore.
Import Py Pd Spec InvestmentFunds.

Lemma existsb_is_null_true {A B} (f : A -> option B) (l : list A) :
  existsb (fun x => is_null (f x)) l = true <->
  exists x, In x l /\ f x = None.
Proof.
  rewrite existsb_exists. split; intros (x & Hin & H); exists x; split; auto.
  - now destruct (f x).
  - now rewrite H.
Qed.

Lemma fund_df_null (external_funds : list Holding) :
  (exists l, In l (sort_values (fun a b => nat_last_leb (fr_dt a) (fr_dt b))
                               (map make_fund_row external_funds)) /\
             fr_dt l = None) <->
  exists h, In h external_funds /\ REPORT_DATE h = None.
Proof.
  split.
  - intros (l & Hl & N). apply sort_values_in in Hl.
    apply in_map_iff in Hl as (h & <- & Hh). exists h. split; [exact Hh|].
    simpl in N. now destruct (REPORT_DATE h).
  - intros (h & Hh & N). exists (make_fund_row h). split.
    + apply sort_values_in. now apply in_map.
    + simpl. now rewrite N.
Qed.

Lemma master_df_null (observations : list PriceObservation) :
  (exists o, In o (sort_values (fun a b => nat_last_leb (obs_dt a) (obs_dt b))
                               observations) /\
             obs_dt o = None) <->
  exists o, In o observations /\ obs_dt o = None.
Proof.
  split; intros (o & Ho & N); exists o; (split; [|exact N]).
  - now apply sort_values_in in Ho.
  - now apply sort_values_in.
Qed.

Lemma not_exists_null {A B} (f : A -> option B) (l : list A) :
  ~ (exists x, In x l /\ f x = None) -> forall x, In x l -> f x <> None.
Proof. intros N x Hin E. apply N. now exists x. Qed.

(** The outcome of the report, by the null keys of its inputs. *)
Lemma reconciliation_outcome
      (bond_prices equity_prices : list PriceObservation)
      (external_funds : list Holding) :
  match generate_reconciliation_report bond_prices equity_prices
                                       external_funds with
  | Ok report =>
      (forall h, In h external_funds -> REPORT_DATE h <> None) /\
      (forall o, In o (bond_prices ++ equity_prices) -> obs_dt o <> None) /\
      merge_rows
        (sort_values (fun a b => nat_last_leb (fr_dt a) (fr_dt b))
                     (map make_fund_row external_funds))
        (sort_values (fun a b => nat_last_leb (obs_dt a) (obs_dt b))
                     (bond_prices ++ equity_prices))
      = Ok report
  | Raise e =>
      ((exists h, In h external_funds /\ REPORT_DATE h = None) /\
       e = ValueError (lit "Merge keys contain null values on left side")) \/
      ((forall h, In h external_funds -> REPORT_DATE h <> None) /\
       (exists o, In o (bond_prices ++ equity_prices) /\ obs_dt o = None) /\
       e = ValueError (lit "Merge keys contain null values on right side"))
  end.
Proof.
  unfold generate_reconciliation_report, merge_asof.
  set (fund_df := sort_values _ (map make_fund_row external_funds)).
  set (master_df := sort_values _ (bond_prices ++ equity_prices)).
  destruct (existsb (fun l => is_null (fr_dt l)) fund_df) eqn:L.
  { left. split; [|reflexivity].
    apply fund_df_null. now apply existsb_is_null_true. }
  assert (Hleft : forall h, In h external_funds -> REPORT_DATE h <> None).
  { apply not_exists_null. intros N. apply fund_df_null in N.
    apply (existsb_is_null_true fr_dt) in N. fold fund_df in N. congruence. }
  destruct (existsb (fun o => is_null (obs_dt o)) master_df) eqn:R.
  { right. split; [exact Hleft|]. split; [|reflexivity].
    apply master_df_null. now apply existsb_is_null_true. }
  assert (Hright : forall o, In o (bond_prices ++ equity_prices) ->
                             obs_dt o <> None).
  { apply not_exists_null. intros N. apply master_df_null in N.
    apply (existsb_is_null_true obs_dt) in N. fold master_df in N.
    congruence. }
  destruct (@merge_rows_ok master_df fund_df) as (rows & E & _).
  { apply not_exists_null. intros N. apply fund_df_null in N.
    destruct N as (h & Hh & N). now apply (Hleft h). }
  rewrite E. auto.
Qed.

Lemma merge_rows_dates (right : list PriceObservation) (left : list FundRow) :
  forall rows,
    merge_rows left right = Ok rows ->
    map (fun r => Some (rr_dt r)) rows = map fr_dt left.
Proof.
  induction left as [|l left IH]; intros rows; cbn [merge_rows].
  - now intros [= <-].
  - destruct (fr_dt l) as [t|] eqn:T; [|discriminate].
    destruct (merge_rows left right) as [rows'|e]; [|discriminate].
    intros [= <-]. cbn [map rr_dt]. rewrite T. f_equal. now apply IH.
Qed.

(** X14.  The lines of the reconciliation report are in chronological
    order of the report dates, whatever the order of the store. *)
Theorem X14_reconciliation_chronological
        (bond_prices equity_prices : list PriceObservation)
        (external_funds : list Holding) (report : list ReconRow) :
  generate_reconciliation_report bond_prices equity_prices external_funds
  = Ok report ->
  sorted_by (fun a b => ts_leb (rr_dt a) (rr_dt b)) report.
Proof.
  intros H.
  pose proof (reconciliation_outcome bond_prices equity_prices external_funds)
    as O.
  rewrite H in O. destruct O as (_ & _ & M).
  apply merge_rows_dates in M.
  apply (sorted_by_map (fun r => Some (rr_dt r)) nat_last_leb report).
  rewrite M. apply (sorted_by_map fr_dt nat_last_leb).
  apply sort_values_sorted.
  - intros a b. apply nat_last_leb_total.
  - intros a b c. apply nat_last_leb_trans.
Qed.

Lemma X14_reconciliation_chronological_witness :
  exists report,
    generate_reconciliation_report example_bonds example_equities
                                   dated_holdings = Ok report /\
    map (fun r => FUND_NAME (rr_holding r)) report
    = [Some (lit "Gohen"); Some (lit "Leeder")] /\
    sorted_by (fun a b => ts_leb (rr_dt a) (rr_dt b)) report.
Proof.
  destruct (generate_reconciliation_report example_bonds example_equities
                                           dated_holdings)
    as [report|e] eqn:E; [|discriminate].
  exists report. split; [reflexivity|]. split.
  - vm_compute in E. now injection E as <-.
  - exact (X14_reconciliation_chronological _ _ _ E).
Defined.

End ReconciliationMore.

Section PerformanceMore.
Import Py Pd Spec InvestmentFunds.

Lemma by_dt_ror_desc_dt (a b : Monthly) :
  by_dt_ror_desc a b = true -> ts_leb (m_dt a) (m_dt b) = true.
Proof.
  unfold by_dt_ror_desc, ts_ltb, ts_eqb.
  destruct (ts_leb_total (m_dt a) (m_dt b)) as [H | H]; [now intros _|].
  rewrite H. simpl. destruct (ts_leb (m_dt a) (m_dt b)); [reflexivity|].
  discriminate.
Qed.

(** Keeping the first row of each key of a frame sorted by that key leaves
    the keys strictly increasing. *)
Lemma drop_duplicates_increasing {A} (key : A -> Timestamp) (l : list A) :
  sorted_by (fun a b => ts_leb (key a) (key b)) l ->
  forall seen,
    StronglySorted (fun a b => ts_lt (key a) (key b))
                   (drop_duplicates_from key ts_eqb seen l).
Proof.
  unfold sorted_by. induction 1 as [|x l Hs IH Hx]; intros seen;
    cbn [drop_duplicates_from]; [constructor|].
  destruct (existsb (ts_eqb (key x)) seen); [apply IH|].
  constructor; [apply IH|].
  rewrite Forall_forall in *. intros y Hy.
  apply (drop_duplicates_from_in key ts_eqb ts_eqb_eq) in Hy
    as (l1 & l2 & E & _ & N).
  assert (Hin : In y l) by (rewrite E; apply in_elt).
  unfold ts_lt, ts_ltb.
  destruct (ts_leb (key y) (key x)) eqn:Le; [|reflexivity].
  exfalso. apply N. left.
  apply ts_leb_antisym; [now apply Hx | exact Le].
Qed.

(** The frame that is ranked is sorted by fund and date. *)
Lemma eligible_sorted (holdings : list Holding) :
  sorted_by by_fund_dt (eligible holdings).
Proof.
  unfold eligible, dropna_ror. apply sorted_by_filter.
  set (leb := fun x y : str * date * float * float =>
                str_ltb (fst (fst (fst x))) (fst (fst (fst y))) ||
                (str_eqb (fst (fst (fst x))) (fst (fst (fst y))) &&
                 ts_leb (to_datetime (snd (fst (fst x))))
                        (to_datetime (snd (fst (fst y)))))).
  apply (sorted_by_map base leb). rewrite monthly_with_ror_base.
  apply (sorted_by_map base leb).
  apply (sorted_monthly holdings).
Qed.

(** The ranked frame: by date, then by rate of return, and among lines
    that tie on both in the order of fund and date. *)
Lemma ranked_sorted (holdings : list Holding) :
  sorted_by (lex_leb by_dt_ror_desc by_fund_dt)
            (sort_values by_dt_ror_desc (eligible holdings)).
Proof.
  apply sort_values_stable.
  - exact by_dt_ror_desc_total.
  - exact by_dt_ror_desc_trans.
  - apply eligible_sorted.
Qed.

(** X15.  The lines of the performance report are in strictly increasing
    chronological order of their periods. *)
Theorem X15_performance_chronological (holdings : list Holding) :
  StronglySorted (fun a b => ts_lt (m_dt a) (m_dt b))
                 (generate_performance_report holdings).
Proof.
  unfold generate_performance_report, drop_duplicates.
  apply drop_duplicates_increasing.
  apply (sorted_by_weaken (leb := by_dt_ror_desc)).
  - exact by_dt_ror_desc_dt.
  - apply sort_values_sorted;
      [exact by_dt_ror_desc_total | exact by_dt_ror_desc_trans].
Qed.

(** X16.  Ties are broken by fund name: when an eligible line of the same
    period has a rate of return as high as the one of the selected line,
    the selected fund name is the first of the two in code point order. *)
Theorem X16_ties_go_to_first_fund_name
        (holdings : list Holding) (r q : Monthly) :
  In r (generate_performance_report holdings) ->
  In q (eligible holdings) ->
  m_dt q = m_dt r ->
  fge (ROR q) (ROR r) = true ->
  str_leb (m_FUND_NAME r) (m_FUND_NAME q) = true.
Proof.
  intros Hr Hq Hdt Hge.
  assert (Nr : is_nan (ROR r) = false) by now apply report_line_not_nan in Hr.
  assert (Nq : is_nan (ROR q) = false) by now apply eligible_in in Hq.
  unfold generate_performance_report in Hr. fold (eligible holdings) in Hr.
  apply (drop_duplicates_from_in m_dt ts_eqb ts_eqb_eq) in Hr
    as (l1 & l2 & E & First & _).
  pose proof (ranked_sorted holdings) as S. rewrite E in S.
  destruct (sorted_by_split _ _ _ S) as [_ After].
  apply (sort_values_in by_dt_ror_desc) in Hq. rewrite E in Hq.
  apply in_app_or in Hq as [Hq | [<- | Hq]].
  - now destruct (First q Hq).
  - apply str_leb_refl.
  - specialize (After q Hq). unfold lex_leb in After.
    assert (T : by_dt_ror_desc q r = true).
    { unfold by_dt_ror_desc. rewrite Hdt.
      rewrite (proj2 (ts_eqb_eq (m_dt r) (m_dt r)) eq_refl).
      rewrite (fge_sort_fge _ _ Nq Nr), Hge. apply orb_true_r. }
    rewrite T in After. simpl in After.
    apply andb_true_iff in After as [_ F].
    unfold by_fund_dt, str_ltb in F.
    apply orb_true_iff in F as [F | F].
    + destruct (str_leb_total (m_FUND_NAME r) (m_FUND_NAME q)) as [H | H];
        [exact H|]. rewrite H in F. discriminate.
    + apply andb_true_iff in F as [F _]. apply str_eqb_eq in F.
      rewrite F. apply str_leb_refl.
Qed.

Lemma X16_ties_go_to_first_fund_name_witness :
  let r := mkmonthly (lit "Gohen") (mkdate 2022 9 30) (Fin 55) (Fin 0)
                     (Fin 50) (Fin (5 # 50)) in
  let q := mkmonthly (lit "Leeder") (mkdate 2022 9 30) (Fin 110) (Fin 0)
                     (Fin 100) (Fin 0.10) in
  In r (generate_performance_report tied_funds) /\
  In q (eligible tied_funds) /\
  str_leb (m_FUND_NAME r) (m_FUND_NAME q) = true.
Proof.
  intros r q.
  assert (Hr : In r (generate_performance_report tied_funds))
    by (left; reflexivity).
  assert (Hq : In q (eligible tied_funds)) by (right; left; reflexivity).
  split; [exact Hr | split; [exact Hq|]].
  apply (@X16_ties_go_to_first_fund_name tied_funds r q Hr Hq);
    reflexivity.
Defined.

End PerformanceMore.
